(** * IRRF calculator (calculadora-irrf): the Express handler of [app.js]

    A shallow embedding of the [POST /calcular-irrf] handler.  The repository
    carries two revisions of [app.js]: the first one answers with the computed
    figures only, the second one adds the calculation trace
    ([memoria_calculo]) and restates the PL 1087/25 reduction.  Everything up
    to [valor_irrf] is textually the same in both and is embedded once; the
    rest lives in the modules [V1] and [V2].

    JavaScript numbers are IEEE 754 binary64 values.  They are modelled by the
    [spec_float] type of the Standard Library with its correctly rounded
    operations, so every rounding the handler performs is the rounding of the
    embedding.

    What outlives a request is the module scope of [app.js]; the modules
    [Estado], [Estado1] and [Estado2] run the same handlers as programs on
    that state. *)

From Stdlib Require Import ZArith Bool List String Lia.
From Stdlib Require Import SpecFloat.
From Stdlib Require Import Reals Lra.
Import ListNotations.
Local Open Scope string_scope.
Local Open Scope Z_scope.
Set Warnings "-register-all".

(** ** JavaScript numbers *)

Definition prec : Z := 53.
Definition emax : Z := 1024.

Definition number : Type := spec_float.

Definition NaN : number := S754_nan.
Definition Infinity : number := S754_infinity false.

Definition nadd : number -> number -> number := SFadd prec emax.
Definition nsub : number -> number -> number := SFsub prec emax.
Definition nmul : number -> number -> number := SFmul prec emax.
Definition ndiv : number -> number -> number := SFdiv prec emax.

(** An integer literal (exact below 2^53). *)
Definition of_Z (z : Z) : number := binary_normalize prec emax z 0 false.

(** A decimal literal [n / d] with [d] a power of ten: the literal denotes the
    binary64 value nearest to the decimal, which is what the correctly rounded
    quotient of the two exact integers is. *)
Definition lit (n d : Z) : number := ndiv (of_Z n) (of_Z d).

(** The signed integer [m] of a finite number [m * 2^e]. *)
Definition signed (s : bool) (m : positive) : Z := cond_Zopp s (Zpos m).

(** Comparison by value; [None] when an operand is NaN.  Zeros of either sign
    compare equal. *)
Definition ncompare (x y : number) : option comparison :=
  match x, y with
  | S754_nan, _ | _, S754_nan => None
  | S754_infinity s1, S754_infinity s2 =>
      Some match s1, s2 with
           | true, true | false, false => Eq
           | true, false => Lt
           | false, true => Gt
           end
  | S754_infinity s, _ => Some (if s then Lt else Gt)
  | _, S754_infinity s => Some (if s then Gt else Lt)
  | S754_finite s _ _, S754_zero _ => Some (if s then Lt else Gt)
  | S754_zero _, S754_finite s _ _ => Some (if s then Gt else Lt)
  | S754_zero _, S754_zero _ => Some Eq
  | S754_finite s1 m1 e1, S754_finite s2 m2 e2 =>
      let e := Z.min e1 e2 in
      Some (Z.compare (signed s1 m1 * 2 ^ (e1 - e)) (signed s2 m2 * 2 ^ (e2 - e)))
  end.

(** The relational operators [<], [<=], [>], [>=] and [===] on numbers. *)
Definition nltb (x y : number) : bool :=
  match ncompare x y with Some Lt => true | _ => false end.
Definition nleb (x y : number) : bool :=
  match ncompare x y with Some (Lt | Eq) => true | _ => false end.
Definition ngtb (x y : number) : bool := nltb y x.
Definition ngeb (x y : number) : bool := nleb y x.
Definition neqb (x y : number) : bool :=
  match ncompare x y with Some Eq => true | _ => false end.

Declare Scope js_scope.
Delimit Scope js_scope with js.
Infix "+" := nadd : js_scope.
Infix "-" := nsub : js_scope.
Infix "*" := nmul : js_scope.
Infix "/" := ndiv : js_scope.
Infix "<?" := nltb : js_scope.
Infix "<=?" := nleb : js_scope.
Infix ">?" := ngtb : js_scope.
Infix ">=?" := ngeb : js_scope.
Infix "=?" := neqb : js_scope.

Module Number.

(** [Number.EPSILON] is 2^-52. *)
Definition EPSILON : number := binary_normalize prec emax 1 (-52) false.

(** [Number.isFinite] *)
Definition isFinite (x : number) : bool :=
  match x with
  | S754_zero _ | S754_finite _ _ _ => true
  | _ => false
  end.

(** [Number.isInteger] *)
Definition isInteger (x : number) : bool :=
  match x with
  | S754_zero _ => true
  | S754_finite _ m e => (0 <=? e) || (Zpos m mod 2 ^ (- e) =? 0)
  | _ => false
  end.

End Number.

Module Math.

(** [Math.max] and [Math.min] of two arguments: NaN when an argument is NaN,
    and +0 counts as larger than -0. *)
Definition max (a b : number) : number :=
  match ncompare a b with
  | None => NaN
  | Some Lt => b
  | Some Gt => a
  | Some Eq => match a with S754_zero true => b | _ => a end
  end.

Definition min (a b : number) : number :=
  match ncompare a b with
  | None => NaN
  | Some Lt => a
  | Some Gt => b
  | Some Eq => match a with S754_zero false => b | _ => a end
  end.

(** [Math.round]: the integer nearest to [x], ties towards +Infinity, that is
    floor(x + 1/2) computed exactly; a zero result keeps the sign of [x]. *)
Definition round (x : number) : number :=
  match x with
  | S754_finite s m e =>
      if 0 <=? e then x
      else binary_normalize prec emax
             ((2 * signed s m + 2 ^ (- e)) / 2 ^ (- e + 1)) 0 s
  | _ => x
  end.

End Math.

(** ** JavaScript values and objects *)

Inductive jsval : Type :=
| JUndefined
| JNull
| JBool (b : bool)
| JNum (x : number)
| JStr (s : string)
| JArr (items : list jsval)
| JObj (fields : list (string * jsval)).

(** An object literal keeps its properties in insertion order. *)
Definition obj : Type := list (string * jsval).

Fixpoint lookup (k : string) (o : obj) : option jsval :=
  match o with
  | [] => None
  | (k', v) :: o' => if String.eqb k k' then Some v else lookup k o'
  end.

(** Property access [v.k] or [v[k]]: [undefined] for a missing property. *)
Definition get (v : jsval) (k : string) : jsval :=
  match v with
  | JObj o => match lookup k o with Some x => x | None => JUndefined end
  | _ => JUndefined
  end.

Definition has (v : jsval) (k : string) : bool :=
  match v with
  | JObj o => match lookup k o with Some _ => true | None => false end
  | _ => false
  end.

Definition truthy (v : jsval) : bool :=
  match v with
  | JUndefined | JNull => false
  | JBool b => b
  | JNum x => match x with S754_zero _ | S754_nan => false | _ => true end
  | JStr s => negb (String.eqb s "")
  | JArr _ | JObj _ => true
  end.

(** [a ?? b] *)
Definition nullish (a b : jsval) : jsval :=
  match a with
  | JUndefined | JNull => b
  | _ => a
  end.

(** [a && b] and [a || b] *)
Definition js_and (a b : jsval) : jsval := if truthy a then b else a.
Definition js_or (a b : jsval) : jsval := if truthy a then a else b.

(** Conditional spread [...(c ? o : {})] inside an object literal. *)
Definition spread_if (c : bool) (o : obj) : obj := if c then o else [].

(** ** Constants and helpers of [app.js] *)

Definition n0 : number := S754_zero false.

Definition DEDUCAO_POR_DEPENDENTE : number := lit 18959 100.
Definition DESCONTO_SIMPLIFICADO_MINIMO : number := lit 60720 100.

Definition round2 (value : number) : number :=
  (Math.round ((value + Number.EPSILON) * of_Z 100) / of_Z 100)%js.

Record faixa : Type := Faixa {
  limite : number;
  aliquota : number;
  deducao : number
}.

Definition TABELA_IRRF_052025 : list faixa :=
  [ Faixa (lit 242880 100) (lit 0 10) (lit 0 10);
    Faixa (lit 282665 100) (lit 75 10) (lit 18216 100);
    Faixa (lit 375105 100) (lit 150 10) (lit 39416 100);
    Faixa (lit 466468 100) (lit 225 10) (lit 67549 100);
    Faixa Infinity (lit 275 10) (lit 90873 100) ].

Definition isFiniteNumber (value : jsval) : bool :=
  match value with
  | JNum x => Number.isFinite x
  | _ => false
  end.

(** The [for ... of] loop of [escolherFaixa] over a table: the first row with
    [base <= limite] is returned, [padrao] after the loop. *)
Fixpoint escolher_em (tabela : list faixa) (padrao : faixa) (base : number) : faixa :=
  match tabela with
  | [] => padrao
  | f :: resto => if (base <=? limite f)%js then f else escolher_em resto padrao base
  end.

Definition ultima_faixa : faixa :=
  nth (List.length TABELA_IRRF_052025 - 1)%nat TABELA_IRRF_052025 (Faixa NaN NaN NaN).

Definition escolherFaixa (base : number) : faixa :=
  escolher_em TABELA_IRRF_052025 ultima_faixa base.

(** ** The computation shared by both revisions (lines 69-88 and 296-315) *)

Section Calculo.

Variables rendimento_tributavel previdencia_oficial
          quantidade_dependentes pensao_alimenticia : number.

Definition deducao_dependentes : number :=
  round2 (quantidade_dependentes * DEDUCAO_POR_DEPENDENTE)%js.

Definition soma_deducoes : number :=
  round2 (previdencia_oficial + deducao_dependentes + round2 pensao_alimenticia)%js.

Definition deducao_total_aplicada : number :=
  round2 (Math.max soma_deducoes DESCONTO_SIMPLIFICADO_MINIMO).

Definition simplificado_minimo_usado : bool :=
  (DESCONTO_SIMPLIFICADO_MINIMO >? soma_deducoes)%js.

Definition base_liquida_irrf : number :=
  round2 (rendimento_tributavel - deducao_total_aplicada)%js.

Definition aliquota_irrf : number := aliquota (escolherFaixa base_liquida_irrf).

Definition deducao_conforme_tabela : number :=
  deducao (escolherFaixa base_liquida_irrf).

(** [valor_irrf] before it is rounded: the table formula, then the two
    guards of lines 86 and 87. *)
Definition valor_irrf_bruto : number :=
  let valor_irrf :=
    (base_liquida_irrf * (aliquota_irrf / of_Z 100) - deducao_conforme_tabela)%js in
  let valor_irrf := if negb (Number.isFinite valor_irrf) then of_Z 0 else valor_irrf in
  let valor_irrf := if (valor_irrf <? of_Z 0)%js then of_Z 0 else valor_irrf in
  valor_irrf.

Definition valor_irrf : number := round2 valor_irrf_bruto.

End Calculo.

(** ** Request and response *)

Inductive resposta_http : Type :=
| Resposta (status : Z) (corpo : jsval).

Definition status_de (r : resposta_http) : Z := let 'Resposta s _ := r in s.
Definition corpo_de (r : resposta_http) : jsval := let 'Resposta _ c := r in c.

(** The four fields read from [req.body] (lines 44-51). *)
Definition campo (body : jsval) (k : string) : jsval := get (js_or body (JObj [])) k.

Definition campo_pensao (body : jsval) : jsval :=
  nullish
    (js_and body
       (nullish (get body "pensao_alimenticia") (get body "pensao_alimenticia ")))
    (JNum (of_Z 0)).

Definition to_number (v : jsval) : number :=
  match v with
  | JNum x => x
  | _ => NaN
  end.

Definition erro_campos : string :=
  "Campos inválidos: envie números em rendimento_tributavel, previdencia_oficial, quantidade_dependentes e pensao_alimenticia.".
Definition erro_negativos : string :=
  "rendimento_tributavel, previdencia_oficial e pensao_alimenticia não podem ser negativos.".
Definition erro_dependentes : string :=
  "quantidade_dependentes deve ser inteiro não negativo.".
Definition mensagem_pl : string :=
  "A dedução prevista na PL 1085/25 não se aplica porque o rendimento tributável ultrapassa R$ 7.350,00.".

(** The handler up to the point where the response object is built: the
    validations of lines 53-67, then [resposta] applied to the four numbers. *)
Definition calcular_irrf (resposta : number -> number -> number -> number -> obj)
    (body : jsval) : resposta_http :=
  let rendimento_tributavel := campo body "rendimento_tributavel" in
  let previdencia_oficial := campo body "previdencia_oficial" in
  let quantidade_dependentes := campo body "quantidade_dependentes" in
  let pensao_alimenticia := campo_pensao body in
  if negb (isFiniteNumber rendimento_tributavel)
     || negb (isFiniteNumber previdencia_oficial)
     || negb (isFiniteNumber quantidade_dependentes)
     || negb (isFiniteNumber pensao_alimenticia)
  then Resposta 400 (JObj [("erro", JStr erro_campos)])
  else
    let rendimento_tributavel := to_number rendimento_tributavel in
    let previdencia_oficial := to_number previdencia_oficial in
    let quantidade_dependentes := to_number quantidade_dependentes in
    let pensao_alimenticia := to_number pensao_alimenticia in
    if (rendimento_tributavel <? of_Z 0)%js
       || (previdencia_oficial <? of_Z 0)%js
       || (pensao_alimenticia <? of_Z 0)%js
    then Resposta 400 (JObj [("erro", JStr erro_negativos)])
    else if negb (Number.isInteger quantidade_dependentes)
            || (quantidade_dependentes <? of_Z 0)%js
    then Resposta 400 (JObj [("erro", JStr erro_dependentes)])
    else Resposta 200
           (JObj (resposta rendimento_tributavel previdencia_oficial
                    quantidade_dependentes pensao_alimenticia)).

(** ** First revision (lines 90-121) *)

Module V1.

Section Resposta.

Variables rendimento_tributavel previdencia_oficial
          quantidade_dependentes pensao_alimenticia : number.

Let valor_irrf : number :=
  valor_irrf rendimento_tributavel previdencia_oficial
    quantidade_dependentes pensao_alimenticia.

Definition reducao_inicial : number :=
  let reducao_pl_1087_25 := of_Z 0 in
  if (rendimento_tributavel <=? of_Z 5000)%js then lit 31289 100
  else if (rendimento_tributavel >? of_Z 5000)%js
          && (rendimento_tributavel <=? of_Z 7350)%js
  then (lit 97862 100 - lit 133145 1000000 * rendimento_tributavel)%js
  else reducao_pl_1087_25.

Definition reducao_pl_1087_25 : number :=
  Math.max (of_Z 0) (Math.min (round2 reducao_inicial) valor_irrf).

Definition valor_irrf_apos_pl_1087_25 : number :=
  round2 (valor_irrf - reducao_pl_1087_25)%js.

Definition resposta : obj :=
  let simplificado_minimo_usado :=
    simplificado_minimo_usado previdencia_oficial quantidade_dependentes
      pensao_alimenticia in
  ([("rendimento_tributavel", JNum rendimento_tributavel)]
  ++ spread_if (negb simplificado_minimo_usado)
       [("previdencia_oficial", JNum previdencia_oficial);
        ("quantidade_dependentes", JNum quantidade_dependentes);
        ("pensao_alimenticia", JNum (round2 pensao_alimenticia));
        ("valor_deducoes_dependentes",
         JNum (round2 (deducao_dependentes quantidade_dependentes)))]
  ++ spread_if simplificado_minimo_usado
       [("desconto_simplificado_aplicado", JNum DESCONTO_SIMPLIFICADO_MINIMO)]
  ++ [("base_liquida_irrf",
       JNum (round2 (base_liquida_irrf rendimento_tributavel previdencia_oficial
                       quantidade_dependentes pensao_alimenticia)));
      ("aliquota_irrf",
       JNum (aliquota_irrf rendimento_tributavel previdencia_oficial
               quantidade_dependentes pensao_alimenticia));
      ("deducao_conforme_tabela",
       JNum (round2 (deducao_conforme_tabela rendimento_tributavel
                       previdencia_oficial quantidade_dependentes
                       pensao_alimenticia)));
      ("valor_irrf", JNum valor_irrf)]
  ++ (if (rendimento_tributavel >? of_Z 7350)%js
      then [("mensagem", JStr mensagem_pl)]
      else [("reducao_pl_1087_25", JNum reducao_pl_1087_25);
            ("valor_irrf_apos_pl_1087_25", JNum valor_irrf_apos_pl_1087_25)]))%list.

End Resposta.

Definition handler : jsval -> resposta_http := calcular_irrf resposta.

End V1.

(** ** Second revision (lines 317-476) *)

Module V2.

Section Resposta.

Variables rendimento_tributavel previdencia_oficial
          quantidade_dependentes pensao_alimenticia : number.

Let deducao_dependentes : number := deducao_dependentes quantidade_dependentes.
Let soma_deducoes : number :=
  soma_deducoes previdencia_oficial quantidade_dependentes pensao_alimenticia.
Let deducao_total_aplicada : number :=
  deducao_total_aplicada previdencia_oficial quantidade_dependentes
    pensao_alimenticia.
Let simplificado_minimo_usado : bool :=
  simplificado_minimo_usado previdencia_oficial quantidade_dependentes
    pensao_alimenticia.
Let base_liquida_irrf : number :=
  base_liquida_irrf rendimento_tributavel previdencia_oficial
    quantidade_dependentes pensao_alimenticia.
Let aliquota_irrf : number :=
  aliquota_irrf rendimento_tributavel previdencia_oficial
    quantidade_dependentes pensao_alimenticia.
Let deducao_conforme_tabela : number :=
  deducao_conforme_tabela rendimento_tributavel previdencia_oficial
    quantidade_dependentes pensao_alimenticia.
Let valor_irrf : number :=
  valor_irrf rendimento_tributavel previdencia_oficial
    quantidade_dependentes pensao_alimenticia.

(** Lines 318-329: the reduction by the rule of the income range, forced to
    zero when there is no tax, then limited to the tax. *)
Definition reducao_pl_formula : number :=
  let reducao_pl_formula :=
    if (rendimento_tributavel <=? of_Z 5000)%js
    then round2 (Math.min valor_irrf (lit 31289 100))
    else if (rendimento_tributavel <=? of_Z 7350)%js
    then round2 (lit 97862 100 - lit 133145 1000000 * rendimento_tributavel)%js
    else of_Z 0 in
  let reducao_pl_formula :=
    if (valor_irrf =? of_Z 0)%js then of_Z 0 else reducao_pl_formula in
  round2 (Math.max (of_Z 0) (Math.min reducao_pl_formula valor_irrf)).

Definition reducao_pl_aplicada : number :=
  Math.max (of_Z 0) (Math.min reducao_pl_formula valor_irrf).

Definition valor_irrf_apos_pl_1087_25 : number :=
  round2 (valor_irrf - reducao_pl_aplicada)%js.

(** One entry of [memoria_calculo.etapas]. *)
Definition etapa (ordem : Z) (titulo descricao : string) (formula : string)
    (valores : obj) (resultado : jsval) : jsval :=
  JObj [("ordem", JNum (of_Z ordem));
        ("titulo", JStr titulo);
        ("descricao", JStr descricao);
        ("formula", JStr formula);
        ("valores", JObj valores);
        ("resultado", resultado)].

Definition formula_etapa_7 : string :=
  if (rendimento_tributavel <=? of_Z 5000)%js
  then "min(valor_irrf, 312,89)"
  else if (rendimento_tributavel <=? of_Z 7350)%js
  then "max(0, min(978,62 - 0,133145 * rendimento_tributavel, valor_irrf))"
  else "0".

Definition etapas : list jsval :=
  [ etapa 1 "Cálculo da dedução por dependentes"
      "Quantidade de dependentes multiplicada pelo valor de dedução por dependente."
      "quantidade_dependentes * 189,59"
      [("quantidade_dependentes", JNum quantidade_dependentes);
       ("valor_por_dependente", JNum DEDUCAO_POR_DEPENDENTE)]
      (JNum deducao_dependentes);
    etapa 2 "Cálculo das deduções legais"
      "Soma da Previdência Oficial, pensão alimentícia e a dedução por dependentes."
      "previdencia_oficial + pensao_alimenticia + deducao_dependentes"
      [("previdencia_oficial", JNum (round2 previdencia_oficial));
       ("pensao_alimenticia", JNum (round2 pensao_alimenticia));
       ("deducao_dependentes", JNum deducao_dependentes)]
      (JNum soma_deducoes);
    etapa 3 "Escolha da dedução aplicada"
      "Maior valor entre soma das deduções legais e o desconto simplificado mínimo."
      "max(soma_deducoes, 607,20)"
      [("soma_deducoes", JNum soma_deducoes);
       ("desconto_simplificado_minimo", JNum DESCONTO_SIMPLIFICADO_MINIMO);
       ("utilizou_simplificado_minimo", JBool simplificado_minimo_usado)]
      (JNum deducao_total_aplicada);
    etapa 4 "Base líquida do IRRF"
      "Rendimento tributável menos a dedução aplicada."
      "rendimento_tributavel - deducao_total_aplicada"
      [("rendimento_tributavel", JNum (round2 rendimento_tributavel));
       ("deducao_total_aplicada", JNum deducao_total_aplicada)]
      (JNum base_liquida_irrf);
    etapa 5 "Faixa da tabela progressiva"
      "Determinação da alíquota e parcela a deduzir conforme a base líquida."
      "tabela progressiva mensal 05/2025"
      [("base_liquida_irrf", JNum base_liquida_irrf);
       ("aliquota", JNum aliquota_irrf);
       ("deducao_conforme_tabela", JNum (round2 deducao_conforme_tabela))]
      (JObj [("aliquota", JNum aliquota_irrf);
             ("deducao", JNum (round2 deducao_conforme_tabela))]);
    etapa 6 "Imposto pela tabela progressiva"
      "Cálculo do IR pela base líquida."
      "base_liquida_irrf * (aliquota/100) - deducao_conforme_tabela"
      [("base_liquida_irrf", JNum base_liquida_irrf);
       ("aliquota", JNum aliquota_irrf);
       ("deducao_conforme_tabela", JNum (round2 deducao_conforme_tabela))]
      (JNum valor_irrf);
    etapa 7 "Redução PL 1087/25 (regra aplicada)"
      "Cálculo da redução conforme a faixa de rendimento e limitações legais, limitada ao imposto devido."
      formula_etapa_7
      [("rendimento_tributavel", JNum (round2 rendimento_tributavel));
       ("valor_irrf", JNum valor_irrf);
       ("limite_superior", JNum (of_Z 7350))]
      (JNum reducao_pl_formula);
    etapa 8 "Redução aplicada ao imposto"
      "Limitação da redução ao imposto devido (não negativa)."
      "min(max(reducao_pl, 0), valor_irrf)"
      [("reducao_pl_calculada", JNum reducao_pl_formula);
       ("valor_irrf", JNum valor_irrf)]
      (JNum reducao_pl_aplicada);
    etapa 9 "IRRF após PL 1087/25"
      "Imposto final após aplicar a redução da PL, quando aplicável."
      "valor_irrf - reducao_pl_aplicada"
      [("valor_irrf", JNum valor_irrf);
       ("reducao_pl_aplicada", JNum reducao_pl_aplicada)]
      (JNum valor_irrf_apos_pl_1087_25) ].

Definition memoria_calculo : jsval :=
  JObj [("entradas",
         JObj [("rendimento_tributavel", JNum (round2 rendimento_tributavel));
               ("previdencia_oficial", JNum (round2 previdencia_oficial));
               ("quantidade_dependentes", JNum quantidade_dependentes);
               ("pensao_alimenticia", JNum (round2 pensao_alimenticia))]);
        ("etapas", JArr etapas)].

Definition resposta : obj :=
  ([("rendimento_tributavel", JNum rendimento_tributavel)]
  ++ spread_if (negb simplificado_minimo_usado)
       [("previdencia_oficial", JNum previdencia_oficial);
        ("quantidade_dependentes", JNum quantidade_dependentes);
        ("pensao_alimenticia", JNum (round2 pensao_alimenticia));
        ("valor_deducoes_dependentes", JNum (round2 deducao_dependentes))]
  ++ spread_if simplificado_minimo_usado
       [("desconto_simplificado_aplicado", JNum DESCONTO_SIMPLIFICADO_MINIMO)]
  ++ [("base_liquida_irrf", JNum (round2 base_liquida_irrf));
      ("aliquota_irrf", JNum aliquota_irrf);
      ("deducao_conforme_tabela", JNum (round2 deducao_conforme_tabela));
      ("valor_irrf", JNum valor_irrf);
      ("reducao_pl_1087_25", JNum reducao_pl_formula)]
  ++ (if (rendimento_tributavel >? of_Z 7350)%js
      then [("mensagem", JStr mensagem_pl)]
      else [("valor_irrf_apos_pl_1087_25", JNum valor_irrf_apos_pl_1087_25)])
  ++ [("memoria_calculo", memoria_calculo)])%list.

End Resposta.

Definition handler : jsval -> resposta_http := calcular_irrf resposta.

End V2.

Definition corpo_exemplo (rt po qd pa : Z) : jsval :=
  JObj [("rendimento_tributavel", JNum (of_Z rt));
        ("previdencia_oficial", JNum (of_Z po));
        ("quantidade_dependentes", JNum (of_Z qd));
        ("pensao_alimenticia", JNum (of_Z pa))].

(** ** Valid inputs

    The constraints of the data model on the four fields, as the handler
    reads them from the request body. *)

Definition entradas_validas (rt po qd pa : number) : bool :=
  Number.isFinite rt && Number.isFinite po
  && Number.isFinite qd && Number.isFinite pa
  && (of_Z 0 <=? rt)%js && (of_Z 0 <=? po)%js && (of_Z 0 <=? pa)%js
  && Number.isInteger qd && (of_Z 0 <=? qd)%js.

Definition rt_de (body : jsval) : number := to_number (campo body "rendimento_tributavel").
Definition po_de (body : jsval) : number := to_number (campo body "previdencia_oficial").
Definition qd_de (body : jsval) : number := to_number (campo body "quantidade_dependentes").
Definition pa_de (body : jsval) : number := to_number (campo_pensao body).

Definition corpo_valido (body : jsval) : bool :=
  isFiniteNumber (campo body "rendimento_tributavel")
  && isFiniteNumber (campo body "previdencia_oficial")
  && isFiniteNumber (campo body "quantidade_dependentes")
  && isFiniteNumber (campo_pensao body)
  && (of_Z 0 <=? rt_de body)%js && (of_Z 0 <=? po_de body)%js
  && (of_Z 0 <=? pa_de body)%js
  && Number.isInteger (qd_de body) && (of_Z 0 <=? qd_de body)%js.

(** * The handlers as programs on the state of the module

    What outlives a request is the module scope of [app.js].  Its [const]
    bindings of numbers ([DEDUCAO_POR_DEPENDENTE],
    [DESCONTO_SIMPLIFICADO_MINIMO]) cannot change.  [TABELA_IRRF_052025] is a
    [const] binding of an array of objects, which code that holds it can
    change, and [escolherFaixa] hands one of its rows to the handler.  The
    state between requests is therefore the table as it stands: a handler is
    a program that starts on the state the previous request left and leaves
    its own to the next one. *)

Module Estado.

Record modulo : Type := Modulo { tabela : list faixa }.

(** The module as [app.js] sets it up. *)
Definition inicial : modulo := Modulo TABELA_IRRF_052025.

(** A program returns a value or throws a [TypeError] (a property read on
    [undefined]); either way it leaves a state behind. *)
Inductive resultado (A : Type) : Type :=
| Normal (a : A)
| TypeError.

Arguments Normal {A} a.
Arguments TypeError {A}.

Definition programa (A : Type) : Type := modulo -> resultado A * modulo.

Definition retornar {A : Type} (a : A) : programa A := fun m => (Normal a, m).

Definition lancar {A : Type} : programa A := fun m => (TypeError, m).

Definition seguir {A B : Type} (p : programa A) (k : A -> programa B) : programa B :=
  fun m =>
    match p m with
    | (Normal a, m') => k a m'
    | (TypeError, m') => (TypeError, m')
    end.

Notation "x <- p ;; k" := (seguir p (fun x => k))
  (at level 61, p at next level, right associativity).

Definition ler_tabela : programa (list faixa) := fun m => (Normal (tabela m), m).

(** [escolherFaixa] on the table of the state: the loop over its rows, then
    its last row, which is [undefined] ([None]) when the table is empty. *)
Definition escolherFaixa (base : number) : programa (option faixa) :=
  linhas <- ler_tabela ;;
  retornar
    match nth_error linhas (List.length linhas - 1) with
    | Some ultima => Some (escolher_em linhas ultima base)
    | None => None
    end.

(** [faixa.aliquota], [faixa.deducao]: reading a property of [undefined]
    throws. *)
Definition propriedade (f : option faixa) (campo : faixa -> number) : programa number :=
  match f with
  | Some linha => retornar (campo linha)
  | None => lancar
  end.

(** Lines 85-88, on the rate and the table deduction read from the row. *)
Section Imposto.

Variables aliquota_irrf deducao_conforme_tabela : number.
Variables rendimento_tributavel previdencia_oficial
          quantidade_dependentes pensao_alimenticia : number.

Let base_liquida_irrf : number :=
  base_liquida_irrf rendimento_tributavel previdencia_oficial
    quantidade_dependentes pensao_alimenticia.

Definition valor_irrf : number :=
  let valor_irrf :=
    (base_liquida_irrf * (aliquota_irrf / of_Z 100) - deducao_conforme_tabela)%js in
  let valor_irrf := if negb (Number.isFinite valor_irrf) then of_Z 0 else valor_irrf in
  let valor_irrf := if (valor_irrf <? of_Z 0)%js then of_Z 0 else valor_irrf in
  round2 valor_irrf.

End Imposto.

(** The handler: the validations of lines 53-67, the row of the base from
    the table of the state, then [resposta] on the rate and the deduction of
    that row and on the four numbers. *)
Definition calcular_irrf
    (resposta : number -> number -> number -> number -> number -> number -> obj)
    (body : jsval) : programa resposta_http :=
  let rendimento_tributavel := campo body "rendimento_tributavel" in
  let previdencia_oficial := campo body "previdencia_oficial" in
  let quantidade_dependentes := campo body "quantidade_dependentes" in
  let pensao_alimenticia := campo_pensao body in
  if negb (isFiniteNumber rendimento_tributavel)
     || negb (isFiniteNumber previdencia_oficial)
     || negb (isFiniteNumber quantidade_dependentes)
     || negb (isFiniteNumber pensao_alimenticia)
  then retornar (Resposta 400 (JObj [("erro", JStr erro_campos)]))
  else
    let rendimento_tributavel := to_number rendimento_tributavel in
    let previdencia_oficial := to_number previdencia_oficial in
    let quantidade_dependentes := to_number quantidade_dependentes in
    let pensao_alimenticia := to_number pensao_alimenticia in
    if (rendimento_tributavel <? of_Z 0)%js
       || (previdencia_oficial <? of_Z 0)%js
       || (pensao_alimenticia <? of_Z 0)%js
    then retornar (Resposta 400 (JObj [("erro", JStr erro_negativos)]))
    else if negb (Number.isInteger quantidade_dependentes)
            || (quantidade_dependentes <? of_Z 0)%js
    then retornar (Resposta 400 (JObj [("erro", JStr erro_dependentes)]))
    else
      faixa <- escolherFaixa
                 (base_liquida_irrf rendimento_tributavel previdencia_oficial
                    quantidade_dependentes pensao_alimenticia) ;;
      aliquota_irrf <- propriedade faixa aliquota ;;
      deducao_conforme_tabela <- propriedade faixa deducao ;;
      retornar
        (Resposta 200
           (JObj (resposta aliquota_irrf deducao_conforme_tabela
                    rendimento_tributavel previdencia_oficial
                    quantidade_dependentes pensao_alimenticia))).

(** A server answers its requests one after the other, each on the state the
    one before left; a request that throws is answered by the framework and
    the server goes on. *)
Fixpoint servir (handler : jsval -> programa resposta_http) (pedidos : list jsval)
    (m : modulo) : list (resultado resposta_http) * modulo :=
  match pedidos with
  | [] => ([], m)
  | pedido :: resto =>
      let (r, m') := handler pedido m in
      let (rs, m'') := servir handler resto m' in
      (r :: rs, m'')
  end.

End Estado.

(** ** First revision on the state *)

Module Estado1.

Section Resposta.

Variables aliquota_irrf deducao_conforme_tabela : number.
Variables rendimento_tributavel previdencia_oficial
          quantidade_dependentes pensao_alimenticia : number.

Let valor_irrf : number :=
  Estado.valor_irrf aliquota_irrf deducao_conforme_tabela rendimento_tributavel
    previdencia_oficial quantidade_dependentes pensao_alimenticia.

Definition reducao_pl_1087_25 : number :=
  Math.max (of_Z 0)
    (Math.min (round2 (V1.reducao_inicial rendimento_tributavel)) valor_irrf).

Definition valor_irrf_apos_pl_1087_25 : number :=
  round2 (valor_irrf - reducao_pl_1087_25)%js.

Definition resposta : obj :=
  let simplificado_minimo_usado :=
    simplificado_minimo_usado previdencia_oficial quantidade_dependentes
      pensao_alimenticia in
  ([("rendimento_tributavel", JNum rendimento_tributavel)]
  ++ spread_if (negb simplificado_minimo_usado)
       [("previdencia_oficial", JNum previdencia_oficial);
        ("quantidade_dependentes", JNum quantidade_dependentes);
        ("pensao_alimenticia", JNum (round2 pensao_alimenticia));
        ("valor_deducoes_dependentes",
         JNum (round2 (deducao_dependentes quantidade_dependentes)))]
  ++ spread_if simplificado_minimo_usado
       [("desconto_simplificado_aplicado", JNum DESCONTO_SIMPLIFICADO_MINIMO)]
  ++ [("base_liquida_irrf",
       JNum (round2 (base_liquida_irrf rendimento_tributavel previdencia_oficial
                       quantidade_dependentes pensao_alimenticia)));
      ("aliquota_irrf", JNum aliquota_irrf);
      ("deducao_conforme_tabela", JNum (round2 deducao_conforme_tabela));
      ("valor_irrf", JNum valor_irrf)]
  ++ (if (rendimento_tributavel >? of_Z 7350)%js
      then [("mensagem", JStr mensagem_pl)]
      else [("reducao_pl_1087_25", JNum reducao_pl_1087_25);
            ("valor_irrf_apos_pl_1087_25", JNum valor_irrf_apos_pl_1087_25)]))%list.

End Resposta.

Definition handler : jsval -> Estado.programa resposta_http :=
  Estado.calcular_irrf resposta.

End Estado1.

(** ** Second revision on the state *)

Module Estado2.

Section Resposta.

Variables aliquota_irrf deducao_conforme_tabela : number.
Variables rendimento_tributavel previdencia_oficial
          quantidade_dependentes pensao_alimenticia : number.

Let deducao_dependentes : number := deducao_dependentes quantidade_dependentes.
Let soma_deducoes : number :=
  soma_deducoes previdencia_oficial quantidade_dependentes pensao_alimenticia.
Let deducao_total_aplicada : number :=
  deducao_total_aplicada previdencia_oficial quantidade_dependentes
    pensao_alimenticia.
Let simplificado_minimo_usado : bool :=
  simplificado_minimo_usado previdencia_oficial quantidade_dependentes
    pensao_alimenticia.
Let base_liquida_irrf : number :=
  base_liquida_irrf rendimento_tributavel previdencia_oficial
    quantidade_dependentes pensao_alimenticia.
Let valor_irrf : number :=
  Estado.valor_irrf aliquota_irrf deducao_conforme_tabela rendimento_tributavel
    previdencia_oficial quantidade_dependentes pensao_alimenticia.

Definition reducao_pl_formula : number :=
  let reducao_pl_formula :=
    if (rendimento_tributavel <=? of_Z 5000)%js
    then round2 (Math.min valor_irrf (lit 31289 100))
    else if (rendimento_tributavel <=? of_Z 7350)%js
    then round2 (lit 97862 100 - lit 133145 1000000 * rendimento_tributavel)%js
    else of_Z 0 in
  let reducao_pl_formula :=
    if (valor_irrf =? of_Z 0)%js then of_Z 0 else reducao_pl_formula in
  round2 (Math.max (of_Z 0) (Math.min reducao_pl_formula valor_irrf)).

Definition reducao_pl_aplicada : number :=
  Math.max (of_Z 0) (Math.min reducao_pl_formula valor_irrf).

Definition valor_irrf_apos_pl_1087_25 : number :=
  round2 (valor_irrf - reducao_pl_aplicada)%js.

Definition etapas : list jsval :=
  [ V2.etapa 1 "Cálculo da dedução por dependentes"
      "Quantidade de dependentes multiplicada pelo valor de dedução por dependente."
      "quantidade_dependentes * 189,59"
      [("quantidade_dependentes", JNum quantidade_dependentes);
       ("valor_por_dependente", JNum DEDUCAO_POR_DEPENDENTE)]
      (JNum deducao_dependentes);
    V2.etapa 2 "Cálculo das deduções legais"
      "Soma da Previdência Oficial, pensão alimentícia e a dedução por dependentes."
      "previdencia_oficial + pensao_alimenticia + deducao_dependentes"
      [("previdencia_oficial", JNum (round2 previdencia_oficial));
       ("pensao_alimenticia", JNum (round2 pensao_alimenticia));
       ("deducao_dependentes", JNum deducao_dependentes)]
      (JNum soma_deducoes);
    V2.etapa 3 "Escolha da dedução aplicada"
      "Maior valor entre soma das deduções legais e o desconto simplificado mínimo."
      "max(soma_deducoes, 607,20)"
      [("soma_deducoes", JNum soma_deducoes);
       ("desconto_simplificado_minimo", JNum DESCONTO_SIMPLIFICADO_MINIMO);
       ("utilizou_simplificado_minimo", JBool simplificado_minimo_usado)]
      (JNum deducao_total_aplicada);
    V2.etapa 4 "Base líquida do IRRF"
      "Rendimento tributável menos a dedução aplicada."
      "rendimento_tributavel - deducao_total_aplicada"
      [("rendimento_tributavel", JNum (round2 rendimento_tributavel));
       ("deducao_total_aplicada", JNum deducao_total_aplicada)]
      (JNum base_liquida_irrf);
    V2.etapa 5 "Faixa da tabela progressiva"
      "Determinação da alíquota e parcela a deduzir conforme a base líquida."
      "tabela progressiva mensal 05/2025"
      [("base_liquida_irrf", JNum base_liquida_irrf);
       ("aliquota", JNum aliquota_irrf);
       ("deducao_conforme_tabela", JNum (round2 deducao_conforme_tabela))]
      (JObj [("aliquota", JNum aliquota_irrf);
             ("deducao", JNum (round2 deducao_conforme_tabela))]);
    V2.etapa 6 "Imposto pela tabela progressiva"
      "Cálculo do IR pela base líquida."
      "base_liquida_irrf * (aliquota/100) - deducao_conforme_tabela"
      [("base_liquida_irrf", JNum base_liquida_irrf);
       ("aliquota", JNum aliquota_irrf);
       ("deducao_conforme_tabela", JNum (round2 deducao_conforme_tabela))]
      (JNum valor_irrf);
    V2.etapa 7 "Redução PL 1087/25 (regra aplicada)"
      "Cálculo da redução conforme a faixa de rendimento e limitações legais, limitada ao imposto devido."
      (V2.formula_etapa_7 rendimento_tributavel)
      [("rendimento_tributavel", JNum (round2 rendimento_tributavel));
       ("valor_irrf", JNum valor_irrf);
       ("limite_superior", JNum (of_Z 7350))]
      (JNum reducao_pl_formula);
    V2.etapa 8 "Redução aplicada ao imposto"
      "Limitação da redução ao imposto devido (não negativa)."
      "min(max(reducao_pl, 0), valor_irrf)"
      [("reducao_pl_calculada", JNum reducao_pl_formula);
       ("valor_irrf", JNum valor_irrf)]
      (JNum reducao_pl_aplicada);
    V2.etapa 9 "IRRF após PL 1087/25"
      "Imposto final após aplicar a redução da PL, quando aplicável."
      "valor_irrf - reducao_pl_aplicada"
      [("valor_irrf", JNum valor_irrf);
       ("reducao_pl_aplicada", JNum reducao_pl_aplicada)]
      (JNum valor_irrf_apos_pl_1087_25) ].

Definition memoria_calculo : jsval :=
  JObj [("entradas",
         JObj [("rendimento_tributavel", JNum (round2 rendimento_tributavel));
               ("previdencia_oficial", JNum (round2 previdencia_oficial));
               ("quantidade_dependentes", JNum quantidade_dependentes);
               ("pensao_alimenticia", JNum (round2 pensao_alimenticia))]);
        ("etapas", JArr etapas)].

Definition resposta : obj :=
  ([("rendimento_tributavel", JNum rendimento_tributavel)]
  ++ spread_if (negb simplificado_minimo_usado)
       [("previdencia_oficial", JNum previdencia_oficial);
        ("quantidade_dependentes", JNum quantidade_dependentes);
        ("pensao_alimenticia", JNum (round2 pensao_alimenticia));
        ("valor_deducoes_dependentes", JNum (round2 deducao_dependentes))]
  ++ spread_if simplificado_minimo_usado
       [("desconto_simplificado_aplicado", JNum DESCONTO_SIMPLIFICADO_MINIMO)]
  ++ [("base_liquida_irrf", JNum (round2 base_liquida_irrf));
      ("aliquota_irrf", JNum aliquota_irrf);
      ("deducao_conforme_tabela", JNum (round2 deducao_conforme_tabela));
      ("valor_irrf", JNum valor_irrf);
      ("reducao_pl_1087_25", JNum reducao_pl_formula)]
  ++ (if (rendimento_tributavel >? of_Z 7350)%js
      then [("mensagem", JStr mensagem_pl)]
      else [("valor_irrf_apos_pl_1087_25", JNum valor_irrf_apos_pl_1087_25)])
  ++ [("memoria_calculo", memoria_calculo)])%list.

End Resposta.

Definition handler : jsval -> Estado.programa resposta_http :=
  Estado.calcular_irrf resposta.

End Estado2.

(** ** Vocabulary of the statements *)

(** Scenario A of the specification: income 5000, contribution 750, two
    dependents, no alimony. *)
Definition cenario_A : jsval := corpo_exemplo 5000 750 2 0.

(** The figures the specification lists for scenario A. *)
Definition cenario_A_especificado : Prop :=
  let rt := of_Z 5000 in
  let po := of_Z 750 in
  let qd := of_Z 2 in
  let pa := of_Z 0 in
  deducao_dependentes qd = lit 37918 100
  /\ soma_deducoes po qd pa = lit 112918 100
  /\ simplificado_minimo_usado po qd pa = false
  /\ base_liquida_irrf rt po qd pa = lit 387082 100
  /\ aliquota_irrf rt po qd pa = lit 75 10
  /\ deducao_conforme_tabela rt po qd pa = lit 18216 100
  /\ valor_irrf rt po qd pa = lit 10711 100
  /\ V1.reducao_pl_1087_25 rt po qd pa = lit 10711 100
  /\ V1.valor_irrf_apos_pl_1087_25 rt po qd pa = of_Z 0.

(** The PL 1087/25 part of a response holds the message and nothing else. *)
Definition so_mensagem (r : jsval) : bool :=
  has r "mensagem"
  && negb (has r "reducao_pl_1087_25")
  && negb (has r "valor_irrf_apos_pl_1087_25").

(** The itemized figures of a response. *)
Definition itens_presentes (r : jsval) : bool :=
  has r "previdencia_oficial" && has r "quantidade_dependentes"
  && has r "pensao_alimenticia" && has r "valor_deducoes_dependentes".

Definition itens_ausentes (r : jsval) : bool :=
  negb (has r "previdencia_oficial") && negb (has r "quantidade_dependentes")
  && negb (has r "pensao_alimenticia")
  && negb (has r "valor_deducoes_dependentes").

Definition is_str (v : jsval) : bool :=
  match v with JStr _ => true | _ => false end.







(** Closed goals about concrete requests are settled by evaluation. *)
Ltac conj_split := repeat match goal with |- _ /\ _ => split end.
Ltac avaliar := intros; conj_split; vm_compute; reflexivity.

(** ** Vocabulary of the number theory *)

Definition bpow (e : Z) : R := powerRZ 2 e.

Definition valor (x : number) : R :=
  match x with
  | S754_finite s m e => (IZR (signed s m) * bpow e)%R
  | _ => 0%R
  end.

(** The numbers a JavaScript engine holds: [spec_float] also has finite
    triples that are no binary64 number (too many digits, or an exponent off
    the format); every number read from a JSON body and every result of an
    operation satisfies [binary64]. *)
Definition binary64 (x : number) : Prop := valid_binary prec emax x = true.

Definition ordem (c : comparison) (a b : R) : Prop :=
  match c with
  | Eq => a = b
  | Lt => (a < b)%R
  | Gt => (b < a)%R
  end.

Definition exato (mrs : shr_record) : bool := negb (shr_r mrs || shr_s mrs).

Definition desloca (n : Z) (a b : shr_record) : Prop :=
  shr_m b = shr_m a / 2 ^ n
  /\ (exato b = true <-> shr_m a mod 2 ^ n = 0 /\ exato a = true).

Definition arred_abs (s : bool) (v : R) (r : number) : Prop :=
  binary64 r
  /\ (r = S754_zero s \/ r = S754_infinity s \/ exists m e, r = S754_finite s m e)
  /\ (forall mB eB,
        SpecFloat.bounded prec emax mB eB = true ->
        (v <= IZR (Zpos mB) * bpow eB)%R ->
        r = S754_zero s
        \/ exists m e, r = S754_finite s m e
                       /\ (IZR (Zpos m) * bpow e <= IZR (Zpos mB) * bpow eB)%R)
  /\ (forall mB eB,
        SpecFloat.bounded prec emax mB eB = true ->
        (IZR (Zpos mB) * bpow eB <= v)%R ->
        r = S754_infinity s
        \/ exists m e, r = S754_finite s m e
                       /\ (IZR (Zpos mB) * bpow eB <= IZR (Zpos m) * bpow e)%R).

(** The sign bit of a number; [None] for NaN. *)
Definition sinal (x : number) : option bool :=
  match x with
  | S754_zero s | S754_infinity s | S754_finite s _ _ => Some s
  | S754_nan => None
  end.

(** [r] is a rounding of the real [v]: a binary64 number, not NaN, below every
    binary64 number above [v] and above every one below [v], with the sign of
    [v]. *)
Definition arredonda (v : R) (r : number) : Prop :=
  binary64 r
  /\ (exists s, sinal r = Some s /\ ((0 < v)%R -> s = false) /\ ((v < 0)%R -> s = true))
  /\ (forall B, binary64 B -> Number.isFinite B = true ->
        (v <= valor B)%R -> (r <=? B)%js = true)
  /\ (forall B, binary64 B -> Number.isFinite B = true ->
        (valor B <= v)%R -> (B <=? r)%js = true).

(** A number proper: binary64 and not NaN. *)
Definition num (x : number) : Prop := binary64 x /\ x <> NaN.

(** Not NaN, sign bit clear: +0, a positive number or +Infinity. *)
Definition pos0 (x : number) : Prop := binary64 x /\ sinal x = Some false.

(** A positive finite number. *)
Definition positivo (y : number) : Prop :=
  binary64 y /\ exists m e, y = S754_finite false m e.

(** Exact comparison of a finite number with the rational [a / b]. *)
Definition racional_cmp (x : number) (a b : Z) : comparison :=
  match x with
  | S754_finite s m e =>
      Z.compare (signed s m * 2 ^ Z.max e 0 * b) (a * 2 ^ Z.max (- e) 0)
  | _ => Z.compare 0 a
  end.

Definition constante (x : number) : bool :=
  valid_binary prec emax x && Number.isFinite x.

(** Structural equality of numbers. *)
Definition number_eqb (x y : number) : bool :=
  match x, y with
  | S754_zero a, S754_zero b => Bool.eqb a b
  | S754_infinity a, S754_infinity b => Bool.eqb a b
  | S754_nan, S754_nan => true
  | S754_finite a m e, S754_finite b m' e' =>
      Bool.eqb a b && Pos.eqb m m' && Z.eqb e e'
  | _, _ => false
  end.

(** [round2] leaves the amount of [k] cents unchanged. *)
Definition centavos_fixos (k : Z) : bool :=
  number_eqb (round2 (lit k 100)) (lit k 100).

(** [centavos_fixos] for the [n] amounts from [k] cents on. *)
Fixpoint todos_fixos (n : nat) (k : Z) : bool :=
  match n with
  | O => true
  | S n' => centavos_fixos k && todos_fixos n' (k + 1)
  end.

(** ** Property names of an object *)

(** No name occurs twice in the list. *)
Fixpoint distintas (l : list string) : bool :=
  match l with
  | [] => true
  | k :: l' => negb (existsb (String.eqb k) l') && distintas l'
  end.

(** Every object inside the value, at any depth, names each of its
    properties once. *)
Fixpoint chaves_distintas (v : jsval) : bool :=
  match v with
  | JArr items => forallb chaves_distintas items
  | JObj fields =>
      distintas (map fst fields)
      && forallb (fun kv => chaves_distintas (snd kv)) fields
  | _ => true
  end.

(** ** The web client ([App.jsx])

    The component keeps the text of its four inputs in [form], enables the
    submit button by [isValid] and posts [payload] as JSON.  The three
    revisions of the component share these definitions. *)

Record formulario : Type := Formulario {
  form_rendimento_tributavel : string;
  form_previdencia_oficial : string;
  form_quantidade_dependentes : string;
  form_pensao_alimenticia : string
}.

(** What a number is after [JSON.stringify] on the client and [express.json]
    on the server: a finite number is written in full and read back as it
    was, but for the sign of zero, which is not written; NaN and the
    infinities are written as [null]. *)
Definition json_number (x : number) : jsval :=
  match x with
  | S754_zero _ => JNum (S754_zero false)
  | S754_finite _ _ _ => JNum x
  | _ => JNull
  end.

(** [JSON.parse (JSON.stringify v)]: a property holding [undefined] is left
    out of its object, and an [undefined] item of an array becomes [null]. *)
Fixpoint json (v : jsval) : jsval :=
  match v with
  | JNum x => json_number x
  | JArr items =>
      JArr (map (fun x => match x with JUndefined => JNull | _ => json x end) items)
  | JObj fields =>
      JObj ((fix campos (o : obj) : obj :=
               match o with
               | [] => []
               | (k, JUndefined) :: o' => campos o'
               | (k, x) :: o' => (k, json x) :: campos o'
               end) fields)
  | _ => v
  end.

Section Cliente.

(** [Number(text)]: the conversion of a string to a number. *)
Variable StringToNumber : string -> number.

Definition pensao_do_formulario (form : formulario) : number :=
  if String.eqb (form_pensao_alimenticia form) "" then of_Z 0
  else StringToNumber (form_pensao_alimenticia form).

Definition isValid (form : formulario) : bool :=
  let rt := StringToNumber (form_rendimento_tributavel form) in
  let po := StringToNumber (form_previdencia_oficial form) in
  let qd := StringToNumber (form_quantidade_dependentes form) in
  let pa := pensao_do_formulario form in
  Number.isFinite rt && (rt >=? of_Z 0)%js
  && Number.isFinite po && (po >=? of_Z 0)%js
  && Number.isInteger qd && (qd >=? of_Z 0)%js
  && Number.isFinite pa && (pa >=? of_Z 0)%js.

Definition payload (form : formulario) : jsval :=
  JObj [("rendimento_tributavel",
         JNum (StringToNumber (form_rendimento_tributavel form)));
        ("previdencia_oficial",
         JNum (StringToNumber (form_previdencia_oficial form)));
        ("quantidade_dependentes",
         JNum (StringToNumber (form_quantidade_dependentes form)));
        ("pensao_alimenticia", JNum (pensao_do_formulario form))].

(** The request body the server handles when the client posts [form]. *)
Definition pedido (form : formulario) : jsval := json (payload form).

End Cliente.

(** The four numbers of a request are binary64 numbers, as every number a
    JSON body holds is. *)
Definition entradas_binary64 (rt po qd pa : number) : Prop :=
  binary64 rt /\ binary64 po /\ binary64 qd /\ binary64 pa.

(** The table formula in exact decimal arithmetic, for a base of [b] cents:
    the rate of the row times the base minus the table deduction, in
    thousandths of a cent (the rates are 7.5, 15, 22.5 and 27.5 per cent). *)
Definition imposto_decimal_milesimos (b : Z) : Z :=
  if b <=? 242880 then 0
  else if b <=? 282665 then 75 * b - 1000 * 18216
  else if b <=? 375105 then 150 * b - 1000 * 39416
  else if b <=? 466468 then 225 * b - 1000 * 67549
  else 275 * b - 1000 * 90873.

(** The rule of the middle range, 978.62 - 0.133145 x income, in exact
    decimal arithmetic for an income of [r] cents, in millionths of a
    cent. *)
Definition reducao_decimal_milionesimos (r : Z) : Z :=
  97862 * 1000000 - 133145 * r.

(** * Properties *)

(** ** Order on finite numbers *)

Lemma nltb_zero_finite x :
  Number.isFinite x = true -> (x <? of_Z 0)%js = negb (of_Z 0 <=? x)%js.
Proof.
  destruct x as [s | s | | s m e]; try discriminate; intros _.
  - reflexivity.
  - destruct s; reflexivity.
Qed.

Lemma isFiniteNumber_to_number v :
  isFiniteNumber v = true -> Number.isFinite (to_number v) = true.
Proof. destruct v; try discriminate; exact (fun H => H). Qed.

Lemma corpo_valido_entradas body :
  corpo_valido body = true ->
  entradas_validas (rt_de body) (po_de body) (qd_de body) (pa_de body) = true.
Proof.
  unfold corpo_valido, entradas_validas, rt_de, po_de, qd_de, pa_de.
  intros H. rewrite !andb_true_iff in H.
  destruct H as [[[[[[[[H1 H2] H3] H4] H5] H6] H7] H8] H9].
  rewrite (isFiniteNumber_to_number _ H1), (isFiniteNumber_to_number _ H2),
    (isFiniteNumber_to_number _ H3), (isFiniteNumber_to_number _ H4).
  rewrite H5, H6, H7, H8, H9. reflexivity.
Qed.

(** A valid body reaches the response object. *)
Lemma calcular_irrf_valido resposta body :
  corpo_valido body = true ->
  calcular_irrf resposta body =
  Resposta 200 (JObj (resposta (rt_de body) (po_de body) (qd_de body) (pa_de body))).
Proof.
  unfold corpo_valido, calcular_irrf, rt_de, po_de, qd_de, pa_de.
  intros H. rewrite !andb_true_iff in H.
  destruct H as [[[[[[[[H1 H2] H3] H4] H5] H6] H7] H8] H9].
  rewrite H1, H2, H3, H4. cbn [negb orb].
  rewrite !nltb_zero_finite by (apply isFiniteNumber_to_number; assumption).
  rewrite H5, H6, H7, H8, H9. reflexivity.
Qed.

(** ** Binary64 arithmetic *)

(** Powers of two *)

Lemma bpow_pos e : (0 < bpow e)%R.
Proof. apply powerRZ_lt. lra. Qed.

Lemma bpow_add a b : bpow (a + b) = (bpow a * bpow b)%R.
Proof. apply powerRZ_add. lra. Qed.

Lemma bpow_0 : bpow 0 = 1%R.
Proof. reflexivity. Qed.

Lemma bpow_IZR n : 0 <= n -> bpow n = IZR (2 ^ n).
Proof.
  intros H. unfold bpow. rewrite <- (Z2Nat.id n H) at 1.
  rewrite <- pow_powerRZ. rewrite pow_IZR. rewrite Z2Nat.id by exact H. reflexivity.
Qed.

Lemma bpow_ge_1 n : 0 <= n -> (1 <= bpow n)%R.
Proof.
  intros H. rewrite bpow_IZR by exact H. apply IZR_le.
  pose proof (Z.pow_pos_nonneg 2 n). lia.
Qed.

Lemma bpow_le a b : a <= b -> (bpow a <= bpow b)%R.
Proof.
  intros H. replace b with (a + (b - a)) by lia. rewrite bpow_add.
  pose proof (bpow_ge_1 (b - a)). pose proof (bpow_pos a).
  assert (1 <= bpow (b - a))%R by (apply H0; lia). nra.
Qed.

Lemma bpow_lt a b : a < b -> (bpow a < bpow b)%R.
Proof.
  intros H. replace b with (a + 1 + (b - a - 1)) by lia. rewrite !bpow_add.
  assert (1 <= bpow (b - a - 1))%R by (apply bpow_ge_1; lia).
  change (bpow 1) with (2 * 1)%R.
  pose proof (bpow_pos a). nra.
Qed.

Lemma bpow_lt_inv a b : (bpow a < bpow b)%R -> a < b.
Proof.
  intros H. destruct (Z_lt_le_dec a b) as [L | L]; [exact L |].
  apply bpow_le in L. lra.
Qed.

Lemma bpow_le_inv a b : (bpow a <= bpow b)%R -> a <= b.
Proof.
  intros H. destruct (Z_le_gt_dec a b) as [L | L]; [exact L |].
  assert (b < a) as L' by lia. apply bpow_lt in L'. lra.
Qed.

(** Number of binary digits *)

Lemma digits2_pos_bounds p :
  2 ^ (Zpos (digits2_pos p) - 1) <= Zpos p < 2 ^ Zpos (digits2_pos p).
Proof.
  induction p as [p IH | p IH |]; cbn [digits2_pos].
  - rewrite Pos2Z.inj_succ. change (Z.pos p~1) with (2 * Z.pos p + 1).
    replace (Z.succ (Zpos (digits2_pos p)) - 1)
      with (Z.succ (Zpos (digits2_pos p) - 1)) by lia.
    rewrite !Z.pow_succ_r by lia. lia.
  - rewrite Pos2Z.inj_succ. change (Z.pos p~0) with (2 * Z.pos p).
    replace (Z.succ (Zpos (digits2_pos p)) - 1)
      with (Z.succ (Zpos (digits2_pos p) - 1)) by lia.
    rewrite !Z.pow_succ_r by lia. lia.
  - cbn. lia.
Qed.

Lemma Zdigits2_bounds m :
  0 < m -> 2 ^ (Zdigits2 m - 1) <= m < 2 ^ Zdigits2 m.
Proof.
  destruct m as [| p | p]; try lia. intros _. apply digits2_pos_bounds.
Qed.

Lemma Zdigits2_pos m : 0 < m -> 0 < Zdigits2 m.
Proof. destruct m; cbn; lia. Qed.

Lemma Zdigits2_unique m k :
  0 < m -> 2 ^ (k - 1) <= m < 2 ^ k -> Zdigits2 m = k.
Proof.
  intros Hm [L U]. pose proof (Zdigits2_bounds m Hm) as [L' U'].
  pose proof (Zdigits2_pos m Hm) as P.
  assert (0 < k).
  { destruct (Z_lt_le_dec 0 k) as [| K]; [assumption | exfalso].
    destruct (Z.eq_dec k 0) as [-> | N]; [cbn in U; lia |].
    rewrite (Z.pow_neg_r 2 k) in U by lia. lia. }
  assert (Zdigits2 m - 1 < k).
  { apply (Z.pow_lt_mono_r_iff 2); lia. }
  assert (k - 1 < Zdigits2 m).
  { apply (Z.pow_lt_mono_r_iff 2); lia. }
  lia.
Qed.

(** Values and the order *)

Lemma valor_finite s m e :
  valor (S754_finite s m e) = (IZR (signed s m) * bpow e)%R.
Proof. reflexivity. Qed.

Lemma signed_pos m : signed false m = Zpos m.
Proof. reflexivity. Qed.

Lemma signed_neg m : signed true m = Zneg m.
Proof. reflexivity. Qed.

Lemma alinhado (a : Z) (e e0 : Z) :
  e0 <= e -> (IZR (a * 2 ^ (e - e0)) * bpow e0 = IZR a * bpow e)%R.
Proof.
  intros H. rewrite mult_IZR, <- bpow_IZR by lia.
  replace e with ((e - e0) + e0) at 2 by lia. rewrite bpow_add. ring.
Qed.

Lemma valor_sinal (s : bool) m e :
  if s then (valor (S754_finite s m e) < 0)%R else (0 < valor (S754_finite s m e))%R.
Proof.
  rewrite valor_finite. pose proof (bpow_pos e).
  destruct s; cbn [signed cond_Zopp].
  - assert (IZR (- Zpos m) <= -1)%R by (apply IZR_le; lia). nra.
  - assert (1 <= IZR (Zpos m))%R by (apply IZR_le; lia). nra.
Qed.

Lemma ncompare_valor x y :
  Number.isFinite x = true -> Number.isFinite y = true ->
  exists c, ncompare x y = Some c /\ ordem c (valor x) (valor y).
Proof.
  destruct x as [sx | sx | | sx mx ex]; try discriminate;
    destruct y as [sy | sy | | sy my ey]; try discriminate; intros _ _.
  - exists Eq. split; reflexivity.
  - pose proof (valor_sinal sy my ey) as H. cbn [ncompare].
    change (valor (S754_zero sx)) with 0%R.
    destruct sy; eexists; (split; [reflexivity | exact H]).
  - pose proof (valor_sinal sx mx ex) as H. cbn [ncompare].
    change (valor (S754_zero sy)) with 0%R.
    destruct sx; eexists; (split; [reflexivity | exact H]).
  - cbn [ncompare]. rewrite !valor_finite.
    set (e0 := Z.min ex ey).
    rewrite <- (alinhado (signed sx mx) ex e0), <- (alinhado (signed sy my) ey e0)
      by (unfold e0; lia).
    pose proof (bpow_pos e0) as P.
    set (a := signed sx mx * 2 ^ (ex - e0)). set (b := signed sy my * 2 ^ (ey - e0)).
    eexists; split; [reflexivity |].
    destruct (Z.compare_spec a b) as [E | L | G]; cbn [ordem].
    + rewrite E. reflexivity.
    + apply IZR_lt in L. nra.
    + apply IZR_lt in G. nra.
Qed.

Lemma nleb_valor x y :
  Number.isFinite x = true -> Number.isFinite y = true ->
  (x <=? y)%js = true <-> (valor x <= valor y)%R.
Proof.
  intros Hx Hy. unfold nleb.
  destruct (ncompare_valor x y Hx Hy) as (c & -> & H).
  destruct c; cbn [ordem] in H; split; intros; try lra; try discriminate; reflexivity.
Qed.

Lemma nltb_valor x y :
  Number.isFinite x = true -> Number.isFinite y = true ->
  (x <? y)%js = true <-> (valor x < valor y)%R.
Proof.
  intros Hx Hy. unfold nltb.
  destruct (ncompare_valor x y Hx Hy) as (c & -> & H).
  destruct c; cbn [ordem] in H; split; intros; try lra; try discriminate; reflexivity.
Qed.

Lemma shr_1_desloca a : 0 <= shr_m a -> desloca 1 a (shr_1 a).
Proof.
  destruct a as [m r s]. cbn [shr_m]. intros H. unfold desloca, exato.
  change (2 ^ 1) with 2.
  destruct m as [| p | p]; [| | lia].
  - cbn. split; [reflexivity |]. rewrite !negb_true_iff. intuition congruence.
  - destruct p as [p | p |]; cbn [shr_1 shr_m shr_r shr_s].
    + change (Z.pos p~1) with (2 * Z.pos p + 1). split.
      * apply (Z.div_unique _ 2 _ 1); lia.
      * replace ((2 * Z.pos p + 1) mod 2) with 1
          by (apply Z.mod_unique with (Z.pos p); lia).
        cbn [orb negb]. intuition (discriminate || lia).
    + change (Z.pos p~0) with (2 * Z.pos p). split.
      * apply (Z.div_unique _ 2 _ 0); lia.
      * replace ((2 * Z.pos p) mod 2) with 0
          by (apply Z.mod_unique with (Z.pos p); lia).
        cbn [orb]. intuition.
    + cbn. split; [reflexivity |]. intuition discriminate.
Qed.

Lemma desloca_nonneg n a b : 0 <= n -> 0 <= shr_m a -> desloca n a b -> 0 <= shr_m b.
Proof.
  intros Hn Ha [E _]. rewrite E. apply Z.div_pos; [exact Ha |].
  apply Z.pow_pos_nonneg; lia.
Qed.

Lemma desloca_trans n k a b c :
  0 <= n -> 0 <= k -> 0 <= shr_m a ->
  desloca n a b -> desloca k b c -> desloca (n + k) a c.
Proof.
  intros Hn Hk Ha [E1 X1] [E2 X2].
  assert (Pn : 0 < 2 ^ n) by (apply Z.pow_pos_nonneg; lia).
  assert (Pk : 0 < 2 ^ k) by (apply Z.pow_pos_nonneg; lia).
  split.
  - rewrite E2, E1, Z.pow_add_r by lia. apply Z.div_div; lia.
  - rewrite X2, X1, E1, Z.pow_add_r by lia.
    rewrite (Z.rem_mul_r (shr_m a) (2 ^ n) (2 ^ k)) by lia.
    pose proof (Z.mod_pos_bound (shr_m a) (2 ^ n) Pn).
    pose proof (Z.mod_pos_bound (shr_m a / 2 ^ n) (2 ^ k) Pk).
    set (x := shr_m a mod 2 ^ n) in *. set (y := (shr_m a / 2 ^ n) mod 2 ^ k) in *.
    split.
    + intros (Hy & Hx & He). split; [nia | exact He].
    + intros (Hxy & He). repeat split; [nia | nia | exact He].
Qed.

Lemma iter_pos_desloca p : forall a,
  0 <= shr_m a -> desloca (Zpos p) a (SpecFloat.iter_pos shr_1 p a).
Proof.
  induction p as [p IH | p IH |]; intros a Ha; cbn [SpecFloat.iter_pos].
  - pose proof (shr_1_desloca a Ha) as D1.
    pose proof (desloca_nonneg 1 _ _ Z.le_0_1 Ha D1) as H1.
    pose proof (IH _ H1) as D2.
    pose proof (desloca_nonneg _ _ _ (Pos2Z.is_nonneg p) H1 D2) as H2.
    pose proof (IH _ H2) as D3.
    replace (Z.pos p~1) with (1 + Z.pos p + Z.pos p) by lia.
    eapply desloca_trans; [lia | lia | exact Ha | | exact D3].
    eapply desloca_trans; [lia | lia | exact Ha | exact D1 | exact D2].
  - pose proof (IH _ Ha) as D1.
    pose proof (desloca_nonneg _ _ _ (Pos2Z.is_nonneg p) Ha D1) as H1.
    pose proof (IH _ H1) as D2.
    replace (Z.pos p~0) with (Z.pos p + Z.pos p) by lia.
    eapply desloca_trans; [lia | lia | exact Ha | exact D1 | exact D2].
  - apply shr_1_desloca. exact Ha.
Qed.

Lemma exato_of_loc m l : exato (shr_record_of_loc m l) = true <-> l = loc_Exact.
Proof. destruct l as [| []]; cbn; intuition discriminate. Qed.

Lemma shr_m_of_loc m l : shr_m (shr_record_of_loc m l) = m.
Proof. destruct l as [| []]; reflexivity. Qed.

Lemma loc_exato mrs : loc_of_shr_record mrs = loc_Exact <-> exato mrs = true.
Proof. destruct mrs as [m [] []]; cbn; intuition discriminate. Qed.

(** [shr_fexp] divides by the power of two that brings the exponent to
    [fexp], and its location is exact only for an exact division of an exact
    input. *)
Lemma shr_fexp_spec m e l :
  0 <= m ->
  let n := Z.max 0 (fexp prec emax (Zdigits2 m + e) - e) in
  exists mrs,
    shr_fexp prec emax m e l = (mrs, e + n)
    /\ shr_m mrs = m / 2 ^ n
    /\ (loc_of_shr_record mrs = loc_Exact <-> m mod 2 ^ n = 0 /\ l = loc_Exact).
Proof.
  intros Hm n. unfold shr_fexp, shr.
  destruct (fexp prec emax (Zdigits2 m + e) - e) as [| p | p] eqn:E.
  - exists (shr_record_of_loc m l). subst n. cbn [Z.max Z.compare].
    rewrite Z.add_0_r, shr_m_of_loc, loc_exato, exato_of_loc.
    change (2 ^ 0) with 1. rewrite Z.div_1_r, Z.mod_1_r. intuition.
  - exists (SpecFloat.iter_pos shr_1 p (shr_record_of_loc m l)).
    assert (n = Zpos p) as -> by (subst n; lia).
    destruct (iter_pos_desloca p (shr_record_of_loc m l)) as [D1 D2].
    { rewrite shr_m_of_loc. exact Hm. }
    rewrite shr_m_of_loc in D1, D2. rewrite exato_of_loc in D2.
    rewrite loc_exato. auto.
  - exists (shr_record_of_loc m l). assert (n = 0) as -> by (subst n; lia).
    rewrite Z.add_0_r, shr_m_of_loc, loc_exato, exato_of_loc.
    change (2 ^ 0) with 1. rewrite Z.div_1_r, Z.mod_1_r. intuition.
Qed.

Lemma round_nearest_even_casos m l :
  round_nearest_even m l = m
  \/ (round_nearest_even m l = m + 1 /\ l <> loc_Exact).
Proof.
  destruct l as [| []]; cbn [round_nearest_even]; auto.
  - destruct (Z.even m); [left; reflexivity | right; split; [reflexivity | discriminate]].
  - right. split; [reflexivity | discriminate].
Qed.

Lemma fexp_eq k : fexp prec emax k = Z.max (k - 53) (-1074).
Proof. reflexivity. Qed.

Lemma bounded_spec m e :
  SpecFloat.bounded prec emax m e = true <->
  fexp prec emax (Zpos (digits2_pos m) + e) = e /\ e <= 971.
Proof.
  unfold SpecFloat.bounded, canonical_mantissa. rewrite andb_true_iff, Z.eqb_eq, Z.leb_le.
  reflexivity.
Qed.

Lemma mag_lo m : 0 < m -> (bpow (Zdigits2 m - 1) <= IZR m)%R.
Proof.
  intros H. pose proof (Zdigits2_bounds m H). pose proof (Zdigits2_pos m H).
  rewrite bpow_IZR by lia. apply IZR_le. lia.
Qed.

Lemma mag_hi m : 0 <= m -> (IZR m < bpow (Zdigits2 m))%R.
Proof.
  intros H. destruct (Z.eq_dec m 0) as [-> | N].
  - cbn. lra.
  - pose proof (Zdigits2_bounds m ltac:(lia)). pose proof (Zdigits2_pos m ltac:(lia)).
    rewrite bpow_IZR by lia. apply IZR_lt. lia.
Qed.

Lemma mag_mono m e m' e' :
  0 < m -> 0 <= m' -> (IZR m * bpow e <= IZR m' * bpow e')%R ->
  Zdigits2 m + e <= Zdigits2 m' + e'.
Proof.
  intros Hm Hm' H.
  pose proof (mag_lo m Hm) as L. pose proof (mag_hi m' Hm') as U.
  pose proof (bpow_pos e) as Pe. pose proof (bpow_pos e') as Pe'.
  assert (bpow (Zdigits2 m + e - 1) < bpow (Zdigits2 m' + e'))%R as X.
  { replace (Zdigits2 m + e - 1) with ((Zdigits2 m - 1) + e) by lia.
    rewrite !bpow_add. nra. }
  apply bpow_lt_inv in X. lia.
Qed.

Lemma escala a n e : 0 <= n -> (IZR (a * 2 ^ n) * bpow e = IZR a * bpow (e + n))%R.
Proof.
  intros H. rewrite mult_IZR, <- bpow_IZR, bpow_add by lia. ring.
Qed.

(** A multiple of [2^e1] strictly above [m1 * 2^e1] is at least
    [(m1 + 1) * 2^e1]. *)
Lemma grade_acima m1 e1 mB eB :
  e1 <= eB -> (IZR m1 * bpow e1 < IZR mB * bpow eB)%R ->
  (IZR (m1 + 1) * bpow e1 <= IZR mB * bpow eB)%R.
Proof.
  intros He H. replace eB with (e1 + (eB - e1)) in * by lia.
  rewrite <- escala in * by lia.
  pose proof (bpow_pos e1) as P.
  assert (IZR m1 < IZR (mB * 2 ^ (eB - e1)))%R as L by nra.
  apply lt_IZR in L. assert (m1 + 1 <= mB * 2 ^ (eB - e1)) as L' by lia.
  apply IZR_le in L'. nra.
Qed.

Lemma grade_abaixo m1 e1 mB :
  (IZR mB * bpow e1 < IZR (m1 + 1) * bpow e1)%R ->
  (IZR mB * bpow e1 <= IZR m1 * bpow e1)%R.
Proof.
  intros H. pose proof (bpow_pos e1) as P.
  assert (IZR mB < IZR (m1 + 1))%R as L by nra.
  apply lt_IZR in L. assert (mB <= m1) as L' by lia.
  apply IZR_le in L'. nra.
Qed.

(** First step of [binary_round_aux]: the mantissa is cut to the exponent
    [fexp]. *)
Lemma passo1 mx ex :
  0 <= mx -> ex <= fexp prec emax (Zdigits2 mx + ex) ->
  let e1 := fexp prec emax (Zdigits2 mx + ex) in
  let n := e1 - ex in
  let m1 := mx / 2 ^ n in
  0 <= m1
  /\ m1 * 2 ^ n <= mx < (m1 + 1) * 2 ^ n
  /\ (0 < m1 -> fexp prec emax (Zdigits2 m1 + e1) = e1)
  /\ (m1 = 0 -> e1 = -1074).
Proof.
  intros Hm Hpre e1 n m1.
  assert (Hn : 0 <= n) by (unfold n, e1; lia).
  assert (P : 0 < 2 ^ n) by (apply Z.pow_pos_nonneg; lia).
  assert (F : m1 * 2 ^ n <= mx < (m1 + 1) * 2 ^ n).
  { unfold m1. pose proof (Z.mul_div_le mx (2 ^ n) P).
    pose proof (Z.mul_succ_div_gt mx (2 ^ n) P). lia. }
  assert (H1 : 0 <= m1) by (apply Z.div_pos; lia).
  split; [exact H1 |]. split; [exact F |].
  destruct (Z.eq_dec mx 0) as [E0 | N0].
  - assert (m1 = 0) as Z1 by (unfold m1; rewrite E0; apply Z.div_0_l; lia).
    split; [lia |]. intros _. unfold e1 in *. rewrite E0 in *. cbn [Zdigits2] in *.
    rewrite fexp_eq in *. lia.
  - pose proof (Zdigits2_bounds mx ltac:(lia)) as [L U].
    pose proof (Zdigits2_pos mx ltac:(lia)) as Dp.
    set (d := Zdigits2 mx) in *.
    split.
    + intros Pm1.
      assert (n < d) as Hnd.
      { destruct (Z_lt_le_dec n d) as [| G]; [assumption | exfalso].
        assert (2 ^ d <= 2 ^ n) by (apply Z.pow_le_mono_r; lia). nia. }
      assert (Zdigits2 m1 = d - n) as D1.
      { apply Zdigits2_unique; [exact Pm1 |].
        assert (2 ^ d = 2 ^ (d - n) * 2 ^ n) as Ed
            by (rewrite <- Z.pow_add_r by lia; f_equal; lia).
        assert (2 ^ (d - 1) = 2 ^ (d - n - 1) * 2 ^ n) as Ed'
            by (rewrite <- Z.pow_add_r by lia; f_equal; lia).
        split; nia. }
      rewrite D1. replace (d - n + e1) with (d + ex) by (unfold n; lia). reflexivity.
    + intros Z1. rewrite Z1 in F.
      assert (d <= n) as Hnd.
      { destruct (Z_le_gt_dec d n) as [| G]; [assumption | exfalso].
        assert (2 ^ n <= 2 ^ (d - 1)) by (apply Z.pow_le_mono_r; lia). lia. }
      unfold n, e1 in *. rewrite fexp_eq in *. lia.
Qed.

(** Third step: after a carry the mantissa is cut once more; the result is
    canonical and has the same value. *)
Lemma passo3 m1 e1 m2 :
  0 <= m1 ->
  (0 < m1 -> fexp prec emax (Zdigits2 m1 + e1) = e1) ->
  (m1 = 0 -> e1 = -1074) ->
  m2 = m1 \/ m2 = m1 + 1 -> 0 < m2 ->
  let n3 := Z.max 0 (fexp prec emax (Zdigits2 m2 + e1) - e1) in
  let m3 := m2 / 2 ^ n3 in
  0 <= n3 /\ 0 < m3 /\ m3 * 2 ^ n3 = m2
  /\ fexp prec emax (Zdigits2 m3 + (e1 + n3)) = e1 + n3.
Proof.
  intros H1 C Z1 Hm2 P2 n3 m3.
  assert (Nop : fexp prec emax (Zdigits2 m2 + e1) = e1 ->
                0 <= n3 /\ 0 < m3 /\ m3 * 2 ^ n3 = m2
                /\ fexp prec emax (Zdigits2 m3 + (e1 + n3)) = e1 + n3).
  { intros E. assert (n3 = 0) as N by (unfold n3; lia).
    unfold m3. rewrite N. change (2 ^ 0) with 1.
    rewrite Z.div_1_r, Z.add_0_r. repeat split; lia. }
  destruct Hm2 as [-> | ->]; [apply Nop, C, P2 |].
  destruct (Z.eq_dec m1 0) as [E0 | N0].
  { apply Nop. rewrite E0, (Z1 E0). reflexivity. }
  pose proof (Zdigits2_bounds m1 ltac:(lia)) as [L U].
  pose proof (Zdigits2_pos m1 ltac:(lia)) as Dp.
  specialize (C ltac:(lia)).
  set (d1 := Zdigits2 m1) in *.
  destruct (Z_lt_le_dec (m1 + 1) (2 ^ d1)) as [Lt | Ge].
  { apply Nop. rewrite (Zdigits2_unique (m1 + 1) d1); [exact C | lia | lia]. }
  assert (m1 + 1 = 2 ^ d1) as Em by lia.
  assert (Zdigits2 (m1 + 1) = d1 + 1) as D2.
  { apply Zdigits2_unique; [lia |]. rewrite Em.
    replace (d1 + 1 - 1) with d1 by lia. rewrite Z.pow_add_r by lia. lia. }
  rewrite fexp_eq in C.
  destruct (Z_le_gt_dec (-1074) (d1 + e1 - 53)) as [Nor | Sub].
  - assert (n3 = 1) as N.
    { unfold n3. rewrite D2, fexp_eq. lia. }
    assert (m3 = 2 ^ (d1 - 1)) as E3.
    { unfold m3. rewrite N, Em. change (2 ^ 1) with 2.
      replace d1 with (1 + (d1 - 1)) at 1 by lia.
      rewrite Z.pow_add_r by lia. change (2 ^ 1) with 2.
      rewrite Z.mul_comm, Z.div_mul by lia. reflexivity. }
    assert (P3 : 0 < 2 ^ (d1 - 1)) by (apply Z.pow_pos_nonneg; lia).
    rewrite N. split; [lia |]. split; [lia |]. split.
    + rewrite E3, Em. change (2 ^ 1) with 2.
      replace d1 with ((d1 - 1) + 1) at 2 by lia.
      rewrite Z.pow_add_r by lia. reflexivity.
    + rewrite (Zdigits2_unique m3 d1); [rewrite fexp_eq; lia | lia |].
      rewrite E3. split; [lia |]. apply Z.pow_lt_mono_r; lia.
  - apply Nop. rewrite D2, fexp_eq. lia.
Qed.

(** ** The comparison by value is the comparison of the Standard Library *)

Lemma expoente_menor m1 e1 m2 e2 :
  SpecFloat.bounded prec emax m1 e1 = true ->
  SpecFloat.bounded prec emax m2 e2 = true ->
  e1 < e2 -> Zpos m1 < Zpos m2 * 2 ^ (e2 - e1).
Proof.
  intros B1 B2 L. apply bounded_spec in B1, B2.
  destruct B1 as [C1 _], B2 as [C2 _]. rewrite fexp_eq in C1, C2.
  change (Zpos (digits2_pos m1)) with (Zdigits2 (Zpos m1)) in C1.
  change (Zpos (digits2_pos m2)) with (Zdigits2 (Zpos m2)) in C2.
  pose proof (Zdigits2_bounds (Zpos m1) ltac:(lia)) as [_ U1].
  pose proof (Zdigits2_bounds (Zpos m2) ltac:(lia)) as [L2 _].
  pose proof (Zdigits2_pos (Zpos m1) ltac:(lia)).
  pose proof (Zdigits2_pos (Zpos m2) ltac:(lia)).
  set (d1 := Zdigits2 (Zpos m1)) in *. set (d2 := Zdigits2 (Zpos m2)) in *.
  assert (d1 <= d2 - 1 + (e2 - e1)) as D by lia.
  assert (2 ^ d1 <= 2 ^ (d2 - 1 + (e2 - e1))) as P
      by (apply Z.pow_le_mono_r; lia).
  rewrite Z.pow_add_r in P by lia.
  assert (0 < 2 ^ (e2 - e1)) by (apply Z.pow_pos_nonneg; lia).
  nia.
Qed.

Lemma ncompare_SFcompare x y :
  binary64 x -> binary64 y -> ncompare x y = SFcompare x y.
Proof.
  intros Bx By.
  destruct x as [sx | sx | | sx mx ex], y as [sy | sy | | sy my ey];
    try reflexivity.
  unfold binary64 in Bx, By. cbn [valid_binary] in Bx, By.
  cbn [ncompare SFcompare]. f_equal.
  assert (P1 : 0 < 2 ^ (ex - Z.min ex ey)) by (apply Z.pow_pos_nonneg; lia).
  assert (P2 : 0 < 2 ^ (ey - Z.min ex ey)) by (apply Z.pow_pos_nonneg; lia).
  change (Pos.compare_cont Eq mx my) with (Z.compare (Zpos mx) (Zpos my)).
  destruct sx, sy; cbn [signed cond_Zopp].
  - destruct (Z.compare_spec ex ey) as [E | L | G].
    + subst ey. rewrite Z.min_id, Z.sub_diag. change (2 ^ 0) with 1.
      rewrite !Z.mul_1_r.
      destruct (Z.compare_spec (Zpos mx) (Zpos my)); cbn [CompOpp];
        [apply Z.compare_eq_iff | apply Z.compare_gt_iff
         | apply Z.compare_lt_iff]; lia.
    + replace (Z.min ex ey) with ex by lia. rewrite Z.sub_diag.
      change (2 ^ 0) with 1. rewrite Z.mul_1_r.
      pose proof (expoente_menor mx ex my ey Bx By L).
      apply Z.compare_gt_iff. lia.
    + replace (Z.min ex ey) with ey by lia. rewrite Z.sub_diag.
      change (2 ^ 0) with 1. rewrite Z.mul_1_r.
      pose proof (expoente_menor my ey mx ex By Bx ltac:(lia)).
      apply Z.compare_lt_iff. lia.
  - apply Z.compare_lt_iff. lia.
  - apply Z.compare_gt_iff. lia.
  - destruct (Z.compare_spec ex ey) as [E | L | G].
    + subst ey. rewrite Z.min_id, Z.sub_diag. change (2 ^ 0) with 1.
      rewrite !Z.mul_1_r. reflexivity.
    + replace (Z.min ex ey) with ex by lia. rewrite Z.sub_diag.
      change (2 ^ 0) with 1. rewrite Z.mul_1_r.
      pose proof (expoente_menor mx ex my ey Bx By L).
      apply Z.compare_lt_iff. lia.
    + replace (Z.min ex ey) with ey by lia. rewrite Z.sub_diag.
      change (2 ^ 0) with 1. rewrite Z.mul_1_r.
      pose proof (expoente_menor my ey mx ex By Bx ltac:(lia)).
      apply Z.compare_gt_iff. lia.
Qed.

Lemma menor_positivo mB eB :
  SpecFloat.bounded prec emax mB eB = true ->
  (bpow (-1074) <= IZR (Zpos mB) * bpow eB)%R.
Proof.
  intros B. apply bounded_spec in B. destruct B as [C _]. rewrite fexp_eq in C.
  assert (bpow (-1074) <= bpow eB)%R by (apply bpow_le; lia).
  assert (1 <= IZR (Zpos mB))%R by (apply IZR_le; lia).
  pose proof (bpow_pos eB). nra.
Qed.

Lemma arred_final s m1 e1 v m2 :
  0 <= m1 ->
  (0 < m1 -> fexp prec emax (Zdigits2 m1 + e1) = e1) ->
  (m1 = 0 -> e1 = -1074) ->
  (IZR m1 * bpow e1 <= v < IZR (m1 + 1) * bpow e1)%R ->
  m2 = m1 \/ (m2 = m1 + 1 /\ (IZR m1 * bpow e1 < v)%R) ->
  arred_abs s v
    (let '(mrs'', e'') := shr_fexp prec emax m2 e1 loc_Exact in
     match shr_m mrs'' with
     | 0 => S754_zero s
     | Z.pos m => if e'' <=? emax - prec then S754_finite s m e'' else S754_infinity s
     | Z.neg _ => S754_nan
     end).
Proof.
  intros H1 C1 Z1 [Vl Vu] Hm2.
  assert (P2 : 0 <= m2) by (destruct Hm2 as [-> | [-> _]]; lia).
  destruct (shr_fexp_spec m2 e1 loc_Exact P2) as (mrs3 & -> & Em3 & _).
  cbv zeta in Em3 |- *. rewrite Em3.
  pose proof (bpow_pos e1) as Pe1.
  destruct (Z.eq_dec m2 0) as [E0 | N0].
  - (* the result is zero *)
    rewrite E0, Z.div_0_l by (apply Z.pow_nonzero; lia).
    assert (m1 = 0) as M1 by (destruct Hm2 as [-> | [-> _]]; lia).
    specialize (Z1 M1). rewrite M1, Z1 in *.
    split; [reflexivity |]. split; [left; reflexivity |]. split.
    + intros; left; reflexivity.
    + intros mB eB B L. exfalso. pose proof (menor_positivo mB eB B).
      change (IZR (0 + 1)) with 1%R in Vu. lra.
  - (* a positive mantissa *)
    assert (Q2 : 0 < m2) by lia.
    destruct (passo3 m1 e1 m2 H1 C1 Z1 ltac:(tauto) Q2) as (Hn3 & P3 & E3 & C3).
    set (n3 := Z.max 0 (fexp prec emax (Zdigits2 m2 + e1) - e1)) in *.
    set (m3 := m2 / 2 ^ n3) in *. set (e3 := e1 + n3) in *.
    assert (Ev : (IZR m3 * bpow e3 = IZR m2 * bpow e1)%R).
    { unfold e3. rewrite <- escala by exact Hn3. rewrite E3. reflexivity. }
    assert (Rlo : (IZR m1 * bpow e1 <= IZR m2 * bpow e1)%R).
    { assert (m1 <= m2) as L by (destruct Hm2 as [-> | [-> _]]; lia).
      apply IZR_le in L. nra. }
    (* upper bracket *)
    assert (U : forall mB eB, SpecFloat.bounded prec emax mB eB = true ->
                (v <= IZR (Zpos mB) * bpow eB)%R ->
                (IZR m3 * bpow e3 <= IZR (Zpos mB) * bpow eB)%R /\ e3 <= 971).
    { intros mB eB B L. pose proof B as B'. apply bounded_spec in B'.
      destruct B' as [CB EB].
      change (Zpos (digits2_pos mB)) with (Zdigits2 (Zpos mB)) in CB.
      assert (Le : (IZR m2 * bpow e1 <= IZR (Zpos mB) * bpow eB)%R).
      { destruct Hm2 as [-> | [-> I1]]; [lra |].
        apply grade_acima; [| lra].
        destruct (Z.eq_dec m1 0) as [M0 | M0].
        - rewrite (Z1 M0). rewrite fexp_eq in CB. lia.
        - rewrite <- (C1 ltac:(lia)), <- CB. rewrite !fexp_eq.
          assert (Zdigits2 m1 + e1 <= Zdigits2 (Zpos mB) + eB)
            by (apply mag_mono; [lia | lia | lra]).
          lia. }
      split; [lra |].
      assert (Zdigits2 m3 + e3 <= Zdigits2 (Zpos mB) + eB)
        by (apply mag_mono; [lia | lia | lra]).
      rewrite <- C3 in *. rewrite fexp_eq in *. lia. }
    (* lower bracket *)
    assert (Lw : forall mB eB, SpecFloat.bounded prec emax mB eB = true ->
                 (IZR (Zpos mB) * bpow eB <= v)%R ->
                 (IZR (Zpos mB) * bpow eB <= IZR m3 * bpow e3)%R).
    { intros mB eB B L. rewrite Ev. pose proof B as B'. apply bounded_spec in B'.
      destruct B' as [CB EB].
      change (Zpos (digits2_pos mB)) with (Zdigits2 (Zpos mB)) in CB.
      destruct (Z.eq_dec m1 0) as [M0 | M0].
      { exfalso. pose proof (menor_positivo mB eB B).
        rewrite M0, (Z1 M0) in Vu. change (IZR (0 + 1)) with 1%R in Vu. lra. }
      specialize (C1 ltac:(lia)).
      assert (Zdigits2 (Zpos mB) + eB <= Zdigits2 m1 + e1) as Mg.
      { pose proof (mag_lo (Zpos mB) ltac:(lia)) as Lb.
        pose proof (mag_hi m1 H1) as Ub.
        pose proof (Zdigits2_bounds m1 ltac:(lia)) as [_ Ub'].
        assert (IZR (m1 + 1) <= bpow (Zdigits2 m1))%R as Ub''.
        { rewrite bpow_IZR by (pose proof (Zdigits2_pos m1); lia).
          apply IZR_le. lia. }
        pose proof (bpow_pos eB) as PeB.
        assert (bpow (Zdigits2 (Zpos mB) + eB - 1) < bpow (Zdigits2 m1 + e1))%R as X.
        { replace (Zdigits2 (Zpos mB) + eB - 1)
            with ((Zdigits2 (Zpos mB) - 1) + eB) by lia.
          rewrite !bpow_add. nra. }
        apply bpow_lt_inv in X. lia. }
      destruct (Z.eq_dec (Zdigits2 (Zpos mB) + eB) (Zdigits2 m1 + e1)) as [Eq | Ne].
      - assert (eB = e1) as -> by (rewrite <- CB, <- C1, Eq; reflexivity).
        pose proof (grade_abaixo m1 e1 (Zpos mB) ltac:(lra)). lra.
      - pose proof (mag_hi (Zpos mB) ltac:(lia)) as Ub.
        pose proof (mag_lo m1 ltac:(lia)) as Lb.
        pose proof (bpow_pos eB) as PeB.
        assert (bpow (Zdigits2 (Zpos mB) + eB) <= bpow (Zdigits2 m1 - 1 + e1))%R as X
            by (apply bpow_le; lia).
        rewrite !bpow_add in X. nra. }
    clearbody m3 e3. destruct m3 as [| p | p]; try lia.
    cbn [shr_m]. change (emax - prec) with 971.
    destruct (Z.leb_spec e3 971) as [Fin | Inf].
    + split; [apply bounded_spec; split; [exact C3 | exact Fin] |].
      split; [right; right; eauto |]. split.
      * intros mB eB B L. right. exists p, e3. split; [reflexivity |].
        apply (U mB eB B L).
      * intros mB eB B L. right. exists p, e3. split; [reflexivity |].
        apply (Lw mB eB B L).
    + split; [reflexivity |]. split; [right; left; reflexivity |]. split.
      * intros mB eB B L. destruct (U mB eB B L) as [_ X]. lia.
      * intros; left; reflexivity.
Qed.

Theorem binary_round_aux_spec s mx ex lx v :
  0 <= mx -> ex <= fexp prec emax (Zdigits2 mx + ex) ->
  (IZR mx * bpow ex <= v < IZR (mx + 1) * bpow ex)%R ->
  (lx = loc_Exact -> v = (IZR mx * bpow ex)%R) ->
  (lx <> loc_Exact -> (IZR mx * bpow ex < v)%R) ->
  arred_abs s v (binary_round_aux prec emax s mx ex lx).
Proof.
  intros Hm Hpre [Hlo Hhi] Hex Hin.
  destruct (passo1 mx ex Hm Hpre) as (H1 & F & C1 & Z1).
  destruct (shr_fexp_spec mx ex lx Hm) as (mrs & Es & Em1 & Ex1).
  cbv zeta in Es, Em1, Ex1.
  set (e1 := fexp prec emax (Zdigits2 mx + ex)) in *.
  replace (Z.max 0 (e1 - ex)) with (e1 - ex) in * by lia.
  set (n := e1 - ex) in *.
  assert (Hn : 0 <= n) by (unfold n; lia).
  replace (ex + n) with e1 in Es by (unfold n; lia).
  set (m1 := mx / 2 ^ n) in *.
  unfold binary_round_aux. rewrite Es.
  (* the value against the cut mantissa *)
  pose proof (bpow_pos ex) as Pex. pose proof (bpow_pos e1) as Pe1.
  assert (Sc : forall a, (IZR (a * 2 ^ n) * bpow ex = IZR a * bpow e1)%R).
  { intros a. rewrite escala by exact Hn. f_equal. f_equal. unfold n. lia. }
  assert (V1 : (IZR m1 * bpow e1 <= v < IZR (m1 + 1) * bpow e1)%R).
  { rewrite <- !Sc. destruct F as [Fl Fu].
    apply IZR_le in Fl. assert (mx + 1 <= (m1 + 1) * 2 ^ n) as Fu' by lia.
    apply IZR_le in Fu'. split; nra. }
  assert (X1 : loc_of_shr_record mrs = loc_Exact -> v = (IZR m1 * bpow e1)%R).
  { intros E. apply Ex1 in E. destruct E as [E0 El].
    rewrite (Hex El), <- Sc. f_equal. f_equal.
    unfold m1. rewrite (Z.div_mod mx (2 ^ n)) at 1 by (apply Z.pow_nonzero; lia).
    rewrite E0. lia. }
  assert (I1 : loc_of_shr_record mrs <> loc_Exact -> (IZR m1 * bpow e1 < v)%R).
  { intros NE. destruct (Z.eq_dec (mx mod 2 ^ n) 0) as [E0 | N0].
    - assert (lx <> loc_Exact) as NL by (intros El; apply NE, Ex1; auto).
      apply Hin in NL. rewrite <- Sc.
      destruct F as [Fl _]. apply IZR_le in Fl. nra.
    - rewrite <- Sc.
      assert (m1 * 2 ^ n < mx) as Fl.
      { unfold m1. pose proof (Z.div_mod mx (2 ^ n) ltac:(apply Z.pow_nonzero; lia)).
        pose proof (Z.mod_pos_bound mx (2 ^ n) ltac:(apply Z.pow_pos_nonneg; lia)).
        lia. }
      apply IZR_lt in Fl. nra. }
  rewrite Em1. fold m1.
  set (l1 := loc_of_shr_record mrs) in *.
  set (m2 := round_nearest_even m1 l1).
  assert (Hm2 : m2 = m1 \/ (m2 = m1 + 1 /\ l1 <> loc_Exact))
    by apply round_nearest_even_casos.
  apply (arred_final s m1 e1 v m2); try assumption.
  destruct Hm2 as [-> | [-> NE]]; [left; reflexivity | right].
  split; [reflexivity | apply I1, NE].
Qed.

Lemma valor_opp x : valor (SFopp x) = (- valor x)%R.
Proof.
  destruct x as [| | | s m e]; cbn [SFopp valor]; try lra.
  destruct s; cbn [negb signed cond_Zopp]; rewrite opp_IZR; ring.
Qed.

Lemma binary64_opp x : binary64 x -> binary64 (SFopp x).
Proof. destruct x; exact (fun H => H). Qed.

Lemma isFinite_opp x : Number.isFinite (SFopp x) = Number.isFinite x.
Proof. destruct x; reflexivity. Qed.

Lemma SFopp_involutive x : SFopp (SFopp x) = x.
Proof. destruct x; cbn; rewrite ?negb_involutive; reflexivity. Qed.

Lemma ncompare_opp x y :
  ncompare (SFopp x) (SFopp y) = ncompare y x.
Proof.
  destruct x as [sx | sx | | sx mx ex], y as [sy | sy | | sy my ey];
    cbn [SFopp ncompare]; try reflexivity;
    try (destruct sx; reflexivity); try (destruct sy; reflexivity);
    try (destruct sx, sy; reflexivity).
  f_equal. rewrite Z.min_comm.
  set (e0 := Z.min ey ex).
  assert (forall s m, signed (negb s) m = - signed s m) as N
      by (intros [] m; reflexivity).
  rewrite !N, !Z.mul_opp_l. rewrite Z.compare_opp. reflexivity.
Qed.

Lemma nleb_opp x y : (SFopp x <=? SFopp y)%js = (y <=? x)%js.
Proof. unfold nleb. rewrite ncompare_opp. reflexivity. Qed.

Lemma arredonda_opp v r : arredonda v r -> arredonda (- v) (SFopp r).
Proof.
  intros (B64 & (s & Hs & Sp & Sn) & U & L). split; [apply binary64_opp, B64 |]. split.
  - exists (negb s). split.
    + destruct r; cbn in *; congruence.
    + split; intros H; [rewrite Sn by lra | rewrite Sp by lra]; reflexivity.
  - split; intros B HB FB HL.
    + rewrite <- (SFopp_involutive B), nleb_opp. apply L.
      * apply binary64_opp, HB.
      * rewrite isFinite_opp. exact FB.
      * rewrite valor_opp. lra.
    + rewrite <- (SFopp_involutive B), nleb_opp. apply U.
      * apply binary64_opp, HB.
      * rewrite isFinite_opp. exact FB.
      * rewrite valor_opp. lra.
Qed.

Lemma arred_abs_opp s v r : arred_abs s v r -> arred_abs (negb s) v (SFopp r).
Proof.
  intros (B64 & F & U & L). split; [apply binary64_opp, B64 |]. split.
  - destruct F as [-> | [-> | (m & e & ->)]]; cbn; eauto.
  - split; intros mB eB HB HL.
    + destruct (U mB eB HB HL) as [-> | (m & e & -> & X)]; [left; reflexivity |].
      right. exists m, e. split; [reflexivity | exact X].
    + destruct (L mB eB HB HL) as [-> | (m & e & -> & X)]; [left; reflexivity |].
      right. exists m, e. split; [reflexivity | exact X].
Qed.

Lemma finito_casos B :
  Number.isFinite B = true ->
  (exists s, B = S754_zero s) \/ (exists m e, B = S754_finite true m e)
  \/ (exists m e, B = S754_finite false m e).
Proof.
  destruct B as [s | s | | [] m e]; try discriminate; intros _; eauto.
Qed.

(** A rounding of a positive magnitude with sign bit clear is a rounding. *)
Lemma arred_abs_pos v r : (0 < v)%R -> arred_abs false v r -> arredonda v r.
Proof.
  intros Pv (B64 & F & U & L). split; [exact B64 |]. split.
  - exists false. split; [| split; [reflexivity | lra]].
    destruct F as [-> | [-> | (m & e & ->)]]; reflexivity.
  - split; intros B HB FB HL.
    + destruct (finito_casos B FB) as [[s ->] | [(m & e & ->) | (m & e & ->)]].
      * cbn in HL. lra.
      * pose proof (valor_sinal true m e) as X. cbn beta iota in X. lra.
      * destruct (U m e HB HL) as [-> | (m' & e' & -> & X)]; [reflexivity |].
        apply nleb_valor; [reflexivity | reflexivity | exact X].
    + destruct (finito_casos B FB) as [[s ->] | [(m & e & ->) | (m & e & ->)]].
      * destruct F as [-> | [-> | (m & e & ->)]]; reflexivity.
      * destruct F as [-> | [-> | (m' & e' & ->)]]; try reflexivity.
        apply nleb_valor; [reflexivity | reflexivity |].
        pose proof (valor_sinal true m e) as X.
        pose proof (valor_sinal false m' e') as Y. cbn beta iota in X, Y. lra.
      * destruct (L m e HB HL) as [-> | (m' & e' & -> & X)]; [reflexivity |].
        apply nleb_valor; [reflexivity | reflexivity | exact X].
Qed.

Lemma arred_abs_sinal s v r :
  (0 < v)%R -> arred_abs s v r -> arredonda (if s then (- v)%R else v) r.
Proof.
  intros Pv H. destruct s.
  - rewrite <- (SFopp_involutive r). apply arredonda_opp, arred_abs_pos; [exact Pv |].
    apply (arred_abs_opp true), H.
  - apply arred_abs_pos; assumption.
Qed.

(** A finite binary64 number is the rounding of its own value. *)
Lemma arredonda_proprio x :
  binary64 x -> Number.isFinite x = true -> arredonda (valor x) x.
Proof.
  intros B64 F. split; [exact B64 |]. split.
  - destruct x as [s | s | | s m e]; try discriminate.
    + exists s. cbn. split; [reflexivity | split; lra].
    + exists s. pose proof (valor_sinal s m e) as X.
      split; [reflexivity |]. destruct s; split; intros; try reflexivity; lra.
  - split; intros B HB FB HL; apply nleb_valor; assumption.
Qed.

Lemma pos_iter_xO m d : Zpos (Pos.iter xO m d) = Zpos m * 2 ^ Zpos d.
Proof.
  induction d as [| d IH] using Pos.peano_ind.
  - cbn [Pos.iter]. change (2 ^ 1) with 2. lia.
  - rewrite Pos.iter_succ, Pos2Z.inj_succ, Z.pow_succ_r by lia.
    change (Z.pos (Pos.iter xO m d)~0) with (2 * Z.pos (Pos.iter xO m d)).
    rewrite IH. ring.
Qed.

Lemma shl_align_spec m e e' :
  snd (shl_align m e e') = Z.min e e'
  /\ Zpos (fst (shl_align m e e')) = Zpos m * 2 ^ (e - Z.min e e').
Proof.
  unfold shl_align. destruct (e' - e) as [| d | d] eqn:E; cbn [fst snd].
  - replace (Z.min e e') with e by lia. rewrite Z.sub_diag. cbn. lia.
  - replace (Z.min e e') with e by lia. rewrite Z.sub_diag. cbn. lia.
  - replace (Z.min e e') with e' by lia. split; [reflexivity |].
    rewrite pos_iter_xO. f_equal. f_equal. lia.
Qed.

Lemma Zdigits2_ge m k : 0 < m -> 2 ^ (k - 1) <= m -> k <= Zdigits2 m.
Proof.
  intros Hm H. destruct (Z_le_gt_dec k (Zdigits2 m)) as [| G]; [assumption | exfalso].
  pose proof (Zdigits2_bounds m Hm) as [_ U]. pose proof (Zdigits2_pos m Hm).
  assert (2 ^ Zdigits2 m <= 2 ^ (k - 1)) by (apply Z.pow_le_mono_r; lia). lia.
Qed.

Lemma Zdigits2_shift m k : 0 < m -> 0 <= k -> Zdigits2 (m * 2 ^ k) = Zdigits2 m + k.
Proof.
  intros Hm Hk. pose proof (Zdigits2_bounds m Hm) as [L U].
  pose proof (Zdigits2_pos m Hm).
  assert (0 < 2 ^ k) by (apply Z.pow_pos_nonneg; lia).
  apply Zdigits2_unique; [nia |].
  replace (Zdigits2 m + k - 1) with ((Zdigits2 m - 1) + k) by lia.
  rewrite !Z.pow_add_r by lia. split; nia.
Qed.

Lemma binary_round_spec s m e :
  arred_abs s (IZR (Zpos m) * bpow e) (binary_round prec emax s m e).
Proof.
  unfold binary_round.
  pose proof (shl_align_spec m e (fexp prec emax (Zpos (digits2_pos m) + e))) as [Ez Em].
  destruct (shl_align m e (fexp prec emax (Zpos (digits2_pos m) + e))) as [mz ez].
  cbn [fst snd] in Ez, Em.
  change (Zpos (digits2_pos m)) with (Zdigits2 (Zpos m)) in *.
  assert (V : (IZR (Zpos mz) * bpow ez = IZR (Zpos m) * bpow e)%R).
  { rewrite Em, escala by lia. f_equal. f_equal. lia. }
  assert (P : (0 < bpow ez)%R) by apply bpow_pos.
  apply binary_round_aux_spec.
  - lia.
  - rewrite Em, Zdigits2_shift by lia.
    replace (Zdigits2 (Z.pos m) + (e - Z.min e (fexp prec emax (Zdigits2 (Z.pos m) + e))) + ez)
      with (Zdigits2 (Z.pos m) + e) by lia.
    lia.
  - rewrite <- V, plus_IZR. lra.
  - intros _. symmetry. exact V.
  - intros N. exfalso. apply N. reflexivity.
Qed.

Lemma arredonda_zero s : arredonda 0 (S754_zero s).
Proof.
  split; [reflexivity |]. split.
  - exists s. split; [reflexivity | split; lra].
  - split; intros B HB FB HL; apply nleb_valor; try reflexivity; assumption.
Qed.

Lemma binary_normalize_spec m e sz :
  arredonda (IZR m * bpow e) (binary_normalize prec emax m e sz).
Proof.
  destruct m as [| p | p]; cbn [binary_normalize].
  - rewrite Rmult_0_l. apply arredonda_zero.
  - apply arred_abs_pos; [| apply binary_round_spec].
    pose proof (bpow_pos e). assert (1 <= IZR (Zpos p))%R by (apply IZR_le; lia). nra.
  - change (Z.neg p) with (- Z.pos p). rewrite opp_IZR.
    replace (- IZR (Z.pos p) * bpow e)%R with (- (IZR (Z.pos p) * bpow e))%R by ring.
    apply (arred_abs_sinal true); [| apply binary_round_spec].
    pose proof (bpow_pos e). assert (1 <= IZR (Zpos p))%R by (apply IZR_le; lia). nra.
Qed.

Lemma cond_Zopp_mul s a b : cond_Zopp s a * b = cond_Zopp s (a * b).
Proof. destruct s; cbn; lia. Qed.

Lemma alinhar_soma sx mx ex sy my ey :
  let ez := Z.min ex ey in
  cond_Zopp sx (Zpos (fst (shl_align mx ex ez))) = signed sx mx * 2 ^ (ex - ez)
  /\ cond_Zopp sy (Zpos (fst (shl_align my ey ez))) = signed sy my * 2 ^ (ey - ez).
Proof.
  intros ez. unfold signed. rewrite !cond_Zopp_mul.
  pose proof (shl_align_spec mx ex ez) as [_ Ex].
  pose proof (shl_align_spec my ey ez) as [_ Ey].
  rewrite Ex, Ey. unfold ez.
  replace (Z.min ex (Z.min ex ey)) with (Z.min ex ey) by lia.
  replace (Z.min ey (Z.min ex ey)) with (Z.min ex ey) by lia.
  split; reflexivity.
Qed.

Lemma nadd_spec x y :
  binary64 x -> binary64 y ->
  Number.isFinite x = true -> Number.isFinite y = true ->
  arredonda (valor x + valor y) (x + y)%js.
Proof.
  intros Bx By Fx Fy.
  destruct x as [sx | sx | | sx mx ex]; try discriminate;
    destruct y as [sy | sy | | sy my ey]; try discriminate.
  - cbn [valor]. rewrite Rplus_0_l. destruct sx, sy; apply arredonda_zero.
  - change (valor (S754_zero sx)) with 0%R. rewrite Rplus_0_l.
    apply arredonda_proprio; assumption.
  - change (valor (S754_zero sy)) with 0%R. rewrite Rplus_0_r.
    apply arredonda_proprio; assumption.
  - unfold nadd. cbn [SFadd]. cbv zeta.
    destruct (alinhar_soma sx mx ex sy my ey) as [-> ->].
    rewrite !valor_finite.
    rewrite <- (alinhado (signed sx mx) ex (Z.min ex ey)) by lia.
    rewrite <- (alinhado (signed sy my) ey (Z.min ex ey)) by lia.
    rewrite <- Rmult_plus_distr_r, <- plus_IZR.
    apply binary_normalize_spec.
Qed.

Lemma nsub_spec x y :
  binary64 x -> binary64 y ->
  Number.isFinite x = true -> Number.isFinite y = true ->
  arredonda (valor x - valor y) (x - y)%js.
Proof.
  intros Bx By Fx Fy.
  destruct x as [sx | sx | | sx mx ex]; try discriminate;
    destruct y as [sy | sy | | sy my ey]; try discriminate.
  - cbn [valor]. rewrite Rminus_0_r. destruct sx, sy; apply arredonda_zero.
  - change (valor (S754_zero sx)) with 0%R. rewrite Rminus_0_l.
    change (S754_zero sx - S754_finite sy my ey)%js
      with (SFopp (S754_finite sy my ey)).
    apply arredonda_opp, arredonda_proprio; assumption.
  - change (valor (S754_zero sy)) with 0%R. rewrite Rminus_0_r.
    apply arredonda_proprio; assumption.
  - unfold nsub. cbn [SFsub]. cbv zeta.
    destruct (alinhar_soma sx mx ex sy my ey) as [-> ->].
    rewrite !valor_finite.
    rewrite <- (alinhado (signed sx mx) ex (Z.min ex ey)) by lia.
    rewrite <- (alinhado (signed sy my) ey (Z.min ex ey)) by lia.
    rewrite <- Rmult_minus_distr_r, <- minus_IZR.
    apply binary_normalize_spec.
Qed.

Lemma valor_abs_sinal s m e :
  valor (S754_finite s m e) =
  (if s then - (IZR (Zpos m) * bpow e) else IZR (Zpos m) * bpow e)%R.
Proof.
  rewrite valor_finite. destruct s; cbn [signed cond_Zopp]; [| reflexivity].
  rewrite opp_IZR. ring.
Qed.

Lemma nmul_finite sx mx ex sy my ey :
  binary64 (S754_finite sx mx ex) -> binary64 (S754_finite sy my ey) ->
  arredonda (valor (S754_finite sx mx ex) * valor (S754_finite sy my ey))
    (S754_finite sx mx ex * S754_finite sy my ey)%js.
Proof.
  intros Bx By. unfold binary64 in Bx, By. cbn [valid_binary] in Bx, By.
  apply bounded_spec in Bx, By. destruct Bx as [Cx _], By as [Cy _].
  change (Zpos (digits2_pos mx)) with (Zdigits2 (Zpos mx)) in Cx.
  change (Zpos (digits2_pos my)) with (Zdigits2 (Zpos my)) in Cy.
  unfold nmul. cbn [SFmul].
  set (v := (IZR (Zpos (mx * my)) * bpow (ex + ey))%R).
  assert (Pv : (0 < v)%R).
  { unfold v. pose proof (bpow_pos (ex + ey)).
    assert (1 <= IZR (Zpos (mx * my)))%R by (apply IZR_le; lia). nra. }
  assert (A : arred_abs (xorb sx sy) v
                (binary_round_aux prec emax (xorb sx sy) (Zpos (mx * my)) (ex + ey)
                   loc_Exact)).
  { apply binary_round_aux_spec.
    - lia.
    - pose proof (Zdigits2_bounds (Zpos mx) ltac:(lia)) as [Lx _].
      pose proof (Zdigits2_bounds (Zpos my) ltac:(lia)) as [Ly _].
      pose proof (Zdigits2_pos (Zpos mx) ltac:(lia)).
      pose proof (Zdigits2_pos (Zpos my) ltac:(lia)).
      assert (Zdigits2 (Zpos mx) + Zdigits2 (Zpos my) - 1
              <= Zdigits2 (Zpos (mx * my))) as D.
      { apply Zdigits2_ge; [lia |].
        replace (Zdigits2 (Z.pos mx) + Zdigits2 (Z.pos my) - 1 - 1)
          with ((Zdigits2 (Z.pos mx) - 1) + (Zdigits2 (Z.pos my) - 1)) by lia.
        rewrite Z.pow_add_r, Pos2Z.inj_mul by lia.
        assert (0 <= 2 ^ (Zdigits2 (Z.pos mx) - 1)) by (apply Z.pow_nonneg; lia).
        assert (0 <= 2 ^ (Zdigits2 (Z.pos my) - 1)) by (apply Z.pow_nonneg; lia).
        nia. }
      rewrite fexp_eq in *. lia.
    - unfold v. rewrite plus_IZR. pose proof (bpow_pos (ex + ey)). split; nra.
    - reflexivity.
    - intros N. exfalso. apply N. reflexivity. }
  apply arred_abs_sinal in A; [| exact Pv].
  replace (valor (S754_finite sx mx ex) * valor (S754_finite sy my ey))%R
    with (if xorb sx sy then (- v)%R else v); [exact A |].
  rewrite !valor_abs_sinal. unfold v. rewrite Pos2Z.inj_mul, mult_IZR, bpow_add.
  destruct sx, sy; cbn [xorb]; ring.
Qed.

Lemma nmul_spec x y :
  binary64 x -> binary64 y ->
  Number.isFinite x = true -> Number.isFinite y = true ->
  arredonda (valor x * valor y) (x * y)%js.
Proof.
  intros Bx By Fx Fy.
  destruct x as [sx | sx | | sx mx ex]; try discriminate;
    destruct y as [sy | sy | | sy my ey]; try discriminate.
  - cbn [valor]. rewrite Rmult_0_l. apply arredonda_zero.
  - change (valor (S754_zero sx)) with 0%R. rewrite Rmult_0_l. apply arredonda_zero.
  - change (valor (S754_zero sy)) with 0%R. rewrite Rmult_0_r. apply arredonda_zero.
  - apply nmul_finite; assumption.
Qed.

Lemma new_location_exato nb k : new_location nb k = loc_Exact <-> k = 0.
Proof.
  unfold new_location, new_location_even, new_location_odd.
  destruct (Z.even nb), (Z.eqb_spec k 0); intuition discriminate.
Qed.

Lemma bpow_sub a b : (bpow (a - b) * bpow b = bpow a)%R.
Proof. rewrite <- bpow_add. f_equal. lia. Qed.

Lemma SFdiv_core_spec mx ex my ey :
  let v := ((IZR (Zpos mx) * bpow ex) / (IZR (Zpos my) * bpow ey))%R in
  let '(q, e', l) := SFdiv_core_binary prec emax (Zpos mx) ex (Zpos my) ey in
  0 <= q
  /\ e' <= fexp prec emax (Zdigits2 q + e')
  /\ (IZR q * bpow e' <= v < IZR (q + 1) * bpow e')%R
  /\ (l = loc_Exact -> v = (IZR q * bpow e')%R)
  /\ (l <> loc_Exact -> (IZR q * bpow e' < v)%R).
Proof.
  intros v. unfold SFdiv_core_binary.
  set (d1 := Zdigits2 (Zpos mx)). set (d2 := Zdigits2 (Zpos my)).
  set (e' := Z.min (fexp prec emax (d1 + ex - (d2 + ey))) (ex - ey)).
  set (s := ex - ey - e').
  assert (Hs : 0 <= s) by (unfold s, e'; lia).
  set (m' := match s with
             | 0 => Z.pos mx
             | Z.pos _ => Z.shiftl (Z.pos mx) s
             | Z.neg _ => 0
             end).
  assert (Em : m' = Zpos mx * 2 ^ s).
  { unfold m'. destruct s as [| p | p]; [cbn; lia | | lia].
    rewrite Z.shiftl_mul_pow2 by lia. reflexivity. }
  pose proof (Z_div_mod m' (Zpos my) ltac:(lia)) as DM.
  destruct (Z.div_eucl m' (Zpos my)) as [q r]. destruct DM as [Eq Hr].
  assert (Pm' : 0 < m') by (rewrite Em; apply Z.mul_pos_pos; [lia | apply Z.pow_pos_nonneg; lia]).
  assert (Hq : 0 <= q) by nia.
  pose proof (bpow_pos ex) as Pex. pose proof (bpow_pos ey) as Pey.
  pose proof (bpow_pos e') as Pe'.
  assert (Py : (1 <= IZR (Zpos my))%R) by (apply IZR_le; lia).
  assert (V : v = ((IZR q + IZR r / IZR (Zpos my)) * bpow e')%R).
  { assert (K : (IZR m' * bpow e' * bpow ey = IZR (Zpos mx) * bpow ex)%R).
    { rewrite Em, escala by exact Hs.
      replace (e' + s) with (ex - ey) by (unfold s; lia).
      rewrite Rmult_assoc, bpow_sub. reflexivity. }
    unfold v. rewrite <- K, Eq, plus_IZR, mult_IZR. field. lra. }
  assert (Fr : (0 <= IZR r / IZR (Zpos my) < 1)%R).
  { destruct Hr as [R0 R1]. apply IZR_le in R0. apply IZR_lt in R1.
    split.
    - apply Rmult_le_pos; [exact R0 | left; apply Rinv_0_lt_compat; lra].
    - apply (Rmult_lt_reg_r (IZR (Zpos my))); [lra |]. field_simplify; lra. }
  split; [exact Hq |]. split; [| split; [| split]].
  - (* enough digits *)
    assert (d1 + s - d2 <= Zdigits2 q) as D.
    { destruct (Z_le_gt_dec (d1 + s - d2) 0) as [| G].
      - destruct q as [| p | p]; cbn [Zdigits2]; lia.
      - pose proof (Zdigits2_bounds (Zpos mx) ltac:(lia)) as [L1 _].
        pose proof (Zdigits2_bounds (Zpos my) ltac:(lia)) as [_ U2].
        pose proof (Zdigits2_pos (Zpos my) ltac:(lia)) as H.
        pose proof (Zdigits2_pos (Zpos mx) ltac:(lia)) as H'.
        fold d1 in L1, H'. fold d2 in U2, H.
        assert (2 ^ (d1 + s - d2 - 1) <= q) as Lq.
        { assert (2 ^ (d1 - 1 + s) = 2 ^ (d1 + s - d2 - 1) * 2 ^ d2) as X
              by (rewrite <- Z.pow_add_r by lia; f_equal; lia).
          assert (2 ^ (d1 - 1 + s) = 2 ^ (d1 - 1) * 2 ^ s) as Y
              by (apply Z.pow_add_r; lia).
          assert (0 < 2 ^ s) by (apply Z.pow_pos_nonneg; lia).
          assert (0 < 2 ^ (d1 + s - d2 - 1)) by (apply Z.pow_pos_nonneg; lia).
          nia. }
        apply Zdigits2_ge; [| exact Lq].
        assert (0 < 2 ^ (d1 + s - d2 - 1)) by (apply Z.pow_pos_nonneg; lia). lia. }
    assert (fexp prec emax (d1 + ex - (d2 + ey)) <= fexp prec emax (Zdigits2 q + e')).
    { rewrite !fexp_eq. unfold s in D. lia. }
    unfold e' at 1. lia.
  - rewrite V, plus_IZR. split; nra.
  - intros E. apply new_location_exato in E. rewrite V, E. lra.
  - intros N. rewrite V.
    assert (0 < r) as Pr.
    { destruct (Z.eq_dec r 0) as [E | E]; [| lia].
      exfalso. apply N, new_location_exato, E. }
    apply IZR_lt in Pr.
    assert (0 < IZR r / IZR (Zpos my))%R
      by (apply Rmult_lt_0_compat; [exact Pr | apply Rinv_0_lt_compat; lra]).
    nra.
Qed.

Lemma ndiv_finite sx mx ex sy my ey :
  arredonda (valor (S754_finite sx mx ex) / valor (S754_finite sy my ey))
    (S754_finite sx mx ex / S754_finite sy my ey)%js.
Proof.
  unfold ndiv. cbn [SFdiv].
  pose proof (SFdiv_core_spec mx ex my ey) as H. cbv zeta in H.
  destruct (SFdiv_core_binary prec emax (Zpos mx) ex (Zpos my) ey) as [[q e'] l].
  destruct H as (Hq & Pre & V & X & I).
  set (v := ((IZR (Zpos mx) * bpow ex) / (IZR (Zpos my) * bpow ey))%R) in *.
  pose proof (bpow_pos ex) as Pex. pose proof (bpow_pos ey) as Pey.
  assert (Px : (1 <= IZR (Zpos mx))%R) by (apply IZR_le; lia).
  assert (Py : (1 <= IZR (Zpos my))%R) by (apply IZR_le; lia).
  assert (Pv : (0 < v)%R).
  { unfold v. apply Rmult_lt_0_compat; [nra |]. apply Rinv_0_lt_compat. nra. }
  pose proof (binary_round_aux_spec (xorb sx sy) q e' l v Hq Pre V X I) as A.
  apply arred_abs_sinal in A; [| exact Pv].
  replace (valor (S754_finite sx mx ex) / valor (S754_finite sy my ey))%R
    with (if xorb sx sy then (- v)%R else v); [exact A |].
  rewrite !valor_abs_sinal. unfold v.
  destruct sx, sy; cbn [xorb]; field; nra.
Qed.

Lemma ndiv_spec x y :
  Number.isFinite x = true -> Number.isFinite y = true -> valor y <> 0%R ->
  arredonda (valor x / valor y) (x / y)%js.
Proof.
  intros Fx Fy Ny.
  destruct x as [sx | sx | | sx mx ex]; try discriminate;
    destruct y as [sy | sy | | sy my ey]; try discriminate.
  - exfalso. apply Ny. reflexivity.
  - change (valor (S754_zero sx)) with 0%R. unfold Rdiv. rewrite Rmult_0_l.
    apply arredonda_zero.
  - exfalso. apply Ny. reflexivity.
  - apply ndiv_finite.
Qed.

Lemma arredonda_num v r : arredonda v r -> num r.
Proof.
  intros (B & (s & Hs & _) & _). split; [exact B |].
  intros ->. discriminate Hs.
Qed.

Lemma arredonda_pos0 v r : (0 < v)%R -> arredonda v r -> pos0 r.
Proof.
  intros P (B & (s & Hs & Sp & _) & _). split; [exact B |].
  rewrite Hs, (Sp P). reflexivity.
Qed.

Lemma pos0_num x : pos0 x -> num x.
Proof. intros [B S]. split; [exact B |]. intros ->. discriminate S. Qed.

Lemma positivo_valor y : positivo y -> (0 < valor y)%R.
Proof. intros [_ (m & e & ->)]. apply (valor_sinal false m e). Qed.

Lemma positivo_finito y : positivo y -> Number.isFinite y = true.
Proof. intros [_ (m & e & ->)]. reflexivity. Qed.

Lemma nneg_casos x :
  (of_Z 0 <=? x)%js = true ->
  (exists s, x = S754_zero s) \/ x = S754_infinity false
  \/ exists m e, x = S754_finite false m e.
Proof.
  destruct x as [s | [] | | [] m e]; try discriminate; intros _; eauto.
Qed.

Lemma pos0_casos x :
  sinal x = Some false ->
  x = S754_zero false \/ x = S754_infinity false
  \/ exists m e, x = S754_finite false m e.
Proof.
  destruct x as [[] | [] | | [] m e]; try discriminate; intros _; eauto.
Qed.

(** *** Addition of a positive finite number *)

Lemma nadd_num x y :
  num x -> binary64 y -> Number.isFinite y = true -> num (x + y)%js.
Proof.
  intros [Bx Nx] By Fy.
  destruct x as [sx | sx | | sx mx ex].
  - apply (arredonda_num _ _ (nadd_spec _ _ Bx By eq_refl Fy)).
  - destruct y; try discriminate; split; try reflexivity; discriminate.
  - contradiction.
  - apply (arredonda_num _ _ (nadd_spec _ _ Bx By eq_refl Fy)).
Qed.

Lemma nadd_pos0 x y :
  binary64 x -> (of_Z 0 <=? x)%js = true -> positivo y -> pos0 (x + y)%js.
Proof.
  intros Bx Nx Py. pose proof Py as (By & my & ey & Ey).
  destruct (nneg_casos x Nx) as [[s ->] | [-> | (m & e & ->)]].
  - subst y. split; [exact By | reflexivity].
  - rewrite Ey. split; reflexivity.
  - apply (arredonda_pos0 (valor (S754_finite false m e) + valor y)).
    + pose proof (valor_sinal false m e) as X. cbn beta iota in X.
      pose proof (positivo_valor y Py). lra.
    + apply nadd_spec; [exact Bx | exact By | reflexivity | rewrite Ey; reflexivity].
Qed.

(** *** Multiplication by a positive finite number *)

Lemma nmul_num x y : num x -> positivo y -> num (x * y)%js.
Proof.
  intros [Bx Nx] Py. pose proof Py as (By & my & ey & Ey).
  destruct x as [sx | sx | | sx mx ex].
  - rewrite Ey. split; [reflexivity | discriminate].
  - rewrite Ey. split; [reflexivity | discriminate].
  - contradiction.
  - apply (arredonda_num _ _ (nmul_spec _ _ Bx By eq_refl (positivo_finito y Py))).
Qed.

Lemma nmul_pos0 x y : pos0 x -> positivo y -> pos0 (x * y)%js.
Proof.
  intros [Bx Sx] Py. pose proof Py as (By & my & ey & Ey).
  destruct (pos0_casos x Sx) as [-> | [-> | (m & e & ->)]].
  - rewrite Ey. split; reflexivity.
  - rewrite Ey. split; reflexivity.
  - apply (arredonda_pos0 (valor (S754_finite false m e) * valor y)).
    + pose proof (valor_sinal false m e) as X. cbn beta iota in X.
      pose proof (positivo_valor y Py). nra.
    + apply nmul_spec; [exact Bx | exact By | reflexivity | rewrite Ey; reflexivity].
Qed.

(** *** Division by a positive finite number *)

Lemma ndiv_num x y : num x -> positivo y -> num (x / y)%js.
Proof.
  intros [Bx Nx] Py. pose proof Py as (By & my & ey & Ey).
  destruct x as [sx | sx | | sx mx ex].
  - rewrite Ey. split; [reflexivity | discriminate].
  - rewrite Ey. split; [reflexivity | discriminate].
  - contradiction.
  - rewrite Ey. apply (arredonda_num _ _ (ndiv_finite _ _ _ _ _ _)).
Qed.

Lemma ndiv_pos0 x y : pos0 x -> positivo y -> pos0 (x / y)%js.
Proof.
  intros [Bx Sx] Py. pose proof Py as (By & my & ey & Ey).
  destruct (pos0_casos x Sx) as [-> | [-> | (m & e & ->)]].
  - rewrite Ey. split; reflexivity.
  - rewrite Ey. split; reflexivity.
  - rewrite Ey.
    apply (arredonda_pos0 (valor (S754_finite false m e)
                           / valor (S754_finite false my ey))).
    + pose proof (valor_sinal false m e) as X.
      pose proof (valor_sinal false my ey) as Y. cbn beta iota in X, Y.
      apply Rmult_lt_0_compat; [exact X | apply Rinv_0_lt_compat; exact Y].
    + apply ndiv_finite.
Qed.

(** *** [Math.round] *)

Lemma round_finite s m e :
  e < 0 ->
  let n := (2 * signed s m + 2 ^ (- e)) / 2 ^ (- e + 1) in
  Math.round (S754_finite s m e) = binary_normalize prec emax n 0 s
  /\ (IZR n <= valor (S754_finite s m e) + / 2 < IZR n + 1)%R.
Proof.
  intros He n. split.
  - cbn [Math.round]. destruct (Z.leb_spec 0 e); [lia | reflexivity].
  - assert (P : 0 < 2 ^ (- e + 1)) by (apply Z.pow_pos_nonneg; lia).
    pose proof (Z.mul_div_le (2 * signed s m + 2 ^ (- e)) _ P) as L.
    pose proof (Z.mul_succ_div_gt (2 * signed s m + 2 ^ (- e)) _ P) as U.
    fold n in L, U.
    assert (E2 : 2 ^ (- e + 1) = 2 * 2 ^ (- e))
      by (rewrite Z.pow_add_r by lia; change (2 ^ 1) with 2; ring).
    rewrite E2 in L, U.
    assert (Pe : 0 < 2 ^ (- e)) by (apply Z.pow_pos_nonneg; lia).
    rewrite valor_finite.
    assert (B : (bpow e * IZR (2 ^ (- e)) = 1)%R).
    { rewrite <- bpow_IZR, <- bpow_add by lia. replace (e + - e) with 0 by lia.
      reflexivity. }
    pose proof (bpow_pos e) as Pb.
    apply IZR_lt in Pe.
    assert (L' : (2 * IZR (2 ^ (- e)) * IZR n
                  <= 2 * IZR (signed s m) + IZR (2 ^ (- e)))%R).
    { rewrite <- !mult_IZR, <- plus_IZR. apply IZR_le. lia. }
    assert (U' : (2 * IZR (signed s m) + IZR (2 ^ (- e))
                  < 2 * IZR (2 ^ (- e)) * (IZR n + 1))%R).
    { rewrite <- (plus_IZR n 1), <- !mult_IZR, <- plus_IZR. apply IZR_lt. lia. }
    set (t := IZR (2 ^ (- e))) in *. set (b := bpow e) in *.
    set (a := IZR (signed s m)) in *.
    assert (Ea : (a * b + / 2 = (2 * a + t) * (b * / 2))%R).
    { replace ((2 * a + t) * (b * / 2))%R with (a * b + (b * t) * / 2)%R by field.
      rewrite B. ring. }
    rewrite Ea.
    assert (Pb2 : (0 < b * / 2)%R) by lra.
    assert (En : forall z, (z = (2 * t * z) * (b * / 2))%R).
    { intros z. replace (2 * t * z * (b * / 2))%R with ((b * t) * z)%R by field.
      rewrite B. ring. }
    rewrite (En (IZR n)) at 1. rewrite (En (IZR n + 1)%R).
    split; [apply Rmult_le_compat_r; lra | apply Rmult_lt_compat_r; lra].
Qed.

Lemma bpow_0' : bpow 0 = 1%R.
Proof. reflexivity. Qed.

Lemma round_num x : num x -> num (Math.round x).
Proof.
  intros [Bx Nx]. destruct x as [sx | sx | | sx mx ex]; try (split; assumption).
  cbn [Math.round]. destruct (Z.leb_spec 0 ex); [split; assumption |].
  apply (arredonda_num (IZR ((2 * signed sx mx + 2 ^ (- ex)) / 2 ^ (- ex + 1)) * bpow 0)).
  apply binary_normalize_spec.
Qed.

Lemma round_pos0 x : pos0 x -> pos0 (Math.round x).
Proof.
  intros [Bx Sx]. destruct (pos0_casos x Sx) as [-> | [-> | (m & e & ->)]];
    try (split; reflexivity).
  cbn [Math.round]. destruct (Z.leb_spec 0 e); [split; assumption |].
  set (n := (2 * signed false m + 2 ^ (- e)) / 2 ^ (- e + 1)).
  assert (0 <= n).
  { apply Z.div_pos; [| apply Z.pow_pos_nonneg; lia].
    pose proof (Z.pow_pos_nonneg 2 (- e)). cbn [signed cond_Zopp]. lia. }
  destruct (Z.eq_dec n 0) as [-> | N]; [split; reflexivity |].
  apply (arredonda_pos0 (IZR n * bpow 0)).
  - rewrite bpow_0', Rmult_1_r. apply IZR_lt. lia.
  - apply binary_normalize_spec.
Qed.

(** *** Every operation yields a binary64 number *)

Lemma binary64_especial x : Number.isFinite x = false -> binary64 x.
Proof. destruct x; try discriminate; reflexivity. Qed.

Lemma arredonda_binary64 v r : arredonda v r -> binary64 r.
Proof. intros [B _]. exact B. Qed.

Lemma nadd_binary64 x y : binary64 x -> binary64 y -> binary64 (x + y)%js.
Proof.
  intros Bx By.
  destruct (Number.isFinite x) eqn:Fx, (Number.isFinite y) eqn:Fy.
  - apply (arredonda_binary64 _ _ (nadd_spec x y Bx By Fx Fy)).
  - destruct x as [[] | [] | | ], y as [[] | [] | | ]; try discriminate; reflexivity.
  - destruct x as [[] | [] | | ], y as [[] | [] | | ]; try discriminate; reflexivity.
  - destruct x as [[] | [] | | ], y as [[] | [] | | ]; try discriminate; reflexivity.
Qed.

Lemma nsub_binary64 x y : binary64 x -> binary64 y -> binary64 (x - y)%js.
Proof.
  intros Bx By.
  destruct (Number.isFinite x) eqn:Fx, (Number.isFinite y) eqn:Fy.
  - apply (arredonda_binary64 _ _ (nsub_spec x y Bx By Fx Fy)).
  - destruct x as [[] | [] | | ], y as [[] | [] | | ]; try discriminate; reflexivity.
  - destruct x as [[] | [] | | ], y as [[] | [] | | ]; try discriminate; reflexivity.
  - destruct x as [[] | [] | | ], y as [[] | [] | | ]; try discriminate; reflexivity.
Qed.

Lemma nmul_binary64 x y : binary64 x -> binary64 y -> binary64 (x * y)%js.
Proof.
  intros Bx By.
  destruct (Number.isFinite x) eqn:Fx, (Number.isFinite y) eqn:Fy.
  - apply (arredonda_binary64 _ _ (nmul_spec x y Bx By Fx Fy)).
  - destruct x as [[] | [] | | ], y as [[] | [] | | ]; try discriminate; reflexivity.
  - destruct x as [[] | [] | | ], y as [[] | [] | | ]; try discriminate; reflexivity.
  - destruct x as [[] | [] | | ], y as [[] | [] | | ]; try discriminate; reflexivity.
Qed.

Lemma ndiv_binary64 x y : binary64 (x / y)%js.
Proof.
  destruct x as [sx | sx | | sx mx ex], y as [sy | sy | | sy my ey];
    try reflexivity.
  apply (arredonda_binary64 _ _ (ndiv_finite sx mx ex sy my ey)).
Qed.

Lemma round_binary64 x : binary64 x -> binary64 (Math.round x).
Proof.
  intros Bx. destruct x as [sx | sx | | sx mx ex]; try exact Bx.
  cbn [Math.round]. destruct (0 <=? ex); [exact Bx |].
  apply (arredonda_binary64 _ _ (binary_normalize_spec _ 0 sx)).
Qed.

Lemma round2_binary64 x : binary64 (round2 x).
Proof. apply ndiv_binary64. Qed.

Lemma max_binary64 a b : binary64 a -> binary64 b -> binary64 (Math.max a b).
Proof.
  intros Ba Bb. unfold Math.max.
  destruct (ncompare a b) as [[] |]; try assumption; [| reflexivity].
  destruct a as [[] | | |]; assumption.
Qed.

Lemma min_binary64 a b : binary64 a -> binary64 b -> binary64 (Math.min a b).
Proof.
  intros Ba Bb. unfold Math.min.
  destruct (ncompare a b) as [[] |]; try assumption; [| reflexivity].
  destruct a as [[] | | |]; assumption.
Qed.

(** *** Constants *)

Lemma EPSILON_positivo : positivo Number.EPSILON.
Proof. split; [reflexivity |]. vm_compute. eauto. Qed.

Lemma cem_positivo : positivo (of_Z 100).
Proof. split; [reflexivity |]. vm_compute. eauto. Qed.

(** *** [round2] *)

Lemma round2_num x : num x -> num (round2 x).
Proof.
  intros H. unfold round2.
  apply ndiv_num; [| exact cem_positivo].
  apply round_num, nmul_num; [| exact cem_positivo].
  apply nadd_num; [exact H | apply EPSILON_positivo | reflexivity].
Qed.

Lemma round2_pos0 x : binary64 x -> (of_Z 0 <=? x)%js = true -> pos0 (round2 x).
Proof.
  intros B N. unfold round2.
  apply ndiv_pos0; [| exact cem_positivo].
  apply round_pos0, nmul_pos0; [| exact cem_positivo].
  apply nadd_pos0; [exact B | exact N | exact EPSILON_positivo].
Qed.

(** *** Comparison, [Math.max] and [Math.min] *)

Lemma ncompare_antisym a b :
  ncompare b a = option_map CompOpp (ncompare a b).
Proof.
  destruct a as [sa | sa | | sa ma ea], b as [sb | sb | | sb mb eb];
    cbn [ncompare option_map]; try reflexivity;
    try (destruct sa; reflexivity); try (destruct sb; reflexivity);
    try (destruct sa, sb; reflexivity).
  rewrite (Z.min_comm eb ea), Z.compare_antisym. reflexivity.
Qed.

Lemma ncompare_num a b : a <> NaN -> b <> NaN -> exists c, ncompare a b = Some c.
Proof.
  intros Na Nb.
  destruct a as [sa | sa | | sa ma ea], b as [sb | sb | | sb mb eb];
    try contradiction; cbn [ncompare]; eauto.
Qed.

Lemma nleb_refl a : a <> NaN -> (a <=? a)%js = true.
Proof.
  intros Na. unfold nleb.
  destruct a as [sa | sa | | sa ma ea]; try contradiction; cbn [ncompare].
  - reflexivity.
  - destruct sa; reflexivity.
  - rewrite Z.compare_refl. reflexivity.
Qed.

Lemma max_casos a b :
  a <> NaN -> b <> NaN ->
  (Math.max a b = a /\ (b <=? a)%js = true)
  \/ (Math.max a b = b /\ (a <=? b)%js = true).
Proof.
  intros Na Nb. unfold Math.max, nleb. rewrite (ncompare_antisym a b).
  destruct (ncompare_num a b Na Nb) as [c ->]. cbn [option_map].
  destruct c; cbn [CompOpp]; auto.
  destruct a as [[] | | |]; auto.
Qed.

Lemma min_casos a b :
  a <> NaN -> b <> NaN ->
  (Math.min a b = a /\ (a <=? b)%js = true)
  \/ (Math.min a b = b /\ (b <=? a)%js = true).
Proof.
  intros Na Nb. unfold Math.min, nleb. rewrite (ncompare_antisym a b).
  destruct (ncompare_num a b Na Nb) as [c ->]. cbn [option_map].
  destruct c; cbn [CompOpp]; auto.
  destruct a as [[] | | |]; auto.
Qed.

Lemma pos0_nneg x : sinal x = Some false -> (of_Z 0 <=? x)%js = true.
Proof. intros S. destruct (pos0_casos x S) as [-> | [-> | (m & e & ->)]]; reflexivity. Qed.

(** The limit of lines 97-98 (and 329-331): the reduction lies between 0 and
    the tax and is one of 0, the candidate and the tax. *)
Lemma limite_reducao R v :
  R <> NaN -> sinal v = Some false ->
  let r := Math.max (of_Z 0) (Math.min R v) in
  (of_Z 0 <=? r)%js = true /\ (r <=? v)%js = true
  /\ (r = of_Z 0 \/ (r = R /\ (R <=? v)%js = true)
      \/ (r = v /\ (v <=? R)%js = true))
  /\ ((v =? of_Z 0)%js = true -> r = of_Z 0).
Proof.
  intros NR Sv r.
  assert (Nv : v <> NaN) by (intros ->; discriminate Sv).
  pose proof (pos0_nneg v Sv) as Pv.
  assert (N0 : of_Z 0 <> NaN) by discriminate.
  split; [| split; [| split]].
  - subst r. destruct (min_casos R v NR Nv) as [[-> L] | [-> L]];
      [destruct (max_casos (of_Z 0) R N0 NR) as [[-> M] | [-> M]]
      | destruct (max_casos (of_Z 0) v N0 Nv) as [[-> M] | [-> M]]];
      auto.
  - subst r. destruct (min_casos R v NR Nv) as [[-> L] | [-> L]];
      [destruct (max_casos (of_Z 0) R N0 NR) as [[-> M] | [-> M]]
      | destruct (max_casos (of_Z 0) v N0 Nv) as [[-> M] | [-> M]]];
      auto using nleb_refl.
  - subst r. destruct (min_casos R v NR Nv) as [[-> L] | [-> L]];
      [destruct (max_casos (of_Z 0) R N0 NR) as [[-> M] | [-> M]]
      | destruct (max_casos (of_Z 0) v N0 Nv) as [[-> M] | [-> M]]];
      auto.
  - intros Z. subst r.
    destruct (pos0_casos v Sv) as [-> | [-> | (m & e & ->)]]; try discriminate Z.
    destruct R as [[] | [] | | [] mR eR]; try contradiction; reflexivity.
Qed.

Lemma bpow_frac e :
  (bpow e * IZR (2 ^ Z.max (- e) 0) = IZR (2 ^ Z.max e 0))%R.
Proof.
  destruct (Z_le_gt_dec 0 e) as [P | N].
  - replace (Z.max (- e) 0) with 0 by lia. replace (Z.max e 0) with e by lia.
    rewrite bpow_IZR by lia. change (2 ^ 0) with 1. ring.
  - replace (Z.max (- e) 0) with (- e) by lia. replace (Z.max e 0) with 0 by lia.
    rewrite <- bpow_IZR, <- bpow_add by lia. replace (e + - e) with 0 by lia.
    reflexivity.
Qed.

Lemma racional_cmp_ok x a b :
  0 < b -> Number.isFinite x = true ->
  ordem (racional_cmp x a b) (valor x) (IZR a / IZR b)%R.
Proof.
  intros Hb F. apply IZR_lt in Hb as Hb'.
  assert (Q : forall (c : comparison) (p q t : R),
             (0 < t)%R -> ordem c (p * t) (q * t) -> ordem c p q).
  { intros [] p q t Ht; cbn [ordem]; intros; nra. }
  destruct x as [s | s | | s m e]; try discriminate.
  - cbn [racional_cmp valor]. apply (Q _ _ _ (IZR b) Hb').
    replace (IZR a / IZR b * IZR b)%R with (IZR a) by (field; lra).
    rewrite Rmult_0_l.
    destruct (Z.compare_spec 0 a) as [E | L | G]; cbn [ordem].
    + rewrite <- E. reflexivity.
    + apply IZR_lt. exact L.
    + apply IZR_lt. exact G.
  - cbn [racional_cmp]. rewrite valor_finite.
    set (t := 2 ^ Z.max (- e) 0).
    assert (Pt : 0 < t) by (apply Z.pow_pos_nonneg; lia).
    apply IZR_lt in Pt as Pt'.
    apply (Q _ _ _ (IZR t * IZR b)%R); [nra |].
    replace (IZR a / IZR b * (IZR t * IZR b))%R with (IZR (a * t))
      by (rewrite mult_IZR; field; lra).
    replace (IZR (signed s m) * bpow e * (IZR t * IZR b))%R
      with (IZR (signed s m * 2 ^ Z.max e 0 * b)).
    2:{ rewrite !mult_IZR, <- bpow_frac. fold t. ring. }
    destruct (Z.compare_spec (signed s m * 2 ^ Z.max e 0 * b) (a * t)) as [E | L | G];
      cbn [ordem].
    + rewrite E. reflexivity.
    + apply IZR_lt. exact L.
    + apply IZR_lt. exact G.
Qed.

Lemma constante_ok x :
  constante x = true -> binary64 x /\ Number.isFinite x = true.
Proof. unfold constante. rewrite andb_true_iff. auto. Qed.

(** *** Bounds through the operations *)

Lemma nleb_menos_inf B : Number.isFinite B = true -> (S754_infinity true <=? B)%js = true.
Proof. destruct B; try discriminate; reflexivity. Qed.

Lemma nleb_mais_inf B : Number.isFinite B = true -> (B <=? S754_infinity false)%js = true.
Proof. destruct B; try discriminate; reflexivity. Qed.

Lemma num_casos x :
  num x ->
  x = S754_infinity true \/ x = S754_infinity false
  \/ (binary64 x /\ Number.isFinite x = true).
Proof.
  intros [B N]. destruct x as [s | [] | | s m e]; auto. contradiction.
Qed.

Lemma nleb_finito_sup x B :
  num x -> Number.isFinite B = true -> (x <=? B)%js = true ->
  x = S754_infinity true \/ (binary64 x /\ Number.isFinite x = true /\ (valor x <= valor B)%R).
Proof.
  intros Nx FB L. destruct (num_casos x Nx) as [-> | [-> | [Bx Fx]]]; auto.
  - destruct B; discriminate.
  - right. split; [exact Bx |]. split; [exact Fx |]. apply nleb_valor; assumption.
Qed.

Lemma nleb_finito_inf x B :
  num x -> Number.isFinite B = true -> (B <=? x)%js = true ->
  x = S754_infinity false \/ (binary64 x /\ Number.isFinite x = true /\ (valor B <= valor x)%R).
Proof.
  intros Nx FB L. destruct (num_casos x Nx) as [-> | [-> | [Bx Fx]]]; auto.
  - destruct B; discriminate.
  - right. split; [exact Bx |]. split; [exact Fx |]. apply nleb_valor; assumption.
Qed.

Lemma ate_nadd x y B1 B2 :
  num x -> (x <=? B1)%js = true -> Number.isFinite B1 = true ->
  binary64 y -> Number.isFinite y = true ->
  binary64 B2 -> Number.isFinite B2 = true ->
  (valor B1 + valor y <= valor B2)%R ->
  (x + y <=? B2)%js = true.
Proof.
  intros Nx L F1 By Fy B2' F2 H.
  destruct (nleb_finito_sup x B1 Nx F1 L) as [-> | (Bx & Fx & Vx)].
  - destruct y; try discriminate; apply nleb_menos_inf, F2.
  - destruct (nadd_spec x y Bx By Fx Fy) as (_ & _ & U & _).
    apply U; [exact B2' | exact F2 | lra].
Qed.

Lemma ate_nmul x y B1 B2 :
  num x -> (x <=? B1)%js = true -> Number.isFinite B1 = true ->
  positivo y ->
  binary64 B2 -> Number.isFinite B2 = true ->
  (valor B1 * valor y <= valor B2)%R ->
  (x * y <=? B2)%js = true.
Proof.
  intros Nx L F1 Py B2' F2 H. pose proof (positivo_valor y Py) as Vy.
  pose proof Py as (By & my & ey & Ey).
  destruct (nleb_finito_sup x B1 Nx F1 L) as [-> | (Bx & Fx & Vx)].
  - rewrite Ey. apply nleb_menos_inf, F2.
  - destruct (nmul_spec x y Bx By Fx (positivo_finito y Py)) as (_ & _ & U & _).
    apply U; [exact B2' | exact F2 | nra].
Qed.

Lemma ate_ndiv x y B1 B2 :
  num x -> (x <=? B1)%js = true -> Number.isFinite B1 = true ->
  positivo y ->
  binary64 B2 -> Number.isFinite B2 = true ->
  (valor B1 / valor y <= valor B2)%R ->
  (x / y <=? B2)%js = true.
Proof.
  intros Nx L F1 Py B2' F2 H. pose proof (positivo_valor y Py) as Vy.
  pose proof Py as (By & my & ey & Ey).
  destruct (nleb_finito_sup x B1 Nx F1 L) as [-> | (Bx & Fx & Vx)].
  - rewrite Ey. apply nleb_menos_inf, F2.
  - destruct (ndiv_spec x y Fx (positivo_finito y Py) ltac:(lra)) as (_ & _ & U & _).
    apply U; [exact B2' | exact F2 |].
    assert (valor x / valor y <= valor B1 / valor y)%R; [| lra].
    apply Rmult_le_compat_r; [left; apply Rinv_0_lt_compat; exact Vy | exact Vx].
Qed.

Lemma ate_round x B1 B2 K :
  num x -> (x <=? B1)%js = true -> Number.isFinite B1 = true ->
  binary64 B2 -> Number.isFinite B2 = true ->
  (valor B1 <= IZR K)%R -> (IZR K <= valor B2)%R ->
  (Math.round x <=? B2)%js = true.
Proof.
  intros Nx L F1 B2' F2 H1 H2.
  destruct (nleb_finito_sup x B1 Nx F1 L) as [-> | (Bx & Fx & Vx)].
  - apply nleb_menos_inf, F2.
  - destruct x as [s | s | | s m e]; try discriminate.
    + apply nleb_valor; [reflexivity | exact F2 |]. cbn [Math.round]. lra.
    + destruct (Z_le_gt_dec 0 e) as [P | N].
      * cbn [Math.round]. destruct (Z.leb_spec 0 e); [| lia].
        apply nleb_valor; [reflexivity | exact F2 | lra].
      * destruct (round_finite s m e ltac:(lia)) as [-> [Ln _]].
        set (n := (2 * signed s m + 2 ^ (- e)) / 2 ^ (- e + 1)) in *.
        destruct (binary_normalize_spec n 0 s) as (_ & _ & U & _).
        apply U; [exact B2' | exact F2 |].
        rewrite bpow_0', Rmult_1_r.
        assert (IZR n < IZR (K + 1))%R as X by (rewrite plus_IZR; lra).
        apply lt_IZR in X. assert (n <= K) as X' by lia. apply IZR_le in X'. lra.
Qed.

(** Lower bounds *)

Lemma desde_nmul_l y x B1 B2 :
  positivo y -> num x -> (B1 <=? x)%js = true -> Number.isFinite B1 = true ->
  binary64 B2 -> Number.isFinite B2 = true ->
  (valor B2 <= valor y * valor B1)%R ->
  (B2 <=? y * x)%js = true.
Proof.
  intros Py Nx L F1 B2' F2 H. pose proof (positivo_valor y Py) as Vy.
  pose proof Py as (By & my & ey & Ey).
  destruct (nleb_finito_inf x B1 Nx F1 L) as [-> | (Bx & Fx & Vx)].
  - rewrite Ey. apply nleb_mais_inf, F2.
  - destruct (nmul_spec y x By Bx (positivo_finito y Py) Fx) as (_ & _ & _ & Lw).
    apply Lw; [exact B2' | exact F2 | nra].
Qed.

Lemma nsub_num x y :
  binary64 x -> Number.isFinite x = true -> num y -> num (x - y)%js.
Proof.
  intros Bx Fx Ny. destruct (num_casos y Ny) as [-> | [-> | [By Fy]]].
  - destruct x; try discriminate; split; try reflexivity; discriminate.
  - destruct x; try discriminate; split; try reflexivity; discriminate.
  - apply (arredonda_num _ _ (nsub_spec x y Bx By Fx Fy)).
Qed.

Lemma ate_nsub_r x p B1 B2 :
  binary64 x -> Number.isFinite x = true ->
  num p -> (B1 <=? p)%js = true -> Number.isFinite B1 = true ->
  binary64 B2 -> Number.isFinite B2 = true ->
  (valor x - valor B1 <= valor B2)%R ->
  (x - p <=? B2)%js = true.
Proof.
  intros Bx Fx Np L F1 B2' F2 H.
  destruct (nleb_finito_inf p B1 Np F1 L) as [-> | (Bp & Fp & Vp)].
  - destruct x; try discriminate; apply nleb_menos_inf, F2.
  - destruct (nsub_spec x p Bx Bp Fx Fp) as (_ & _ & U & _).
    apply U; [exact B2' | exact F2 | lra].
Qed.

Ltac constante_num :=
  split; [vm_compute; reflexivity | intros H; vm_compute in H; discriminate H].

(** ** The tax before the reduction *)

Lemma escolher_em_in tabela padrao base :
  In (escolher_em tabela padrao base) tabela
  \/ escolher_em tabela padrao base = padrao.
Proof.
  induction tabela as [| f resto IH]; cbn [escolher_em].
  - right. reflexivity.
  - destruct (base <=? limite f)%js; [left; left; reflexivity |].
    destruct IH as [IH | IH]; [left; right; exact IH | right; exact IH].
Qed.

Lemma escolherFaixa_tabela base : In (escolherFaixa base) TABELA_IRRF_052025.
Proof.
  unfold escolherFaixa.
  destruct (escolher_em_in TABELA_IRRF_052025 ultima_faixa base) as [H | ->];
    [exact H |].
  do 4 right. left. reflexivity.
Qed.

Lemma tabela_binary64 f :
  In f TABELA_IRRF_052025 -> binary64 (deducao f) /\ binary64 (aliquota f).
Proof.
  intros H. repeat (destruct H as [<- | H]; [split; vm_compute; reflexivity |]).
  destruct H.
Qed.

Lemma valor_irrf_bruto_nneg rt po qd pa :
  binary64 (valor_irrf_bruto rt po qd pa)
  /\ (of_Z 0 <=? valor_irrf_bruto rt po qd pa)%js = true.
Proof.
  unfold valor_irrf_bruto, aliquota_irrf, deducao_conforme_tabela.
  set (base := base_liquida_irrf rt po qd pa).
  destruct (tabela_binary64 _ (escolherFaixa_tabela base)) as [Bd Ba].
  set (v0 := (base * (aliquota (escolherFaixa base) / of_Z 100)
              - deducao (escolherFaixa base))%js).
  assert (B0 : binary64 v0).
  { apply nsub_binary64; [| exact Bd]. apply nmul_binary64; [| apply ndiv_binary64].
    apply round2_binary64. }
  cbv zeta. destruct (Number.isFinite v0) eqn:F; cbn [negb].
  - destruct (v0 <? of_Z 0)%js eqn:L.
    + split; reflexivity.
    + split; [exact B0 |]. rewrite nltb_zero_finite in L by exact F.
      apply negb_false_iff. exact L.
  - destruct (of_Z 0 <? of_Z 0)%js; split; reflexivity.
Qed.

(** The tax before the reduction is never NaN and never negative, whatever
    the four numbers. *)
Lemma valor_irrf_pos0 rt po qd pa : pos0 (valor_irrf rt po qd pa).
Proof.
  destruct (valor_irrf_bruto_nneg rt po qd pa) as [B N].
  apply round2_pos0; assumption.
Qed.

(** ** The reduction *)

Lemma formula_pl_num rt :
  binary64 rt -> Number.isFinite rt = true ->
  num (lit 97862 100 - lit 133145 1000000 * rt)%js.
Proof.
  intros B F. apply nsub_num; [reflexivity | reflexivity |].
  apply (arredonda_num (valor (lit 133145 1000000) * valor rt)).
  apply nmul_spec; [reflexivity | exact B | reflexivity | exact F].
Qed.

Lemma reducao_inicial_num rt :
  binary64 rt -> Number.isFinite rt = true -> num (V1.reducao_inicial rt).
Proof.
  intros B F. unfold V1.reducao_inicial.
  destruct (rt <=? of_Z 5000)%js; [constante_num |].
  destruct ((rt >? of_Z 5000)%js && (rt <=? of_Z 7350)%js);
    [apply formula_pl_num; assumption | constante_num].
Qed.

Lemma min_num a b : num a -> num b -> num (Math.min a b).
Proof.
  intros Na Nb. destruct (min_casos a b (proj2 Na) (proj2 Nb)) as [[-> _] | [-> _]];
    assumption.
Qed.

Lemma max_num a b : num a -> num b -> num (Math.max a b).
Proof.
  intros Na Nb. destruct (max_casos a b (proj2 Na) (proj2 Nb)) as [[-> _] | [-> _]];
    assumption.
Qed.

Lemma reducao_pl_formula_num rt po qd pa :
  binary64 rt -> Number.isFinite rt = true ->
  num (V2.reducao_pl_formula rt po qd pa).
Proof.
  intros B F. unfold V2.reducao_pl_formula.
  pose proof (pos0_num _ (valor_irrf_pos0 rt po qd pa)) as Nv.
  assert (N0 : num (of_Z 0)) by constante_num.
  apply round2_num, max_num; [exact N0 |]. apply min_num; [| exact Nv].
  destruct (valor_irrf rt po qd pa =? of_Z 0)%js; [exact N0 |].
  destruct (rt <=? of_Z 5000)%js.
  - apply round2_num, min_num; [exact Nv | constante_num].
  - destruct (rt <=? of_Z 7350)%js; [| exact N0].
    apply round2_num, formula_pl_num; assumption.
Qed.

Lemma entradas_validas_rt rt po qd pa :
  entradas_validas rt po qd pa = true -> Number.isFinite rt = true.
Proof.
  unfold entradas_validas. rewrite !andb_true_iff. tauto.
Qed.

(** ** Above 7350 *)

Lemma valor_5000 : valor (of_Z 5000) = 5000%R.
Proof.
  pose proof (racional_cmp_ok (of_Z 5000) 5000 1 ltac:(lia) eq_refl) as H.
  vm_compute racional_cmp in H. cbn [ordem] in H. lra.
Qed.

Lemma valor_7350 : valor (of_Z 7350) = 7350%R.
Proof.
  pose proof (racional_cmp_ok (of_Z 7350) 7350 1 ltac:(lia) eq_refl) as H.
  vm_compute racional_cmp in H. cbn [ordem] in H. lra.
Qed.

Lemma acima_7350 rt :
  Number.isFinite rt = true -> (rt >? of_Z 7350)%js = true ->
  (rt <=? of_Z 5000)%js = false /\ (rt <=? of_Z 7350)%js = false.
Proof.
  intros F G. unfold ngtb in G.
  apply nltb_valor in G; [| reflexivity | exact F]. rewrite valor_7350 in G.
  split; apply not_true_is_false; intros L; apply nleb_valor in L;
    try reflexivity; try exact F; rewrite ?valor_5000, ?valor_7350 in L; lra.
Qed.

Lemma limite_de_zero v :
  sinal v = Some false -> Math.max (of_Z 0) (Math.min (of_Z 0) v) = of_Z 0.
Proof.
  intros S. destruct (pos0_casos v S) as [-> | [-> | (m & e & ->)]]; reflexivity.
Qed.

Lemma reducao_pl_formula_acima rt po qd pa :
  Number.isFinite rt = true -> (rt >? of_Z 7350)%js = true ->
  V2.reducao_pl_formula rt po qd pa = of_Z 0.
Proof.
  intros F G. destruct (acima_7350 rt F G) as [L5 L7].
  unfold V2.reducao_pl_formula. rewrite L5, L7.
  destruct (valor_irrf_pos0 rt po qd pa) as [_ S].
  assert (E : (if (valor_irrf rt po qd pa =? of_Z 0)%js then of_Z 0 else of_Z 0)
              = of_Z 0) by (destruct (_ =? _)%js; reflexivity).
  rewrite E, (limite_de_zero _ S). vm_compute. reflexivity.
Qed.

(** C3, amended.  For every valid body with an income above 7350 both
    revisions answer 200 with the message and without
    [valor_irrf_apos_pl_1087_25], and [valor_irrf] is the tax computed from
    the row of the table as for any other income; the first revision leaves
    [reducao_pl_1087_25] out as well, the second one reports it as 0. *)
Theorem acima_de_7350_mensagem :
  forall body : jsval,
    corpo_valido body = true ->
    (rt_de body >? of_Z 7350)%js = true ->
    let imposto :=
      valor_irrf (rt_de body) (po_de body) (qd_de body) (pa_de body) in
    let r1 := corpo_de (V1.handler body) in
    let r2 := corpo_de (V2.handler body) in
    status_de (V1.handler body) = 200 /\ status_de (V2.handler body) = 200
    /\ get r1 "mensagem" = JStr mensagem_pl
    /\ so_mensagem r1 = true
    /\ get r1 "valor_irrf" = JNum imposto
    /\ get r2 "mensagem" = JStr mensagem_pl
    /\ has r2 "valor_irrf_apos_pl_1087_25" = false
    /\ get r2 "reducao_pl_1087_25" = JNum (of_Z 0)
    /\ get r2 "valor_irrf" = JNum imposto.
Proof.
  intros body V G imposto r1 r2. subst imposto r1 r2.
  unfold V1.handler, V2.handler. rewrite !calcular_irrf_valido by exact V.
  cbn [status_de corpo_de].
  pose proof (corpo_valido_entradas body V) as E.
  pose proof (entradas_validas_rt _ _ _ _ E) as F.
  unfold V1.resposta, V2.resposta, so_mensagem.
  rewrite (reducao_pl_formula_acima _ _ _ _ F G), G.
  destruct (simplificado_minimo_usado (po_de body) (qd_de body) (pa_de body));
    conj_split; reflexivity.
Qed.

Lemma acima_de_7350_mensagem_exemplo :
  let body := corpo_exemplo 8000 0 0 0 in
  corpo_valido body = true
  /\ (rt_de body >? of_Z 7350)%js = true
  /\ get (corpo_de (V2.handler body)) "reducao_pl_1087_25" = JNum (of_Z 0).
Proof.
  intros body.
  assert (V : corpo_valido body = true) by (vm_compute; reflexivity).
  assert (G : (rt_de body >? of_Z 7350)%js = true) by (vm_compute; reflexivity).
  split; [exact V |]. split; [exact G |].
  apply (acima_de_7350_mensagem body V G).
Defined.

(** [valor_de c a b] adds the exact value [a / b] of the constant [c]. *)
Ltac valor_de c a b :=
  let H := fresh "V" in
  pose proof (racional_cmp_ok c a b ltac:(lia) eq_refl) as H;
  vm_compute racional_cmp in H; cbn [ordem] in H.

Ltac constante_finita := split; vm_compute; reflexivity.

(** Closes a goal on the values of constants that [valor_de] has added. *)
Ltac fecha_valores :=
  repeat match goal with
         | H : valor _ = _ |- _ => rewrite ?H; clear H
         end;
  lra.

(** *** The order is transitive *)

Lemma nleb_trans a b c :
  (a <=? b)%js = true -> (b <=? c)%js = true -> (a <=? c)%js = true.
Proof.
  intros H1 H2.
  destruct (Number.isFinite a) eqn:Fa, (Number.isFinite b) eqn:Fb,
    (Number.isFinite c) eqn:Fc.
  - apply nleb_valor in H1, H2; try assumption.
    apply nleb_valor; try assumption. lra.
  - destruct c as [| [] | |]; try discriminate; destruct b; try discriminate;
      destruct a; try discriminate; reflexivity.
  - destruct b as [| [] | |]; try discriminate; destruct a; try discriminate;
      destruct c; try discriminate.
  - destruct b as [| [] | |]; try discriminate; destruct a; try discriminate;
      destruct c as [| [] | |]; try discriminate; reflexivity.
  - destruct a as [| [] | |]; try discriminate; destruct b; try discriminate;
      destruct c; try discriminate; reflexivity.
  - destruct a as [| [] | |]; try discriminate; destruct b; try discriminate;
      destruct c as [| [] | |]; try discriminate; reflexivity.
  - destruct a as [| [] | |]; try discriminate;
      destruct b as [| [] | |]; try discriminate;
      destruct c; try discriminate; reflexivity.
  - destruct a as [| [] | |]; try discriminate;
      destruct b as [| [] | |]; try discriminate;
      destruct c as [| [] | |]; try discriminate; reflexivity.
Qed.

(** *** An upper bound through [round2] *)

Lemma round2_ate x B1 B2 K BK B3 :
  num x -> (x <=? B1)%js = true ->
  constante B1 = true -> constante B2 = true -> constante BK = true ->
  constante B3 = true ->
  (valor B1 + valor Number.EPSILON <= valor B2)%R ->
  (valor B2 * valor (of_Z 100) <= IZR K)%R ->
  valor BK = IZR K ->
  (IZR K / valor (of_Z 100) <= valor B3)%R ->
  (round2 x <=? B3)%js = true.
Proof.
  intros Nx L C1 C2 CK C3 H1 H2 H3 H4.
  apply constante_ok in C1, C2, CK, C3.
  destruct C1 as [b1 f1], C2 as [b2 f2], CK as [bk fk], C3 as [b3 f3].
  destruct EPSILON_positivo as [Be _].
  pose proof (positivo_finito _ EPSILON_positivo) as Fe.
  assert (N1 : num (x + Number.EPSILON)%js) by (apply nadd_num; assumption).
  assert (L1 : (x + Number.EPSILON <=? B2)%js = true)
    by (apply (ate_nadd x _ B1 B2); assumption).
  assert (N2 : num ((x + Number.EPSILON) * of_Z 100)%js)
    by (apply nmul_num; [exact N1 | exact cem_positivo]).
  assert (L2 : ((x + Number.EPSILON) * of_Z 100 <=? BK)%js = true).
  { apply (ate_nmul _ _ B2 BK); try assumption; [exact cem_positivo | lra]. }
  assert (N3 : num (Math.round ((x + Number.EPSILON) * of_Z 100)%js))
    by (apply round_num, N2).
  assert (L3 : (Math.round ((x + Number.EPSILON) * of_Z 100)%js <=? BK)%js = true).
  { apply (ate_round _ BK BK K); try assumption; lra. }
  unfold round2. apply (ate_ndiv _ _ BK B3); try assumption;
    [exact cem_positivo | rewrite H3; exact H4].
Qed.

(** A number at most 979 is rounded to at most 980; one at most 980, to at
    most 981. *)
Lemma round2_ate_980 x :
  num x -> (x <=? of_Z 979)%js = true -> (round2 x <=? of_Z 980)%js = true.
Proof.
  intros Nx L.
  valor_de (of_Z 979) 979 1. valor_de (of_Z 980) 980 1.
  valor_de (of_Z 98000) 98000 1. valor_de (of_Z 100) 100 1.
  valor_de Number.EPSILON 1 4503599627370496.
  apply (round2_ate x (of_Z 979) (of_Z 980) 98000 (of_Z 98000) (of_Z 980));
    try reflexivity; try assumption; fecha_valores.
Qed.

Lemma round2_ate_981 x :
  num x -> (x <=? of_Z 980)%js = true -> (round2 x <=? of_Z 981)%js = true.
Proof.
  intros Nx L.
  valor_de (of_Z 981) 981 1. valor_de (of_Z 980) 980 1.
  valor_de (of_Z 98100) 98100 1. valor_de (of_Z 100) 100 1.
  valor_de Number.EPSILON 1 4503599627370496.
  apply (round2_ate x (of_Z 980) (of_Z 981) 98100 (of_Z 98100) (of_Z 981));
    try reflexivity; try assumption; fecha_valores.
Qed.

(** ** The tax after the reduction *)

Lemma entradas_validas_rt_nneg rt po qd pa :
  entradas_validas rt po qd pa = true -> (of_Z 0 <=? rt)%js = true.
Proof.
  unfold entradas_validas. rewrite !andb_true_iff. tauto.
Qed.

Lemma formula_pl_ate rt :
  binary64 rt -> Number.isFinite rt = true -> (of_Z 0 <=? rt)%js = true ->
  (lit 97862 100 - lit 133145 1000000 * rt <=? of_Z 979)%js = true.
Proof.
  intros B F N.
  assert (Pc : positivo (lit 133145 1000000)) by (split; [reflexivity | vm_compute; eauto]).
  assert (Np : num (lit 133145 1000000 * rt)%js).
  { apply (arredonda_num (valor (lit 133145 1000000) * valor rt)).
    apply nmul_spec; [reflexivity | exact B | reflexivity | exact F]. }
  valor_de (lit 97862 100) 979 1. valor_de (of_Z 979) 979 1.
  assert (Vz : valor (of_Z 0) = 0%R) by reflexivity.
  apply (ate_nsub_r _ _ (of_Z 0) (of_Z 979)); try reflexivity; try assumption.
  - apply (desde_nmul_l _ _ (of_Z 0) (of_Z 0)); try reflexivity; try assumption.
    + split; [exact B | intros ->; discriminate F].
    + rewrite Vz. lra.
  - fecha_valores.
Qed.

Lemma reducao_inicial_ate rt po qd pa :
  entradas_validas rt po qd pa = true -> binary64 rt ->
  (round2 (V1.reducao_inicial rt) <=? of_Z 980)%js = true.
Proof.
  intros V B. pose proof (entradas_validas_rt _ _ _ _ V) as F.
  pose proof (entradas_validas_rt_nneg _ _ _ _ V) as N.
  apply round2_ate_980; [apply reducao_inicial_num; assumption |].
  unfold V1.reducao_inicial.
  destruct (rt <=? of_Z 5000)%js; [vm_compute; reflexivity |].
  destruct ((rt >? of_Z 5000)%js && (rt <=? of_Z 7350)%js);
    [apply formula_pl_ate; assumption | vm_compute; reflexivity].
Qed.

(** The limited reduction stays below any finite bound of the candidate. *)
Lemma limite_reducao_ate R v B :
  R <> NaN -> sinal v = Some false ->
  (R <=? B)%js = true -> (of_Z 0 <=? B)%js = true ->
  (Math.max (of_Z 0) (Math.min R v) <=? B)%js = true.
Proof.
  intros NR Sv LR L0.
  destruct (limite_reducao R v NR Sv) as (_ & _ & [-> | [[-> _] | [-> L]]] & _).
  - exact L0.
  - exact LR.
  - exact (nleb_trans _ _ _ L LR).
Qed.

Lemma nsub_nneg v r B :
  pos0 v -> binary64 r ->
  (of_Z 0 <=? r)%js = true -> (r <=? v)%js = true ->
  (r <=? B)%js = true -> Number.isFinite B = true ->
  binary64 (v - r)%js /\ (of_Z 0 <=? v - r)%js = true.
Proof.
  intros [Bv Sv] Br N L LB FB.
  destruct (nneg_casos r N) as [[s ->] | [-> | (mr & er & ->)]].
  - destruct (pos0_casos v Sv) as [-> | [-> | (m & e & ->)]].
    + destruct s; split; reflexivity.
    + split; reflexivity.
    + split; [exact Bv | reflexivity].
  - destruct B; discriminate.
  - destruct (pos0_casos v Sv) as [-> | [-> | (m & e & ->)]].
    + discriminate L.
    + split; reflexivity.
    + destruct (nsub_spec _ _ Bv Br eq_refl eq_refl) as (Bs & _ & _ & Lw).
      split; [exact Bs |]. apply Lw; [reflexivity | reflexivity |].
      apply nleb_valor in L; [| reflexivity | reflexivity].
      change (valor (of_Z 0)) with 0%R. lra.
Qed.

Lemma apos_v1_nneg rt po qd pa :
  entradas_validas rt po qd pa = true -> binary64 rt ->
  (of_Z 0 <=? V1.valor_irrf_apos_pl_1087_25 rt po qd pa)%js = true.
Proof.
  intros V B. pose proof (entradas_validas_rt _ _ _ _ V) as F.
  pose proof (valor_irrf_pos0 rt po qd pa) as Pv. pose proof Pv as [Bv Sv].
  pose proof (round2_num _ (reducao_inicial_num rt B F)) as [BR NR].
  destruct (limite_reducao _ _ NR Sv) as (H1 & H2 & _).
  pose proof (limite_reducao_ate _ _ (of_Z 980) NR Sv
                (reducao_inicial_ate rt po qd pa V B) eq_refl) as H3.
  unfold V1.valor_irrf_apos_pl_1087_25, V1.reducao_pl_1087_25.
  destruct (nsub_nneg _ _ (of_Z 980) Pv
              (max_binary64 (of_Z 0) _ eq_refl (min_binary64 _ _ BR Bv)) H1 H2 H3 eq_refl)
    as [Bs Ns].
  apply pos0_nneg. apply (round2_pos0 _ Bs Ns).
Qed.

Lemma reducao_pl_formula_ate rt po qd pa :
  entradas_validas rt po qd pa = true -> binary64 rt ->
  (V2.reducao_pl_formula rt po qd pa <=? of_Z 981)%js = true.
Proof.
  intros V B. pose proof (entradas_validas_rt _ _ _ _ V) as F.
  pose proof (entradas_validas_rt_nneg _ _ _ _ V) as N.
  pose proof (valor_irrf_pos0 rt po qd pa) as Pv. pose proof Pv as [Bv Sv].
  pose proof (pos0_num _ Pv) as Nv.
  assert (N0 : num (of_Z 0)) by constante_num.
  unfold V2.reducao_pl_formula.
  set (rpf := if (rt <=? of_Z 5000)%js
              then round2 (Math.min (valor_irrf rt po qd pa) (lit 31289 100))
              else if (rt <=? of_Z 7350)%js
                   then round2 (lit 97862 100 - lit 133145 1000000 * rt)%js
                   else of_Z 0).
  assert (Nr : num rpf /\ (rpf <=? of_Z 980)%js = true).
  { unfold rpf. destruct (rt <=? of_Z 5000)%js.
    - assert (Nm : num (Math.min (valor_irrf rt po qd pa) (lit 31289 100)))
        by (apply min_num; [exact Nv | constante_num]).
      split; [apply round2_num, Nm |]. apply round2_ate_980; [exact Nm |].
      destruct (min_casos (valor_irrf rt po qd pa) (lit 31289 100) (proj2 Nv)
                  ltac:(discriminate)) as [[-> L] | [-> L]].
      + apply (nleb_trans _ _ _ L). vm_compute. reflexivity.
      + vm_compute. reflexivity.
    - destruct (rt <=? of_Z 7350)%js.
      + split; [apply round2_num, formula_pl_num; assumption |].
        apply round2_ate_980; [apply formula_pl_num; assumption |].
        apply formula_pl_ate; assumption.
      + split; [exact N0 | vm_compute; reflexivity]. }
  clearbody rpf. destruct Nr as [Nr Lr].
  set (rpf' := if (valor_irrf rt po qd pa =? of_Z 0)%js then of_Z 0 else rpf).
  assert (Nr' : num rpf' /\ (rpf' <=? of_Z 980)%js = true).
  { unfold rpf'. destruct (valor_irrf rt po qd pa =? of_Z 0)%js;
      [split; [exact N0 | vm_compute; reflexivity] | split; assumption]. }
  clearbody rpf'. destruct Nr' as [Nr' Lr'].
  apply round2_ate_981.
  - apply max_num; [exact N0 |]. apply min_num; assumption.
  - apply limite_reducao_ate; [exact (proj2 Nr') | exact Sv | exact Lr' | reflexivity].
Qed.

Lemma apos_v2_nneg rt po qd pa :
  entradas_validas rt po qd pa = true -> binary64 rt ->
  (of_Z 0 <=? V2.valor_irrf_apos_pl_1087_25 rt po qd pa)%js = true.
Proof.
  intros V B. pose proof (entradas_validas_rt _ _ _ _ V) as F.
  pose proof (valor_irrf_pos0 rt po qd pa) as Pv. pose proof Pv as [Bv Sv].
  pose proof (reducao_pl_formula_num rt po qd pa B F) as [BR NR].
  destruct (limite_reducao _ _ NR Sv) as (H1 & H2 & _).
  pose proof (limite_reducao_ate _ _ (of_Z 981) NR Sv
                (reducao_pl_formula_ate rt po qd pa V B) eq_refl) as H3.
  unfold V2.valor_irrf_apos_pl_1087_25, V2.reducao_pl_aplicada.
  destruct (nsub_nneg _ _ (of_Z 981) Pv
              (max_binary64 (of_Z 0) _ eq_refl (min_binary64 _ _ BR Bv)) H1 H2 H3 eq_refl)
    as [Bs Ns].
  apply pos0_nneg. apply (round2_pos0 _ Bs Ns).
Qed.

(** C6.  For every valid input the tax before the reduction and the tax
    after the reduction, in either revision, are at least 0. *)
Theorem imposto_nao_negativo :
  forall rt po qd pa : number,
    entradas_validas rt po qd pa = true -> binary64 rt ->
    (of_Z 0 <=? valor_irrf rt po qd pa)%js = true
    /\ (of_Z 0 <=? V1.valor_irrf_apos_pl_1087_25 rt po qd pa)%js = true
    /\ (of_Z 0 <=? V2.valor_irrf_apos_pl_1087_25 rt po qd pa)%js = true.
Proof.
  intros rt po qd pa V B. split; [| split].
  - apply pos0_nneg. apply (valor_irrf_pos0 rt po qd pa).
  - apply apos_v1_nneg; assumption.
  - apply apos_v2_nneg; assumption.
Qed.

Lemma imposto_nao_negativo_exemplo :
  let rt := of_Z 6000 in
  let po := of_Z 500 in
  let qd := of_Z 1 in
  let pa := of_Z 0 in
  entradas_validas rt po qd pa = true /\ binary64 rt
  /\ (of_Z 0 <=? V1.valor_irrf_apos_pl_1087_25 rt po qd pa)%js = true.
Proof.
  intros rt po qd pa.
  assert (V : entradas_validas rt po qd pa = true) by (vm_compute; reflexivity).
  assert (B : binary64 rt) by (vm_compute; reflexivity).
  split; [exact V |]. split; [exact B |].
  apply (imposto_nao_negativo rt po qd pa V B).
Defined.

Lemma number_eqb_eq x y : number_eqb x y = true -> x = y.
Proof.
  destruct x as [a | a | | a m e], y as [b | b | | b m' e']; try discriminate;
    cbn [number_eqb]; intros H.
  - apply Bool.eqb_prop in H. congruence.
  - apply Bool.eqb_prop in H. congruence.
  - reflexivity.
  - rewrite !andb_true_iff in H. destruct H as [[H1 H2] H3].
    apply Bool.eqb_prop in H1. apply Pos.eqb_eq in H2. apply Z.eqb_eq in H3.
    congruence.
Qed.

Lemma todos_fixos_ok n : forall k j,
  todos_fixos n k = true -> k <= j < k + Z.of_nat n -> centavos_fixos j = true.
Proof.
  induction n as [| n IH]; intros k j H R.
  - lia.
  - cbn [todos_fixos] in H. apply andb_true_iff in H. destruct H as [H1 H2].
    destruct (Z.eq_dec j k) as [-> | N]; [exact H1 |].
    apply (IH (k + 1)); [exact H2 | lia].
Qed.

Lemma centavos_ate_31300 : todos_fixos (Z.to_nat 31300) 0 = true.
Proof. vm_compute. reflexivity. Qed.

(** [round2] is the identity on every amount of less than 31300 cents. *)
Lemma round2_centavos n :
  0 <= n < 31300 -> round2 (lit n 100) = lit n 100.
Proof.
  intros R. apply number_eqb_eq.
  apply (todos_fixos_ok (Z.to_nat 31300) 0 n centavos_ate_31300).
  rewrite Z2Nat.id; lia.
Qed.

(** *** Signs *)

Lemma arred_abs_forma s v r : arred_abs s v r -> sinal r = Some s.
Proof.
  intros (_ & [-> | [-> | (m & e & ->)]] & _); reflexivity.
Qed.

Lemma binary_normalize_sinal n e sz :
  sinal (binary_normalize prec emax n e sz) = Some false ->
  binary_normalize prec emax n e sz = binary_normalize prec emax n e false
  /\ 0 <= n.
Proof.
  destruct n as [| p | p]; cbn [binary_normalize]; intros H.
  - cbn in H. split; [congruence | lia].
  - split; [reflexivity | lia].
  - rewrite (arred_abs_forma _ _ _ (binary_round_spec true p e)) in H. discriminate H.
Qed.

Lemma sinal_ndiv_cem c : c <> NaN -> sinal (c / of_Z 100)%js = sinal c.
Proof.
  intros N. destruct c as [s | s | | s m e]; try contradiction.
  - cbn. rewrite xorb_false_r. reflexivity.
  - cbn. rewrite xorb_false_r. reflexivity.
  - change (of_Z 100) with (S754_finite false 7036874417766400 (-46)).
    destruct (ndiv_finite s m e false 7036874417766400 (-46))
      as (_ & (s' & -> & Sp & Sn) & _).
    pose proof (valor_sinal s m e) as X.
    pose proof (valor_sinal false 7036874417766400 (-46)) as Y. cbn beta iota in Y.
    cbn [sinal]. f_equal. destruct s.
    + apply Sn. apply Ropp_lt_cancel. rewrite Ropp_0.
      replace (- (valor (S754_finite true m e)
                  / valor (S754_finite false 7036874417766400 (-46))))%R
        with ((- valor (S754_finite true m e))
              / valor (S754_finite false 7036874417766400 (-46)))%R by (field; lra).
      apply Rmult_lt_0_compat; [lra | apply Rinv_0_lt_compat; exact Y].
    + apply Sp. apply Rmult_lt_0_compat; [exact X | apply Rinv_0_lt_compat; exact Y].
Qed.

(** *** A binary64 number with a non-negative exponent is at least 2^52 *)

Lemma binary64_inteiro m e :
  binary64 (S754_finite false m e) -> 0 <= e ->
  (4503599627370496 <= valor (S754_finite false m e))%R.
Proof.
  intros B He. unfold binary64 in B. cbn [valid_binary] in B.
  apply bounded_spec in B. destruct B as [C _]. rewrite fexp_eq in C.
  change (Zpos (digits2_pos m)) with (Zdigits2 (Zpos m)) in C.
  pose proof (Zdigits2_bounds (Zpos m) ltac:(lia)) as [L _].
  assert (Zdigits2 (Zpos m) = 53) as D by lia. rewrite D in L.
  change (2 ^ (53 - 1)) with 4503599627370496 in L.
  rewrite valor_finite. cbn [signed cond_Zopp].
  apply IZR_le in L. pose proof (bpow_ge_1 e He). nra.
Qed.

(** *** Lower bounds *)

Lemma desde_of_Z K n :
  constante (of_Z K) = true -> valor (of_Z K) = IZR K -> K <= n ->
  (of_Z K <=? of_Z n)%js = true.
Proof.
  intros C V L. apply constante_ok in C. destruct C as [B F].
  destruct (binary_normalize_spec n 0 false) as (_ & _ & _ & Lw).
  apply Lw; [exact B | exact F |].
  rewrite V, bpow_0', Rmult_1_r. apply IZR_le. exact L.
Qed.

Lemma desde_ndiv x y B1 B2 :
  num x -> (B1 <=? x)%js = true -> Number.isFinite B1 = true ->
  positivo y ->
  binary64 B2 -> Number.isFinite B2 = true ->
  (valor B2 <= valor B1 / valor y)%R ->
  (B2 <=? x / y)%js = true.
Proof.
  intros Nx L F1 Py B2' F2 H. pose proof (positivo_valor y Py) as Vy.
  pose proof Py as (By & my & ey & Ey).
  destruct (nleb_finito_inf x B1 Nx F1 L) as [-> | (Bx & Fx & Vx)].
  - rewrite Ey. apply nleb_mais_inf, F2.
  - destruct (ndiv_spec x y Fx (positivo_finito y Py) ltac:(lra)) as (_ & _ & _ & Lw).
    apply Lw; [exact B2' | exact F2 |].
    assert (valor B1 / valor y <= valor x / valor y)%R; [| lra].
    apply Rmult_le_compat_r; [left; apply Rinv_0_lt_compat; exact Vy | exact Vx].
Qed.

Lemma of_Z_num n : num (of_Z n).
Proof.
  apply (arredonda_num (IZR n * bpow 0)). apply binary_normalize_spec.
Qed.

Lemma ndiv_cem_grande n :
  31300 <= n -> (lit 312995 1000 <=? lit n 100)%js = true.
Proof.
  intros L. unfold lit at 2.
  valor_de (of_Z 31300) 31300 1. valor_de (of_Z 100) 100 1.
  valor_de (lit 312995 1000) 312996 1000.
  apply (desde_ndiv _ _ (of_Z 31300)); try reflexivity.
  - apply of_Z_num.
  - apply desde_of_Z; [reflexivity | lra | exact L].
  - exact cem_positivo.
  - fecha_valores.
Qed.

Lemma ndiv_inteiro_grande m e :
  binary64 (S754_finite false m e) -> 0 <= e ->
  (of_Z 1000 <=? S754_finite false m e / of_Z 100)%js = true.
Proof.
  intros B He. pose proof (binary64_inteiro m e B He) as G.
  valor_de (of_Z 1000) 1000 1. valor_de (of_Z 100) 100 1.
  destruct (ndiv_spec (S754_finite false m e) (of_Z 100) eq_refl eq_refl ltac:(lra))
    as (_ & _ & _ & Lw).
  apply Lw; [reflexivity | reflexivity |]. rewrite V, V0. lra.
Qed.

(** *** [round2] is the identity on what it returns, up to 312.98 *)

Lemma round2_fixo x :
  binary64 x -> x <> NaN -> sinal (round2 x) = Some false ->
  (round2 x <=? lit 31298 100)%js = true ->
  round2 (round2 x) = round2 x.
Proof.
  intros Bx Nx S L. unfold round2 in S, L |- * at 2 3.
  set (b := ((x + Number.EPSILON) * of_Z 100)%js) in *.
  assert (Nb : num b).
  { apply nmul_num; [| exact cem_positivo].
    apply nadd_num; [split; assumption | apply EPSILON_positivo | reflexivity]. }
  assert (Nc : Math.round b <> NaN) by apply (round_num b Nb).
  rewrite (sinal_ndiv_cem _ Nc) in S.
  assert (E : exists n, 0 <= n < 31300 /\ Math.round b = of_Z n).
  { destruct Nb as [Bb Nb]. destruct b as [s | s | | s m e]; try contradiction.
    - exists 0. split; [lia |]. cbn in S. injection S as ->. reflexivity.
    - cbn in S. injection S as ->. discriminate L.
    - destruct (Z_le_gt_dec 0 e) as [P | N].
      + exfalso. cbn [Math.round] in S, L. destruct (Z.leb_spec 0 e); [| lia].
        cbn in S. injection S as ->.
        pose proof (nleb_trans _ _ _ (ndiv_inteiro_grande m e Bb P) L) as X.
        vm_compute in X. discriminate X.
      + destruct (round_finite s m e ltac:(lia)) as [Er _]. rewrite Er in S, L |- *.
        set (n := (2 * signed s m + 2 ^ (- e)) / 2 ^ (- e + 1)) in *.
        destruct (binary_normalize_sinal n 0 s S) as [En Pn].
        exists n. split; [| exact En].
        split; [exact Pn |].
        destruct (Z_lt_le_dec n 31300) as [| G]; [assumption | exfalso].
        rewrite En in L. pose proof (nleb_trans _ _ _ (ndiv_cem_grande n G) L) as X.
        vm_compute in X. discriminate X. }
  destruct E as (n & Rn & ->). apply (round2_centavos n Rn).
Qed.

(** *** Two positive binary64 numbers of the same value are the same *)

Lemma binary64_antisym x y :
  binary64 x -> binary64 y ->
  (exists m e, x = S754_finite false m e) ->
  (x <=? y)%js = true -> (y <=? x)%js = true -> x = y.
Proof.
  intros Bx By (mx & ex & ->) L1 L2.
  destruct y as [s | [] | | s my ey]; try discriminate.
  apply nleb_valor in L1; [| reflexivity | reflexivity].
  apply nleb_valor in L2; [| reflexivity | reflexivity].
  destruct s.
  { exfalso. pose proof (valor_sinal false mx ex) as X.
    pose proof (valor_sinal true my ey) as Y. cbn beta iota in X, Y. lra. }
  rewrite !valor_finite in L1, L2. cbn [signed cond_Zopp] in L1, L2.
  unfold binary64 in Bx, By. cbn [valid_binary] in Bx, By.
  apply bounded_spec in Bx, By. destruct Bx as [Cx _], By as [Cy _].
  change (Zpos (digits2_pos mx)) with (Zdigits2 (Zpos mx)) in Cx.
  change (Zpos (digits2_pos my)) with (Zdigits2 (Zpos my)) in Cy.
  pose proof (mag_mono (Zpos mx) ex (Zpos my) ey (Pos2Z.is_pos mx)
                (Pos2Z.is_nonneg my) L1) as M1.
  pose proof (mag_mono (Zpos my) ey (Zpos mx) ex (Pos2Z.is_pos my)
                (Pos2Z.is_nonneg mx) L2) as M2.
  assert (ex = ey) as <-.
  { rewrite <- Cx, <- Cy. f_equal. lia. }
  pose proof (bpow_pos ex) as P.
  assert (IZR (Zpos mx) = IZR (Zpos my)) as Em by nra.
  apply eq_IZR in Em. congruence.
Qed.

(** ** The two revisions agree *)

Lemma ncompare_refl a : a <> NaN -> ncompare a a = Some Eq.
Proof.
  intros N. destruct a as [s | [] | | s m e]; try contradiction; cbn [ncompare];
    try reflexivity.
  rewrite Z.compare_refl. reflexivity.
Qed.

Lemma max_zero_sinal t : t <> NaN -> sinal (Math.max (of_Z 0) t) = Some false.
Proof.
  intros N. destruct t as [[] | [] | | [] m e]; try contradiction; reflexivity.
Qed.

Lemma max_zero_pos0 t : sinal t = Some false -> Math.max (of_Z 0) t = t.
Proof.
  intros S. destruct (pos0_casos t S) as [-> | [-> | (m & e & ->)]]; reflexivity.
Qed.

(** The limit keeps a candidate that is neither negative nor above the
    tax. *)
Lemma limite_mantem R v :
  sinal R = Some false -> sinal v = Some false -> (R <=? v)%js = true ->
  Math.max (of_Z 0) (Math.min R v) = R.
Proof.
  intros SR Sv L.
  assert (M : Math.min R v = R).
  { unfold Math.min. unfold nleb in L.
    destruct (ncompare R v) as [[] |] eqn:C; try discriminate L; [| reflexivity].
    destruct (pos0_casos R SR) as [-> | [-> | (m & e & ->)]]; try reflexivity.
    destruct (pos0_casos v Sv) as [-> | [-> | (m & e & ->)]];
      [reflexivity | discriminate C | discriminate C]. }
  rewrite M. apply max_zero_pos0, SR.
Qed.

(** The limit returns the tax when the candidate is at least the tax. *)
Lemma limite_imposto R v :
  binary64 R -> binary64 v -> R <> NaN -> sinal v = Some false ->
  (v <=? R)%js = true ->
  Math.max (of_Z 0) (Math.min R v) = v.
Proof.
  intros BR Bv NR Sv L.
  assert (Nv : v <> NaN) by (intros ->; discriminate Sv).
  destruct (min_casos R v NR Nv) as [[E L'] | [E _]]; rewrite E;
    [| apply max_zero_pos0, Sv].
  destruct (pos0_casos v Sv) as [-> | [-> | (m & e & ->)]].
  - destruct R as [[] | [] | | [] mR eR]; try contradiction; try discriminate L;
      try discriminate L'; reflexivity.
  - destruct R as [[] | [] | | [] mR eR]; try contradiction; try discriminate L;
      reflexivity.
  - rewrite <- (binary64_antisym (S754_finite false m e) R Bv BR); eauto.
Qed.

Lemma limite_idem R v :
  R <> NaN -> sinal v = Some false ->
  let r := Math.max (of_Z 0) (Math.min R v) in
  Math.max (of_Z 0) (Math.min r v) = r.
Proof.
  intros NR Sv r.
  assert (Nv : v <> NaN) by (intros ->; discriminate Sv).
  destruct (limite_reducao R v NR Sv) as (_ & L & _).
  apply limite_mantem; [| exact Sv | exact L].
  apply max_zero_sinal.
  destruct (min_casos R v NR Nv) as [[-> _] | [-> _]]; assumption.
Qed.

(** *** The candidate of the middle range is at most 312.98 *)

Lemma formula_pl_ate_31298 rt :
  binary64 rt -> Number.isFinite rt = true -> (of_Z 5000 <? rt)%js = true ->
  (round2 (lit 97862 100 - lit 133145 1000000 * rt) <=? lit 31298 100)%js = true.
Proof.
  intros B F G.
  assert (Pc : positivo (lit 133145 1000000))
    by (split; [reflexivity | vm_compute; eauto]).
  assert (Nr : num rt) by (split; [exact B | intros ->; discriminate F]).
  assert (G' : (of_Z 5000 <=? rt)%js = true).
  { apply nltb_valor in G; [| reflexivity | exact F].
    apply nleb_valor; [reflexivity | exact F | lra]. }
  assert (Lp : (lit 6657 10 <=? lit 133145 1000000 * rt)%js = true).
  { apply (desde_nmul_l _ _ (of_Z 5000)); try reflexivity; try assumption.
    valor_de (lit 133145 1000000) 1331449 10000000. valor_de (of_Z 5000) 5000 1.
    valor_de (lit 6657 10) 66571 100. fecha_valores. }
  assert (Np : num (lit 133145 1000000 * rt)%js).
  { apply (arredonda_num (valor (lit 133145 1000000) * valor rt)).
    apply nmul_spec; [reflexivity | exact B | reflexivity | exact F]. }
  assert (Lx : (lit 97862 100 - lit 133145 1000000 * rt <=? lit 31295 100)%js = true).
  { apply (ate_nsub_r _ _ (lit 6657 10)); try reflexivity; try assumption.
    valor_de (lit 97862 100) 97863 100. valor_de (lit 6657 10) 66569 100.
    valor_de (lit 31295 100) 31294 100. lra. }
  valor_de (lit 31295 100) 312951 1000. valor_de (lit 31296 100) 312959 1000.
  valor_de (lit 31296 100) 312961 1000. valor_de (of_Z 31297) 31297 1.
  valor_de (lit 31298 100) 312979 1000. valor_de (of_Z 100) 100 1.
  valor_de Number.EPSILON 1 4503599627370496.
  apply (round2_ate _ (lit 31295 100) (lit 31296 100) 31297 (of_Z 31297)
           (lit 31298 100)); try reflexivity.
  - apply formula_pl_num; assumption.
  - exact Lx.
  - lra.
  - rewrite V4. lra.
  - lra.
  - rewrite V4. lra.
Qed.

(** *** The reduction of the second revision is the one of the first *)

Lemma round2_zero : round2 (of_Z 0) = of_Z 0.
Proof. vm_compute. reflexivity. Qed.

Lemma round2_31289 : round2 (lit 31289 100) = lit 31289 100.
Proof. vm_compute. reflexivity. Qed.

Lemma zero_pos0 v :
  sinal v = Some false -> (v =? of_Z 0)%js = true -> v = of_Z 0.
Proof.
  intros S Z. destruct (pos0_casos v S) as [-> | [-> | (m & e & ->)]];
    [reflexivity | discriminate Z | discriminate Z].
Qed.

Lemma valor_irrf_fixo rt po qd pa :
  (valor_irrf rt po qd pa <=? lit 31298 100)%js = true ->
  round2 (valor_irrf rt po qd pa) = valor_irrf rt po qd pa.
Proof.
  intros L. destruct (valor_irrf_bruto_nneg rt po qd pa) as [Bb Nb].
  destruct (valor_irrf_pos0 rt po qd pa) as [_ Sv].
  unfold valor_irrf in *. apply round2_fixo; try assumption.
  intros E. rewrite E in Nb. discriminate Nb.
Qed.

(** What the second revision computes from its candidate [P], against the
    limited reduction [r] of the first revision. *)
Lemma segunda_pela_primeira P r v :
  sinal v = Some false ->
  Math.max (of_Z 0) (Math.min P v) = r ->
  Math.max (of_Z 0) (Math.min r v) = r ->
  round2 r = r ->
  round2 (Math.max (of_Z 0) (Math.min P v)) = r
  /\ Math.max (of_Z 0)
       (Math.min (round2 (Math.max (of_Z 0) (Math.min P v))) v) = r.
Proof.
  intros Sv E I F. rewrite E, F. split; [reflexivity | exact I].
Qed.

Lemma limite_sem_imposto R v :
  R <> NaN -> sinal v = Some false -> (v =? of_Z 0)%js = true ->
  Math.max (of_Z 0) (Math.min R v) = of_Z 0.
Proof.
  intros NR Sv Z. destruct (limite_reducao R v NR Sv) as (_ & _ & _ & H). exact (H Z).
Qed.

Lemma reducoes_iguais rt po qd pa :
  entradas_validas rt po qd pa = true -> binary64 rt ->
  V2.reducao_pl_formula rt po qd pa = V1.reducao_pl_1087_25 rt po qd pa
  /\ V2.reducao_pl_aplicada rt po qd pa = V1.reducao_pl_1087_25 rt po qd pa.
Proof.
  intros V B. pose proof (entradas_validas_rt _ _ _ _ V) as F.
  pose proof (valor_irrf_pos0 rt po qd pa) as [Bv Sv].
  assert (Nv : valor_irrf rt po qd pa <> NaN) by (intros E; rewrite E in Sv; discriminate Sv).
  unfold V2.reducao_pl_aplicada, V2.reducao_pl_formula, V1.reducao_pl_1087_25,
    V1.reducao_inicial.
  cbv zeta.
  set (v := valor_irrf rt po qd pa) in *.
  assert (G0 : Math.max (of_Z 0) (Math.min (of_Z 0) v) = of_Z 0)
    by (apply limite_de_zero, Sv).
  destruct (rt <=? of_Z 5000)%js eqn:L5.
  - (* up to 5000 *)
    rewrite round2_31289.
    assert (Nc : lit 31289 100 <> NaN) by discriminate.
    destruct (v =? of_Z 0)%js eqn:Z.
    + rewrite (limite_sem_imposto _ v Nc Sv Z). apply segunda_pela_primeira;
        [exact Sv | exact G0 | exact G0 | exact round2_zero].
    + destruct (min_casos v (lit 31289 100) Nv Nc) as [[Em Lm] | [Em Lm]]; rewrite Em.
      * assert (Fv : round2 v = v).
        { apply valor_irrf_fixo. apply (nleb_trans _ _ _ Lm). vm_compute. reflexivity. }
        rewrite Fv.
        assert (E1 : Math.max (of_Z 0) (Math.min (lit 31289 100) v) = v)
          by (apply limite_imposto; try assumption; reflexivity).
        rewrite E1. apply segunda_pela_primeira; try assumption;
          apply limite_mantem; try assumption; apply nleb_refl, Nv.
      * rewrite round2_31289.
        assert (E1 : Math.max (of_Z 0) (Math.min (lit 31289 100) v) = lit 31289 100)
          by (apply limite_mantem; [reflexivity | exact Sv | exact Lm]).
        apply segunda_pela_primeira; [exact Sv | reflexivity | | ].
        -- rewrite E1. exact E1.
        -- rewrite E1. exact round2_31289.
  - (* above 5000 *)
    assert (G5 : (rt >? of_Z 5000)%js = true).
    { unfold ngtb. apply nltb_valor; [reflexivity | exact F |].
      destruct (Rle_or_lt (valor rt) (valor (of_Z 5000))) as [X | X]; [| exact X].
      apply nleb_valor in X; [| exact F | reflexivity]. congruence. }
    rewrite G5. cbn [andb].
    destruct (rt <=? of_Z 7350)%js eqn:L7.
    + (* up to 7350 *)
      set (Rx := round2 (lit 97862 100 - lit 133145 1000000 * rt)%js).
      pose proof (formula_pl_num rt B F) as [BX NX].
      assert (NR : Rx <> NaN) by apply (round2_num _ (conj BX NX)).
      assert (LR : (Rx <=? lit 31298 100)%js = true)
        by (apply formula_pl_ate_31298; assumption).
      destruct (v =? of_Z 0)%js eqn:Z.
      * rewrite (limite_sem_imposto _ v NR Sv Z). apply segunda_pela_primeira;
          [exact Sv | exact G0 | exact G0 | exact round2_zero].
      * apply segunda_pela_primeira; [exact Sv | reflexivity | | ].
        -- apply (limite_idem Rx v NR Sv).
        -- destruct (limite_reducao Rx v NR Sv) as (_ & _ & [E | [[E _] | [E Lv]]] & _).
           ++ rewrite E. exact round2_zero.
           ++ pose proof (max_zero_sinal (Math.min Rx v)) as S.
              rewrite E in S |- *. apply round2_fixo; try assumption.
              apply S. destruct (min_casos Rx v NR Nv) as [[-> _] | [-> _]]; assumption.
           ++ rewrite E. apply valor_irrf_fixo. exact (nleb_trans _ _ _ Lv LR).
    + (* above 7350 *)
      rewrite round2_zero.
      assert (EP : (if (v =? of_Z 0)%js then of_Z 0 else of_Z 0) = of_Z 0)
        by (destruct (v =? of_Z 0)%js; reflexivity).
      rewrite EP, G0, round2_zero. split; [reflexivity | exact G0].
Qed.

(** ** The bounds of the reduction *)

(** C5.  For every valid input the final reduction of either revision (the
    value subtracted from the tax, and the value the second revision
    reports) lies between 0 and the tax before the reduction, and it is 0
    whenever that tax is 0, on every branch of the income. *)
Theorem reducao_limitada_ao_imposto :
  forall rt po qd pa : number,
    entradas_validas rt po qd pa = true -> binary64 rt ->
    let valor_irrf := valor_irrf rt po qd pa in
    forall reducao : number,
      reducao = V1.reducao_pl_1087_25 rt po qd pa
      \/ reducao = V2.reducao_pl_formula rt po qd pa
      \/ reducao = V2.reducao_pl_aplicada rt po qd pa ->
      (of_Z 0 <=? reducao)%js = true
      /\ (reducao <=? valor_irrf)%js = true
      /\ ((valor_irrf =? of_Z 0)%js = true -> reducao = of_Z 0).
Proof.
  intros rt po qd pa V B v r Hr. pose proof (entradas_validas_rt _ _ _ _ V) as F.
  destruct (valor_irrf_pos0 rt po qd pa) as [_ Sv].
  destruct (reducoes_iguais rt po qd pa V B) as [E1 E2].
  assert (E : r = V1.reducao_pl_1087_25 rt po qd pa)
    by (destruct Hr as [-> | [-> | ->]]; [reflexivity | exact E1 | exact E2]).
  rewrite E. clear E Hr E1 E2.
  pose proof (round2_num _ (reducao_inicial_num rt B F)) as [_ NR].
  destruct (limite_reducao _ _ NR Sv) as (H1 & H2 & _ & H4). auto.
Qed.

Lemma reducao_limitada_ao_imposto_exemplo :
  let rt := of_Z 5000 in
  let po := of_Z 750 in
  let qd := of_Z 2 in
  let pa := of_Z 0 in
  entradas_validas rt po qd pa = true /\ binary64 rt
  /\ (V1.reducao_pl_1087_25 rt po qd pa <=? valor_irrf rt po qd pa)%js = true
  /\ (V2.reducao_pl_formula rt po qd pa <=? valor_irrf rt po qd pa)%js = true
  /\ (V2.reducao_pl_aplicada rt po qd pa <=? valor_irrf rt po qd pa)%js = true.
Proof.
  intros rt po qd pa.
  assert (V : entradas_validas rt po qd pa = true) by (vm_compute; reflexivity).
  assert (B : binary64 rt) by (vm_compute; reflexivity).
  split; [exact V |]. split; [exact B |]. split; [| split].
  - apply (reducao_limitada_ao_imposto rt po qd pa V B). left. reflexivity.
  - apply (reducao_limitada_ao_imposto rt po qd pa V B). right. left. reflexivity.
  - apply (reducao_limitada_ao_imposto rt po qd pa V B). right. right. reflexivity.
Defined.

(** C10.  For every valid input the two revisions compute the same figures:
    the reduction the second revision reports ([reducao_pl_formula]) and the
    one it applies ([reducao_pl_aplicada]) are the reduction of the first
    revision, the tax after the reduction is the same, and so are the
    properties [valor_irrf] and [valor_irrf_apos_pl_1087_25] of the two
    responses and, up to 7350, the property [reducao_pl_1087_25]. *)
Theorem revisoes_equivalentes :
  forall rt po qd pa : number,
    entradas_validas rt po qd pa = true -> binary64 rt ->
    let r1 := JObj (V1.resposta rt po qd pa) in
    let r2 := JObj (V2.resposta rt po qd pa) in
    V2.reducao_pl_formula rt po qd pa = V1.reducao_pl_1087_25 rt po qd pa
    /\ V2.reducao_pl_aplicada rt po qd pa = V1.reducao_pl_1087_25 rt po qd pa
    /\ V2.valor_irrf_apos_pl_1087_25 rt po qd pa
       = V1.valor_irrf_apos_pl_1087_25 rt po qd pa
    /\ get r2 "valor_irrf" = get r1 "valor_irrf"
    /\ get r2 "valor_irrf_apos_pl_1087_25" = get r1 "valor_irrf_apos_pl_1087_25"
    /\ ((rt >? of_Z 7350)%js = false ->
        get r2 "reducao_pl_1087_25" = get r1 "reducao_pl_1087_25").
Proof.
  intros rt po qd pa V B r1 r2. subst r1 r2.
  destruct (reducoes_iguais rt po qd pa V B) as [E1 E2].
  assert (E3 : V2.valor_irrf_apos_pl_1087_25 rt po qd pa
               = V1.valor_irrf_apos_pl_1087_25 rt po qd pa).
  { unfold V2.valor_irrf_apos_pl_1087_25, V1.valor_irrf_apos_pl_1087_25.
    rewrite E2. reflexivity. }
  split; [exact E1 |]. split; [exact E2 |]. split; [exact E3 |].
  unfold V1.resposta, V2.resposta. rewrite E1, E3.
  destruct (simplificado_minimo_usado po qd pa), (rt >? of_Z 7350)%js;
    conj_split; try reflexivity; intros H; try discriminate H; reflexivity.
Qed.

Lemma revisoes_equivalentes_exemplo :
  let rt := of_Z 6000 in
  let po := of_Z 500 in
  let qd := of_Z 1 in
  let pa := of_Z 0 in
  entradas_validas rt po qd pa = true /\ binary64 rt
  /\ V2.reducao_pl_aplicada rt po qd pa = V1.reducao_pl_1087_25 rt po qd pa.
Proof.
  intros rt po qd pa.
  assert (V : entradas_validas rt po qd pa = true) by (vm_compute; reflexivity).
  assert (B : binary64 rt) by (vm_compute; reflexivity).
  split; [exact V |]. split; [exact B |].
  apply (revisoes_equivalentes rt po qd pa V B).
Defined.

(** ** Bracket selection *)

Lemma escolher_em_find tabela padrao base :
  escolher_em tabela padrao base =
  match find (fun f => (base <=? limite f)%js) tabela with
  | Some f => f
  | None => padrao
  end.
Proof.
  induction tabela as [| f resto IH]; cbn [escolher_em find].
  - reflexivity.
  - destruct (base <=? limite f)%js; [reflexivity | exact IH].
Qed.

(** C2.  [escolherFaixa] scans the five rows in order and returns the first
    one whose limit is at least the base, and the last row when there is none
    (a NaN base, for one); a base equal to a limit selects that row, and the
    next representable base selects the next row. *)
Theorem escolherFaixa_primeira_faixa :
  forall base : number,
    List.length TABELA_IRRF_052025 = 5%nat
    /\ escolherFaixa base =
       match find (fun f => (base <=? limite f)%js) TABELA_IRRF_052025 with
       | Some f => f
       | None => Faixa Infinity (lit 275 10) (lit 90873 100)
       end
    /\ escolherFaixa (lit 242880 100) = Faixa (lit 242880 100) (lit 0 10) (lit 0 10)
    /\ escolherFaixa (lit 282665 100) =
       Faixa (lit 282665 100) (lit 75 10) (lit 18216 100)
    /\ escolherFaixa (lit 242881 100) =
       Faixa (lit 282665 100) (lit 75 10) (lit 18216 100)
    /\ escolherFaixa NaN = Faixa Infinity (lit 275 10) (lit 90873 100).
Proof.
  intros base. split; [reflexivity | split].
  - unfold escolherFaixa. rewrite escolher_em_find.
    destruct (find _ _); [reflexivity | vm_compute; reflexivity].
  - avaliar.
Qed.

(** ** Scenario A *)

(** C1, as stated: the figures of the specification are not the ones the
    handler computes; the base 3870.82 lies above the 7.5% row. *)
Lemma cenario_A_nao_e_o_especificado : ~ cenario_A_especificado.
Proof.
  unfold cenario_A_especificado. intros (_ & _ & _ & _ & H & _).
  vm_compute in H. discriminate H.
Qed.

(** C1, amended.  For income 5000, contribution 750, two dependents and no
    alimony both revisions answer 200 with the dependents deduction 379.18 on
    the itemized path, the base 3870.82, the 22.5% row with table deduction
    675.49, the tax 195.44, the reduction min(195.44, 312.89) = 195.44 and the
    final tax 0; the sum of deductions is 1129.18. *)
Theorem cenario_A_calculado :
  soma_deducoes (of_Z 750) (of_Z 2) (of_Z 0) = lit 112918 100
  /\ simplificado_minimo_usado (of_Z 750) (of_Z 2) (of_Z 0) = false
  /\ V1.handler cenario_A =
     Resposta 200
       (JObj [("rendimento_tributavel", JNum (of_Z 5000));
              ("previdencia_oficial", JNum (of_Z 750));
              ("quantidade_dependentes", JNum (of_Z 2));
              ("pensao_alimenticia", JNum (of_Z 0));
              ("valor_deducoes_dependentes", JNum (lit 37918 100));
              ("base_liquida_irrf", JNum (lit 387082 100));
              ("aliquota_irrf", JNum (lit 225 10));
              ("deducao_conforme_tabela", JNum (lit 67549 100));
              ("valor_irrf", JNum (lit 19544 100));
              ("reducao_pl_1087_25", JNum (lit 19544 100));
              ("valor_irrf_apos_pl_1087_25", JNum (of_Z 0))])
  /\ status_de (V2.handler cenario_A) = 200
  /\ map (get (corpo_de (V2.handler cenario_A)))
       ["valor_deducoes_dependentes"; "base_liquida_irrf"; "aliquota_irrf";
        "deducao_conforme_tabela"; "valor_irrf"; "reducao_pl_1087_25";
        "valor_irrf_apos_pl_1087_25"] =
     [JNum (lit 37918 100); JNum (lit 387082 100); JNum (lit 225 10);
      JNum (lit 67549 100); JNum (lit 19544 100); JNum (lit 19544 100);
      JNum (of_Z 0)].
Proof. avaliar. Qed.

(** ** Validation *)

Lemma calcular_irrf_campos resposta body :
  isFiniteNumber (campo body "rendimento_tributavel")
  && isFiniteNumber (campo body "previdencia_oficial")
  && isFiniteNumber (campo body "quantidade_dependentes")
  && isFiniteNumber (campo_pensao body) = false ->
  calcular_irrf resposta body = Resposta 400 (JObj [("erro", JStr erro_campos)]).
Proof.
  unfold calcular_irrf. intros H.
  destruct (isFiniteNumber (campo body "rendimento_tributavel")),
    (isFiniteNumber (campo body "previdencia_oficial")),
    (isFiniteNumber (campo body "quantidade_dependentes")),
    (isFiniteNumber (campo_pensao body)); try discriminate H; reflexivity.
Qed.

Lemma calcular_irrf_negativos resposta body :
  isFiniteNumber (campo body "rendimento_tributavel")
  && isFiniteNumber (campo body "previdencia_oficial")
  && isFiniteNumber (campo body "quantidade_dependentes")
  && isFiniteNumber (campo_pensao body) = true ->
  (of_Z 0 <=? rt_de body)%js && (of_Z 0 <=? po_de body)%js
  && (of_Z 0 <=? pa_de body)%js = false ->
  calcular_irrf resposta body = Resposta 400 (JObj [("erro", JStr erro_negativos)]).
Proof.
  unfold calcular_irrf, rt_de, po_de, pa_de. intros H N.
  rewrite !andb_true_iff in H. destruct H as [[[H1 H2] H3] H4].
  rewrite H1, H2, H3, H4. cbn [negb orb].
  rewrite !nltb_zero_finite by (apply isFiniteNumber_to_number; assumption).
  destruct (of_Z 0 <=? to_number (campo body "rendimento_tributavel"))%js,
    (of_Z 0 <=? to_number (campo body "previdencia_oficial"))%js,
    (of_Z 0 <=? to_number (campo_pensao body))%js;
    try discriminate N; reflexivity.
Qed.

Lemma calcular_irrf_dependentes resposta body :
  isFiniteNumber (campo body "rendimento_tributavel")
  && isFiniteNumber (campo body "previdencia_oficial")
  && isFiniteNumber (campo body "quantidade_dependentes")
  && isFiniteNumber (campo_pensao body) = true ->
  (of_Z 0 <=? rt_de body)%js && (of_Z 0 <=? po_de body)%js
  && (of_Z 0 <=? pa_de body)%js = true ->
  Number.isInteger (qd_de body) && (of_Z 0 <=? qd_de body)%js = false ->
  calcular_irrf resposta body =
  Resposta 400 (JObj [("erro", JStr erro_dependentes)]).
Proof.
  unfold calcular_irrf, rt_de, po_de, pa_de, qd_de. intros H N D.
  rewrite !andb_true_iff in H. rewrite !andb_true_iff in N.
  destruct H as [[[H1 H2] H3] H4]. destruct N as [[N1 N2] N3].
  rewrite H1, H2, H3, H4. cbn [negb orb].
  rewrite !nltb_zero_finite by (apply isFiniteNumber_to_number; assumption).
  rewrite N1, N2, N3. cbn [negb orb].
  destruct (Number.isInteger (to_number (campo body "quantidade_dependentes"))),
    (of_Z 0 <=? to_number (campo body "quantidade_dependentes"))%js;
    try discriminate D; reflexivity.
Qed.

Lemma corpo_valido_partes body :
  corpo_valido body =
  (isFiniteNumber (campo body "rendimento_tributavel")
   && isFiniteNumber (campo body "previdencia_oficial")
   && isFiniteNumber (campo body "quantidade_dependentes")
   && isFiniteNumber (campo_pensao body))
  && ((of_Z 0 <=? rt_de body)%js && (of_Z 0 <=? po_de body)%js
      && (of_Z 0 <=? pa_de body)%js)
  && (Number.isInteger (qd_de body) && (of_Z 0 <=? qd_de body)%js).
Proof. unfold corpo_valido. rewrite !andb_assoc. reflexivity. Qed.

Lemma resposta_v1_sem_erro rt po qd pa :
  has (JObj (V1.resposta rt po qd pa)) "erro" = false.
Proof.
  unfold V1.resposta.
  destruct (simplificado_minimo_usado po qd pa), (rt >? of_Z 7350)%js; reflexivity.
Qed.

Lemma resposta_v2_sem_erro rt po qd pa :
  has (JObj (V2.resposta rt po qd pa)) "erro" = false.
Proof.
  unfold V2.resposta.
  destruct (simplificado_minimo_usado po qd pa), (rt >? of_Z 7350)%js; reflexivity.
Qed.

(** C7.  In both revisions a body with a field that is not a finite number is
    answered 400 with the message about invalid fields; one with finite
    numbers of which the income, the contribution or the alimony is negative,
    400 with the message about negative values; one whose dependent count is
    not a non-negative integer, 400 with the message about the count.  Such
    an answer holds the [erro] property and nothing else.  A body that passes
    all three checks is answered 200 with the response object, which has no
    [erro] property.  A count of 2.5 and an income of -1 are rejected.  The
    alimony is the field after the fallback of line 51, which reads an absent
    or null alimony as 0. *)
Theorem validacao_das_entradas :
  forall body : jsval,
    let numeros :=
      isFiniteNumber (campo body "rendimento_tributavel")
      && isFiniteNumber (campo body "previdencia_oficial")
      && isFiniteNumber (campo body "quantidade_dependentes")
      && isFiniteNumber (campo_pensao body) in
    let nao_negativos :=
      (of_Z 0 <=? rt_de body)%js && (of_Z 0 <=? po_de body)%js
      && (of_Z 0 <=? pa_de body)%js in
    let dependentes :=
      Number.isInteger (qd_de body) && (of_Z 0 <=? qd_de body)%js in
    let erro msg := Resposta 400 (JObj [("erro", JStr msg)]) in
    corpo_valido body = numeros && nao_negativos && dependentes
    /\ (V1.handler body, V2.handler body) =
       (if negb numeros then (erro erro_campos, erro erro_campos)
       else if negb nao_negativos then (erro erro_negativos, erro erro_negativos)
       else if negb dependentes then (erro erro_dependentes, erro erro_dependentes)
       else (Resposta 200 (JObj (V1.resposta (rt_de body) (po_de body)
                                   (qd_de body) (pa_de body))),
             Resposta 200 (JObj (V2.resposta (rt_de body) (po_de body)
                                   (qd_de body) (pa_de body)))))
    /\ has (JObj (V1.resposta (rt_de body) (po_de body) (qd_de body) (pa_de body)))
         "erro" = false
    /\ has (JObj (V2.resposta (rt_de body) (po_de body) (qd_de body) (pa_de body)))
         "erro" = false
    /\ V1.handler
         (JObj [("rendimento_tributavel", JNum (of_Z 5000));
                ("previdencia_oficial", JNum (of_Z 750));
                ("quantidade_dependentes", JNum (lit 25 10))]) =
       erro erro_dependentes
    /\ V2.handler
         (JObj [("rendimento_tributavel", JNum (of_Z (-1)));
                ("previdencia_oficial", JNum (of_Z 750));
                ("quantidade_dependentes", JNum (of_Z 2))]) =
       erro erro_negativos.
Proof.
  intros body numeros nao_negativos dependentes erro.
  split; [apply corpo_valido_partes |].
  split; [| split; [apply resposta_v1_sem_erro
                   | split; [apply resposta_v2_sem_erro | avaliar]]].
  unfold V1.handler, V2.handler.
  destruct numeros eqn:E1; cbn [negb].
  2: { rewrite !calcular_irrf_campos by exact E1. reflexivity. }
  destruct nao_negativos eqn:E2; cbn [negb].
  2: { rewrite !calcular_irrf_negativos by assumption. reflexivity. }
  destruct dependentes eqn:E3; cbn [negb].
  2: { rewrite !calcular_irrf_dependentes by assumption. reflexivity. }
  assert (V : corpo_valido body = true).
  { rewrite corpo_valido_partes. fold numeros nao_negativos dependentes.
    rewrite E1, E2, E3. reflexivity. }
  rewrite !calcular_irrf_valido by exact V. reflexivity.
Qed.

(** ** Shape of the response *)

(** C3, as stated: above 7350 the second revision still reports the
    reduction amount next to the message. *)
Lemma acima_de_7350_v2_informa_reducao :
  let body := corpo_exemplo 8000 0 0 0 in
  corpo_valido body = true
  /\ (rt_de body >? of_Z 7350)%js = true
  /\ so_mensagem (corpo_de (V1.handler body)) = true
  /\ so_mensagem (corpo_de (V2.handler body)) = false
  /\ get (corpo_de (V2.handler body)) "reducao_pl_1087_25" = JNum (of_Z 0).
Proof. avaliar. Qed.

(** C4.  For every valid body, in both revisions: when the sum of the legal
    deductions is below 607.20 the deduction applied is 607.20 exactly, the
    response holds [desconto_simplificado_aplicado] = 607.20 and none of the
    four itemized properties; otherwise it holds the four itemized properties
    (the contribution and the count as sent, the alimony and the dependents
    deduction rounded) and no [desconto_simplificado_aplicado]. *)
Theorem simplificado_ou_itemizado :
  forall body : jsval,
    corpo_valido body = true ->
    let rt := rt_de body in
    let po := po_de body in
    let qd := qd_de body in
    let pa := pa_de body in
    forall r, r = corpo_de (V1.handler body) \/ r = corpo_de (V2.handler body) ->
    if (soma_deducoes po qd pa <? lit 60720 100)%js
    then deducao_total_aplicada po qd pa = lit 60720 100
         /\ get r "desconto_simplificado_aplicado" = JNum (lit 60720 100)
         /\ itens_ausentes r = true
    else has r "desconto_simplificado_aplicado" = false
         /\ get r "previdencia_oficial" = JNum po
         /\ get r "quantidade_dependentes" = JNum qd
         /\ get r "pensao_alimenticia" = JNum (round2 pa)
         /\ get r "valor_deducoes_dependentes" =
            JNum (round2 (deducao_dependentes qd)).
Proof.
  intros body V rt po qd pa r Hr.
  unfold V1.handler, V2.handler in Hr.
  rewrite !calcular_irrf_valido in Hr by exact V.
  fold rt po qd pa in Hr. cbn [corpo_de] in Hr.
  assert (F : simplificado_minimo_usado po qd pa
              = (soma_deducoes po qd pa <? lit 60720 100)%js) by reflexivity.
  destruct (soma_deducoes po qd pa <? lit 60720 100)%js eqn:E.
  - split.
    + unfold deducao_total_aplicada, Math.max.
      unfold nltb in E. fold DESCONTO_SIMPLIFICADO_MINIMO in E.
      destruct (ncompare (soma_deducoes po qd pa) DESCONTO_SIMPLIFICADO_MINIMO)
        as [c |]; [destruct c |]; try discriminate E.
      vm_compute. reflexivity.
    + destruct Hr as [-> | ->]; unfold V1.resposta, V2.resposta, itens_ausentes;
        rewrite F; destruct (rt >? of_Z 7350)%js; split; reflexivity.
  - destruct Hr as [-> | ->]; unfold V1.resposta, V2.resposta;
      rewrite F; destruct (rt >? of_Z 7350)%js; conj_split; reflexivity.
Qed.

Lemma simplificado_ou_itemizado_exemplo :
  let body := corpo_exemplo 2000 0 0 0 in
  corpo_valido body = true
  /\ forall r, r = corpo_de (V1.handler body) \/ r = corpo_de (V2.handler body) ->
     if (soma_deducoes (po_de body) (qd_de body) (pa_de body) <? lit 60720 100)%js
     then deducao_total_aplicada (po_de body) (qd_de body) (pa_de body)
          = lit 60720 100
          /\ get r "desconto_simplificado_aplicado" = JNum (lit 60720 100)
          /\ itens_ausentes r = true
     else has r "desconto_simplificado_aplicado" = false
          /\ get r "previdencia_oficial" = JNum (po_de body)
          /\ get r "quantidade_dependentes" = JNum (qd_de body)
          /\ get r "pensao_alimenticia" = JNum (round2 (pa_de body))
          /\ get r "valor_deducoes_dependentes" =
             JNum (round2 (deducao_dependentes (qd_de body))).
Proof.
  intros body. split.
  - vm_compute. reflexivity.
  - apply (simplificado_ou_itemizado body). vm_compute. reflexivity.
Defined.

(** ** The calculation trace *)



(** ** Determinism *)

Lemma seguir_preserva (A B : Type) (p : Estado.programa A) (k : A -> Estado.programa B) :
  (forall m, snd (p m) = m) -> (forall a m, snd (k a m) = m) ->
  forall m, snd (Estado.seguir p k m) = m.
Proof.
  intros Hp Hk m. unfold Estado.seguir.
  specialize (Hp m). destruct (p m) as [[a |] m']; cbn [snd] in Hp; subst m'.
  - apply Hk.
  - reflexivity.
Qed.

Lemma propriedade_preserva f campo m : snd (Estado.propriedade f campo m) = m.
Proof. destruct f; reflexivity. Qed.

Lemma escolherFaixa_preserva base m : snd (Estado.escolherFaixa base m) = m.
Proof. reflexivity. Qed.

(** The handler writes nothing: it leaves the module as it found it, in
    whatever state that was and whatever the request. *)
Lemma calcular_irrf_preserva resposta body m :
  snd (Estado.calcular_irrf resposta body m) = m.
Proof.
  unfold Estado.calcular_irrf.
  repeat match goal with
         | |- snd ((if ?c then _ else _) _) = _ => destruct c; [reflexivity |]
         end.
  apply seguir_preserva; [apply escolherFaixa_preserva |].
  intros faixa m1. apply seguir_preserva; [apply propriedade_preserva |].
  intros al m2. apply seguir_preserva; [apply propriedade_preserva |].
  reflexivity.
Qed.

(** A server whose handler writes nothing answers every request on the state
    it started with. *)
Lemma servir_preserva handler :
  (forall pedido m, snd (handler pedido m) = m) ->
  forall pedidos m,
    Estado.servir handler pedidos m = (map (fun pedido => fst (handler pedido m)) pedidos, m).
Proof.
  intros H pedidos m. induction pedidos as [| pedido resto IH]; cbn [Estado.servir map].
  - reflexivity.
  - specialize (H pedido m). destruct (handler pedido m) as [r m']. cbn [snd] in H.
    subst m'. rewrite IH. reflexivity.
Qed.

(** On the table of [app.js] the program computes what the handler of the
    two revisions was taken to compute. *)
Lemma calcular_irrf_inicial resposta_em resposta :
  (forall rt po qd pa,
     resposta_em (aliquota_irrf rt po qd pa) (deducao_conforme_tabela rt po qd pa)
       rt po qd pa = resposta rt po qd pa) ->
  forall body,
    fst (Estado.calcular_irrf resposta_em body Estado.inicial)
    = Estado.Normal (calcular_irrf resposta body).
Proof.
  intros H body. unfold Estado.calcular_irrf, calcular_irrf.
  repeat match goal with
         | |- fst ((if ?c then _ else _) _) = _ => destruct c; [reflexivity |]
         end.
  unfold Estado.escolherFaixa, Estado.seguir, Estado.ler_tabela, Estado.retornar,
    Estado.inicial.
  cbn [Estado.tabela].
  change (nth_error TABELA_IRRF_052025 (List.length TABELA_IRRF_052025 - 1))
    with (Some ultima_faixa).
  cbn [Estado.propriedade fst]. unfold Estado.retornar. cbn [fst].
  rewrite <- H. reflexivity.
Qed.

Lemma resposta_1_em rt po qd pa :
  Estado1.resposta (aliquota_irrf rt po qd pa) (deducao_conforme_tabela rt po qd pa)
    rt po qd pa = V1.resposta rt po qd pa.
Proof.
  cbv beta zeta delta [Estado1.resposta V1.resposta Estado1.reducao_pl_1087_25
    V1.reducao_pl_1087_25 Estado1.valor_irrf_apos_pl_1087_25
    V1.valor_irrf_apos_pl_1087_25 Estado.valor_irrf valor_irrf valor_irrf_bruto].
  reflexivity.
Qed.

Lemma resposta_2_em rt po qd pa :
  Estado2.resposta (aliquota_irrf rt po qd pa) (deducao_conforme_tabela rt po qd pa)
    rt po qd pa = V2.resposta rt po qd pa.
Proof.
  cbv beta zeta delta [Estado2.resposta V2.resposta Estado2.memoria_calculo
    V2.memoria_calculo Estado2.etapas V2.etapas Estado2.reducao_pl_formula
    V2.reducao_pl_formula Estado2.reducao_pl_aplicada V2.reducao_pl_aplicada
    Estado2.valor_irrf_apos_pl_1087_25 V2.valor_irrf_apos_pl_1087_25
    Estado.valor_irrf valor_irrf valor_irrf_bruto].
  reflexivity.
Qed.

Lemma nth_error_meio (A : Type) (l1 l2 : list A) (x : A) :
  nth_error (l1 ++ x :: l2) (List.length l1) = Some x.
Proof.
  rewrite nth_error_app2 by apply Nat.le_refl. rewrite Nat.sub_diag. reflexivity.
Qed.

(** The answers of a server whose handler writes nothing to a request sent
    twice, other requests before and in between. *)
Lemma servir_duas_vezes handler :
  (forall pedido m, snd (handler pedido m) = m) ->
  forall (body : jsval) (antes entre : list jsval) (m : Estado.modulo),
    let respostas := Estado.servir handler (antes ++ body :: entre ++ [body]) m in
    snd respostas = m
    /\ nth_error (fst respostas) (List.length antes) = Some (fst (handler body m))
    /\ nth_error (fst respostas) (List.length antes + S (List.length entre))
       = Some (fst (handler body m)).
Proof.
  intros H body antes entre m respostas. subst respostas.
  rewrite (servir_preserva handler H). cbn [fst snd].
  split; [reflexivity |]. split.
  - rewrite map_app. cbn [map].
    rewrite <- (length_map (fun pedido => fst (handler pedido m)) antes).
    apply nth_error_meio.
  - change (antes ++ body :: entre ++ [body])%list
      with (antes ++ (body :: entre) ++ [body])%list.
    rewrite app_assoc, map_app. cbn [map].
    replace (List.length antes + S (List.length entre))%nat
      with (List.length (map (fun pedido => fst (handler pedido m))
                           (antes ++ body :: entre)))
      by (rewrite length_map, length_app; reflexivity).
    apply nth_error_meio.
Qed.

(** C8.  The handler of either revision, run as a program on the state of
    the module (the table its rows are read from), writes nothing: whatever
    the state, a server leaves it as it was, and its answers to a request
    sent twice are identical, whatever requests it answered before and in
    between.  On the table of [app.js] the answer to a valid request is the
    200 answer carrying the response object computed from the request. *)
Theorem calculo_deterministico :
  forall (body : jsval) (antes entre : list jsval),
    corpo_valido body = true ->
    let pedidos := (antes ++ body :: entre ++ [body])%list in
    let primeira := List.length antes in
    let segunda := (List.length antes + S (List.length entre))%nat in
    let rt := rt_de body in
    let po := po_de body in
    let qd := qd_de body in
    let pa := pa_de body in
    (forall m : Estado.modulo,
       let r1 := Estado.servir Estado1.handler pedidos m in
       let r2 := Estado.servir Estado2.handler pedidos m in
       snd r1 = m /\ snd r2 = m
       /\ (exists r, nth_error (fst r1) primeira = Some r
                     /\ nth_error (fst r1) segunda = Some r)
       /\ (exists r, nth_error (fst r2) primeira = Some r
                     /\ nth_error (fst r2) segunda = Some r))
    /\ nth_error (fst (Estado.servir Estado1.handler pedidos Estado.inicial)) primeira
       = Some (Estado.Normal (Resposta 200 (JObj (V1.resposta rt po qd pa))))
    /\ nth_error (fst (Estado.servir Estado2.handler pedidos Estado.inicial)) primeira
       = Some (Estado.Normal (Resposta 200 (JObj (V2.resposta rt po qd pa)))).
Proof.
  intros body antes entre V pedidos primeira segunda rt po qd pa.
  assert (P1 : forall pedido m, snd (Estado1.handler pedido m) = m)
    by (intros; apply calcular_irrf_preserva).
  assert (P2 : forall pedido m, snd (Estado2.handler pedido m) = m)
    by (intros; apply calcular_irrf_preserva).
  split; [| split].
  - intros m r1 r2.
    destruct (servir_duas_vezes _ P1 body antes entre m) as (A1 & B1 & C1).
    destruct (servir_duas_vezes _ P2 body antes entre m) as (A2 & B2 & C2).
    split; [exact A1 |]. split; [exact A2 |]. split.
    + exists (fst (Estado1.handler body m)). split; [exact B1 | exact C1].
    + exists (fst (Estado2.handler body m)). split; [exact B2 | exact C2].
  - destruct (servir_duas_vezes _ P1 body antes entre Estado.inicial) as (_ & B1 & _).
    fold pedidos primeira in B1. rewrite B1. unfold Estado1.handler.
    rewrite (calcular_irrf_inicial _ _ resposta_1_em body).
    rewrite calcular_irrf_valido by exact V. reflexivity.
  - destruct (servir_duas_vezes _ P2 body antes entre Estado.inicial) as (_ & B2 & _).
    fold pedidos primeira in B2. rewrite B2. unfold Estado2.handler.
    rewrite (calcular_irrf_inicial _ _ resposta_2_em body).
    rewrite calcular_irrf_valido by exact V. reflexivity.
Qed.

Lemma calculo_deterministico_exemplo :
  let body := cenario_A in
  let pedidos := [JNull; body; corpo_exemplo 8000 0 0 0; body] in
  corpo_valido body = true
  /\ nth_error (fst (Estado.servir Estado2.handler pedidos Estado.inicial)) 1
     = Some (Estado.Normal
               (Resposta 200
                  (JObj (V2.resposta (of_Z 5000) (of_Z 750) (of_Z 2) (of_Z 0))))).
Proof.
  intros body pedidos.
  assert (V : corpo_valido body = true) by (vm_compute; reflexivity).
  split; [exact V |].
  destruct (calculo_deterministico body [JNull] [corpo_exemplo 8000 0 0 0] V)
    as (_ & _ & H).
  exact H.
Defined.

(** * Further properties of the code *)

(** ** The exempt row *)

Lemma nsub_mesmo x : Number.isFinite x = true -> (x - x)%js = of_Z 0.
Proof.
  destruct x as [[] | | | s m e]; try discriminate; intros _; try reflexivity.
  unfold nsub, SFsub.
  replace (cond_Zopp s (Zpos (fst (shl_align m e (Z.min e e))))
           - cond_Zopp s (Zpos (fst (shl_align m e (Z.min e e))))) with 0 by lia.
  reflexivity.
Qed.

Lemma primeira_faixa base :
  (base <=? lit 242880 100)%js = true ->
  escolherFaixa base = Faixa (lit 242880 100) (lit 0 10) (lit 0 10).
Proof.
  intros H. unfold escolherFaixa, TABELA_IRRF_052025. cbn [escolher_em limite].
  rewrite H. reflexivity.
Qed.

Lemma sem_imposto_na_primeira_faixa rt po qd pa :
  (base_liquida_irrf rt po qd pa <=? lit 242880 100)%js = true ->
  valor_irrf rt po qd pa = of_Z 0.
Proof.
  intros H. unfold valor_irrf, valor_irrf_bruto, aliquota_irrf, deducao_conforme_tabela.
  rewrite (primeira_faixa _ H). cbn [aliquota deducao].
  change (lit 0 10 / of_Z 100)%js with (S754_zero false).
  change (lit 0 10) with (S754_zero false).
  destruct (base_liquida_irrf rt po qd pa) as [[] | [] | | [] m e];
    try discriminate H; vm_compute; reflexivity.
Qed.

(** Nothing is due on the first row. *)
Lemma sem_imposto_nem_reducao :
  forall rt po qd pa : number,
    entradas_validas rt po qd pa = true -> binary64 rt ->
    (base_liquida_irrf rt po qd pa <=? lit 242880 100)%js = true ->
    aliquota_irrf rt po qd pa = of_Z 0
    /\ valor_irrf rt po qd pa = of_Z 0
    /\ V1.reducao_pl_1087_25 rt po qd pa = of_Z 0
    /\ V1.valor_irrf_apos_pl_1087_25 rt po qd pa = of_Z 0
    /\ V2.reducao_pl_formula rt po qd pa = of_Z 0
    /\ V2.valor_irrf_apos_pl_1087_25 rt po qd pa = of_Z 0.
Proof.
  intros rt po qd pa V B H.
  pose proof (entradas_validas_rt _ _ _ _ V) as F.
  pose proof (sem_imposto_na_primeira_faixa rt po qd pa H) as E0.
  destruct (reducoes_iguais rt po qd pa V B) as [E1 E2].
  assert (R1 : V1.reducao_pl_1087_25 rt po qd pa = of_Z 0).
  { unfold V1.reducao_pl_1087_25. rewrite E0.
    apply limite_sem_imposto; [| reflexivity | reflexivity].
    apply (round2_num _ (reducao_inicial_num rt B F)). }
  split.
  { unfold aliquota_irrf. rewrite (primeira_faixa _ H). reflexivity. }
  split; [exact E0 |]. split; [exact R1 |]. split.
  { unfold V1.valor_irrf_apos_pl_1087_25. rewrite R1, E0. reflexivity. }
  split; [rewrite E1; exact R1 |].
  unfold V2.valor_irrf_apos_pl_1087_25. rewrite E2, R1, E0. reflexivity.
Qed.

(** X1.  When the net base is at most 2428.80, the limit of the first row,
    the rate is 0 and the tax before the reduction is exactly 0, whatever the
    sign of the base; for a valid input the reduction and the final tax of
    both revisions are then 0 as well. *)
Theorem faixa_isenta :
  forall rt po qd pa : number,
    entradas_validas rt po qd pa = true -> binary64 rt ->
    (base_liquida_irrf rt po qd pa <=? lit 242880 100)%js = true ->
    aliquota_irrf rt po qd pa = of_Z 0
    /\ valor_irrf rt po qd pa = of_Z 0
    /\ V1.reducao_pl_1087_25 rt po qd pa = of_Z 0
    /\ V1.valor_irrf_apos_pl_1087_25 rt po qd pa = of_Z 0
    /\ V2.reducao_pl_formula rt po qd pa = of_Z 0
    /\ V2.valor_irrf_apos_pl_1087_25 rt po qd pa = of_Z 0.
Proof. exact sem_imposto_nem_reducao. Qed.

Lemma faixa_isenta_exemplo :
  let rt := of_Z 3000 in
  let po := of_Z 0 in
  let qd := of_Z 0 in
  let pa := of_Z 0 in
  entradas_validas rt po qd pa = true /\ binary64 rt
  /\ (base_liquida_irrf rt po qd pa <=? lit 242880 100)%js = true
  /\ valor_irrf rt po qd pa = of_Z 0.
Proof.
  intros rt po qd pa.
  assert (V : entradas_validas rt po qd pa = true) by (vm_compute; reflexivity).
  assert (B : binary64 rt) by (vm_compute; reflexivity).
  assert (H : (base_liquida_irrf rt po qd pa <=? lit 242880 100)%js = true)
    by (vm_compute; reflexivity).
  split; [exact V |]. split; [exact B |]. split; [exact H |].
  apply (faixa_isenta rt po qd pa V B H).
Defined.

(** ** The rates are progressive *)

(** X4.  Bracket selection is monotone: a larger base never selects an
    earlier row, so its limit, its rate and its table deduction are at least
    those of the smaller base. *)
Theorem escolherFaixa_progressiva :
  forall base1 base2 : number,
    (base1 <=? base2)%js = true ->
    (limite (escolherFaixa base1) <=? limite (escolherFaixa base2))%js = true
    /\ (aliquota (escolherFaixa base1) <=? aliquota (escolherFaixa base2))%js = true
    /\ (deducao (escolherFaixa base1) <=? deducao (escolherFaixa base2))%js = true.
Proof.
  intros b1 b2 L.
  assert (T : forall c, (b2 <=? c)%js = true -> (b1 <=? c)%js = true)
    by (intros c; apply nleb_trans; exact L).
  unfold escolherFaixa, TABELA_IRRF_052025. cbn [escolher_em limite].
  destruct (b2 <=? lit 242880 100)%js eqn:C1.
  { rewrite (T _ C1). conj_split; vm_compute; reflexivity. }
  destruct (b2 <=? lit 282665 100)%js eqn:C2.
  { pose proof (T _ C2) as D2.
    destruct (b1 <=? lit 242880 100)%js; [| rewrite D2];
      conj_split; vm_compute; reflexivity. }
  destruct (b2 <=? lit 375105 100)%js eqn:C3.
  { pose proof (T _ C3) as D3.
    destruct (b1 <=? lit 242880 100)%js;
      [| destruct (b1 <=? lit 282665 100)%js; [| rewrite D3]];
      conj_split; vm_compute; reflexivity. }
  destruct (b2 <=? lit 466468 100)%js eqn:C4.
  { pose proof (T _ C4) as D4.
    destruct (b1 <=? lit 242880 100)%js;
      [| destruct (b1 <=? lit 282665 100)%js;
         [| destruct (b1 <=? lit 375105 100)%js; [| rewrite D4]]];
      conj_split; vm_compute; reflexivity. }
  assert (E : (if (b2 <=? Infinity)%js then Faixa Infinity (lit 275 10) (lit 90873 100)
               else ultima_faixa) = Faixa Infinity (lit 275 10) (lit 90873 100))
    by (destruct (b2 <=? Infinity)%js; reflexivity).
  rewrite E.
  destruct (b1 <=? lit 242880 100)%js;
    [| destruct (b1 <=? lit 282665 100)%js;
       [| destruct (b1 <=? lit 375105 100)%js;
          [| destruct (b1 <=? lit 466468 100)%js;
             [| destruct (b1 <=? Infinity)%js]]]];
    conj_split; vm_compute; reflexivity.
Qed.

Lemma escolherFaixa_progressiva_exemplo :
  (lit 250000 100 <=? lit 400000 100)%js = true
  /\ (aliquota (escolherFaixa (lit 250000 100))
      <=? aliquota (escolherFaixa (lit 400000 100)))%js = true.
Proof.
  assert (L : (lit 250000 100 <=? lit 400000 100)%js = true) by (vm_compute; reflexivity).
  split; [exact L |].
  apply (escolherFaixa_progressiva _ _ L).
Defined.

(** ** Shape of every answer *)

Lemma distintas_NoDup l : distintas l = true <-> NoDup l.
Proof.
  induction l as [| k l IH]; cbn [distintas].
  - split; [constructor | reflexivity].
  - rewrite andb_true_iff, negb_true_iff, IH. split.
    + intros [H1 H2]. constructor; [| exact H2].
      intros I. assert (existsb (String.eqb k) l = true) as X; [| congruence].
      apply existsb_exists. exists k. split; [exact I | apply String.eqb_refl].
    + intros H. inversion H as [| ? ? N D]; subst. split; [| exact D].
      destruct (existsb (String.eqb k) l) eqn:E; [| reflexivity].
      apply existsb_exists in E. destruct E as (k' & I & E).
      apply String.eqb_eq in E. subst k'. contradiction.
Qed.

Lemma resposta_v1_forma rt po qd pa :
  let r := JObj (V1.resposta rt po qd pa) in
  chaves_distintas r = true
  /\ has r "mensagem" = (rt >? of_Z 7350)%js
  /\ has r "reducao_pl_1087_25" = negb (rt >? of_Z 7350)%js
  /\ has r "valor_irrf_apos_pl_1087_25" = negb (rt >? of_Z 7350)%js.
Proof.
  unfold V1.resposta.
  destruct (simplificado_minimo_usado po qd pa), (rt >? of_Z 7350)%js;
    conj_split; reflexivity.
Qed.

Lemma resposta_v2_forma rt po qd pa :
  let r := JObj (V2.resposta rt po qd pa) in
  chaves_distintas r = true
  /\ has r "mensagem" = (rt >? of_Z 7350)%js
  /\ has r "reducao_pl_1087_25" = true
  /\ has r "valor_irrf_apos_pl_1087_25" = negb (rt >? of_Z 7350)%js.
Proof.
  unfold V2.resposta.
  destruct (simplificado_minimo_usado po qd pa), (rt >? of_Z 7350)%js;
    conj_split; reflexivity.
Qed.

(** X5.  Whatever the body, the answer of either revision is an object in
    which no property name occurs twice, at any depth (the calculation trace
    included), so no spread of the response literal overwrites a property.
    The status is 400 or 200; a 200 answer holds [mensagem] exactly when the
    income is above 7350 and [valor_irrf_apos_pl_1087_25] exactly when it is
    not; the first revision reports [reducao_pl_1087_25] only up to 7350, the
    second one always. *)
Theorem respostas_bem_formadas :
  forall body : jsval,
    let acima := (rt_de body >? of_Z 7350)%js in
    let r1 := V1.handler body in
    let r2 := V2.handler body in
    chaves_distintas (corpo_de r1) = true
    /\ chaves_distintas (corpo_de r2) = true
    /\ status_de r1 = status_de r2
    /\ (if corpo_valido body
        then status_de r1 = 200
             /\ map (has (corpo_de r1))
                  ["mensagem"; "reducao_pl_1087_25"; "valor_irrf_apos_pl_1087_25"]
                = [acima; negb acima; negb acima]
             /\ map (has (corpo_de r2))
                  ["mensagem"; "reducao_pl_1087_25"; "valor_irrf_apos_pl_1087_25"]
                = [acima; true; negb acima]
        else status_de r1 = 400
             /\ map fst match corpo_de r1 with JObj o => o | _ => [] end = ["erro"]
             /\ corpo_de r2 = corpo_de r1).
Proof.
  intros body acima r1 r2. subst r1 r2. unfold V1.handler, V2.handler.
  destruct (corpo_valido body) eqn:V.
  - rewrite !calcular_irrf_valido by exact V. cbn [corpo_de status_de].
    destruct (resposta_v1_forma (rt_de body) (po_de body) (qd_de body) (pa_de body))
      as (A1 & A2 & A3 & A4).
    destruct (resposta_v2_forma (rt_de body) (po_de body) (qd_de body) (pa_de body))
      as (B1 & B2 & B3 & B4).
    cbn [map]. fold acima in A2, A3, A4, B2, B4.
    rewrite A2, A3, A4, B2, B3, B4. conj_split; try reflexivity; assumption.
  - rewrite corpo_valido_partes in V.
    destruct (isFiniteNumber (campo body "rendimento_tributavel")
              && isFiniteNumber (campo body "previdencia_oficial")
              && isFiniteNumber (campo body "quantidade_dependentes")
              && isFiniteNumber (campo_pensao body)) eqn:E1.
    2: { rewrite !calcular_irrf_campos by exact E1. conj_split; reflexivity. }
    destruct ((of_Z 0 <=? rt_de body)%js && (of_Z 0 <=? po_de body)%js
              && (of_Z 0 <=? pa_de body)%js) eqn:E2.
    2: { rewrite !calcular_irrf_negativos by assumption. conj_split; reflexivity. }
    cbn [andb] in V.
    rewrite !calcular_irrf_dependentes by assumption. conj_split; reflexivity.
Qed.

(** ** The alimony field *)

(** The handler reads the body through the three required fields and the
    alimony only. *)
Lemma calcular_irrf_campos_iguais resposta b1 b2 :
  campo b1 "rendimento_tributavel" = campo b2 "rendimento_tributavel" ->
  campo b1 "previdencia_oficial" = campo b2 "previdencia_oficial" ->
  campo b1 "quantidade_dependentes" = campo b2 "quantidade_dependentes" ->
  campo_pensao b1 = campo_pensao b2 ->
  calcular_irrf resposta b1 = calcular_irrf resposta b2.
Proof.
  intros E1 E2 E3 E4. unfold calcular_irrf. rewrite E1, E2, E3, E4. reflexivity.
Qed.

(** X6.  When the body has no usable [pensao_alimenticia] (absent or null),
    the handler reads the property whose name ends in a space instead, and 0
    when that one is absent or null as well: the answer is the answer to the
    same body with [pensao_alimenticia] set to that value.  A
    [pensao_alimenticia] that is present and not null is used as it is,
    whatever the other property holds. *)
Theorem pensao_alimenticia_alternativa :
  forall (o : obj) (h : jsval -> resposta_http),
    h = V1.handler \/ h = V2.handler ->
    let body := JObj o in
    let enviada := get body "pensao_alimenticia" in
    let alternativa := get body "pensao_alimenticia " in
    (enviada = JUndefined \/ enviada = JNull ->
     h body = h (JObj (("pensao_alimenticia", nullish alternativa (JNum (of_Z 0))) :: o)))
    /\ (enviada <> JUndefined -> enviada <> JNull ->
        forall x, h (JObj (("pensao_alimenticia ", x) :: o)) = h body).
Proof.
  intros o h Hh body enviada alternativa.
  assert (C : forall b1 b2,
             campo b1 "rendimento_tributavel" = campo b2 "rendimento_tributavel" ->
             campo b1 "previdencia_oficial" = campo b2 "previdencia_oficial" ->
             campo b1 "quantidade_dependentes" = campo b2 "quantidade_dependentes" ->
             campo_pensao b1 = campo_pensao b2 -> h b1 = h b2).
  { destruct Hh as [-> | ->]; intros b1 b2; apply calcular_irrf_campos_iguais. }
  split.
  - intros N. apply C; try reflexivity.
    unfold campo_pensao. fold body.
    change (get (JObj (("pensao_alimenticia", nullish alternativa (JNum (of_Z 0))) :: o))
              "pensao_alimenticia") with (nullish alternativa (JNum (of_Z 0))).
    change (get (JObj (("pensao_alimenticia", nullish alternativa (JNum (of_Z 0))) :: o))
              "pensao_alimenticia ") with alternativa.
    fold enviada alternativa. cbn [js_and truthy].
    destruct N as [-> | ->]; destruct alternativa; reflexivity.
  - intros N1 N2 x. apply C; try reflexivity.
    unfold campo_pensao. fold body.
    change (get (JObj (("pensao_alimenticia ", x) :: o)) "pensao_alimenticia")
      with enviada.
    fold enviada. cbn [js_and truthy].
    destruct enviada; try contradiction; reflexivity.
Qed.

Lemma pensao_alimenticia_alternativa_exemplo :
  let o := [("rendimento_tributavel", JNum (of_Z 6000));
            ("previdencia_oficial", JNum (of_Z 500));
            ("quantidade_dependentes", JNum (of_Z 1));
            ("pensao_alimenticia ", JNum (of_Z 300))] in
  get (JObj o) "pensao_alimenticia" = JUndefined
  /\ V2.handler (JObj o) = V2.handler (JObj (("pensao_alimenticia", JNum (of_Z 300)) :: o)).
Proof.
  intros o.
  assert (N : get (JObj o) "pensao_alimenticia" = JUndefined) by reflexivity.
  split; [exact N |].
  destruct (pensao_alimenticia_alternativa o V2.handler (or_intror eq_refl)) as [H _].
  apply H. left. exact N.
Defined.

(** ** The client and the server validate alike *)

Lemma status_pela_validacao resposta body :
  status_de (calcular_irrf resposta body) = if corpo_valido body then 200 else 400.
Proof.
  destruct (corpo_valido body) eqn:V.
  - rewrite calcular_irrf_valido by exact V. reflexivity.
  - rewrite corpo_valido_partes in V.
    destruct (isFiniteNumber (campo body "rendimento_tributavel")
              && isFiniteNumber (campo body "previdencia_oficial")
              && isFiniteNumber (campo body "quantidade_dependentes")
              && isFiniteNumber (campo_pensao body)) eqn:E1.
    2: { rewrite calcular_irrf_campos by exact E1. reflexivity. }
    destruct ((of_Z 0 <=? rt_de body)%js && (of_Z 0 <=? po_de body)%js
              && (of_Z 0 <=? pa_de body)%js) eqn:E2.
    2: { rewrite calcular_irrf_negativos by assumption. reflexivity. }
    cbn [andb] in V. rewrite calcular_irrf_dependentes by assumption. reflexivity.
Qed.

Lemma json_number_finito x : isFiniteNumber (json_number x) = Number.isFinite x.
Proof. destruct x; reflexivity. Qed.

Lemma json_number_nneg x :
  (of_Z 0 <=? to_number (json_number x))%js
  = Number.isFinite x && (x >=? of_Z 0)%js.
Proof. destruct x as [[] | [] | | [] m e]; reflexivity. Qed.

Lemma json_number_inteiro x :
  Number.isInteger (to_number (json_number x)) = Number.isInteger x.
Proof. destruct x; reflexivity. Qed.

Lemma inteiro_finito x : Number.isInteger x = true -> Number.isFinite x = true.
Proof. destruct x; try discriminate; reflexivity. Qed.

Lemma pedido_campos rt po qd pa :
  let body := json (JObj [("rendimento_tributavel", JNum rt);
                          ("previdencia_oficial", JNum po);
                          ("quantidade_dependentes", JNum qd);
                          ("pensao_alimenticia", JNum pa)]) in
  campo body "rendimento_tributavel" = json_number rt
  /\ campo body "previdencia_oficial" = json_number po
  /\ campo body "quantidade_dependentes" = json_number qd
  /\ campo_pensao body = nullish (json_number pa) (JNum (of_Z 0)).
Proof.
  cbn [json].
  destruct rt as [? | ? | | ? ? ?], po as [? | ? | | ? ? ?],
    qd as [? | ? | | ? ? ?], pa as [? | ? | | ? ? ?]; conj_split; reflexivity.
Qed.

(** The server accepts the posted form exactly when the income, the
    contribution and the count pass the checks of the client and the alimony
    passes them or is not finite: an alimony that is not finite is posted as
    [null], which the server reads as 0. *)
Lemma pedido_valido N form :
  corpo_valido (pedido N form) =
  let rt := N (form_rendimento_tributavel form) in
  let po := N (form_previdencia_oficial form) in
  let qd := N (form_quantidade_dependentes form) in
  let pa := pensao_do_formulario N form in
  Number.isFinite rt && (rt >=? of_Z 0)%js
  && Number.isFinite po && (po >=? of_Z 0)%js
  && Number.isInteger qd && (qd >=? of_Z 0)%js
  && (negb (Number.isFinite pa) || (pa >=? of_Z 0)%js).
Proof.
  cbv zeta. unfold pedido, payload, corpo_valido, rt_de, po_de, qd_de, pa_de.
  set (rt := N (form_rendimento_tributavel form)).
  set (po := N (form_previdencia_oficial form)).
  set (qd := N (form_quantidade_dependentes form)).
  set (pa := pensao_do_formulario N form).
  destruct (pedido_campos rt po qd pa) as (E1 & E2 & E3 & E4).
  rewrite E1, E2, E3, E4. clear E1 E2 E3 E4.
  rewrite !json_number_finito, !json_number_nneg, json_number_inteiro.
  assert (P : isFiniteNumber (nullish (json_number pa) (JNum (of_Z 0))) = true
              /\ (of_Z 0 <=? to_number (nullish (json_number pa) (JNum (of_Z 0))))%js
                 = negb (Number.isFinite pa) || (pa >=? of_Z 0)%js)
    by (destruct pa as [[] | [] | | [] m e]; split; reflexivity).
  destruct P as [P1 P2]. rewrite P1, P2.
  pose proof (inteiro_finito qd) as I.
  destruct (Number.isFinite rt), (rt >=? of_Z 0)%js, (Number.isFinite po),
    (po >=? of_Z 0)%js, (Number.isInteger qd), (qd >=? of_Z 0)%js,
    (Number.isFinite qd), (Number.isFinite pa), (pa >=? of_Z 0)%js;
    try reflexivity; discriminate (I eq_refl).
Qed.

(** X7.  A form that passes [isValid] on the client is accepted by the
    server: the posted body passes the validation of either revision, which
    answers 200, and the four numbers the server computes with are the ones
    the client checked, but for the sign of a zero.  Conversely a posted form
    that the server accepts passes [isValid], unless its alimony is not a
    finite number (the server then computes with 0). *)
Theorem cliente_valida_como_servidor :
  forall (StringToNumber : string -> number) (form : formulario)
         (h : jsval -> resposta_http),
    h = V1.handler \/ h = V2.handler ->
    let body := pedido StringToNumber form in
    (isValid StringToNumber form = true ->
     status_de (h body) = 200
     /\ JNum (rt_de body) = json_number (StringToNumber (form_rendimento_tributavel form))
     /\ JNum (po_de body) = json_number (StringToNumber (form_previdencia_oficial form))
     /\ JNum (qd_de body)
        = json_number (StringToNumber (form_quantidade_dependentes form))
     /\ JNum (pa_de body) = json_number (pensao_do_formulario StringToNumber form))
    /\ (status_de (h body) = 200 ->
        isValid StringToNumber form = true
        \/ (Number.isFinite (pensao_do_formulario StringToNumber form) = false
            /\ pa_de body = of_Z 0)).
Proof.
  intros N form h Hh body.
  assert (S : status_de (h body) = if corpo_valido body then 200 else 400)
    by (destruct Hh as [-> | ->]; apply status_pela_validacao).
  assert (K := pedido_valido N form). fold body in K. cbv zeta in K.
  rewrite K in S. clear K. rewrite S. clear S.
  unfold isValid. cbv zeta.
  unfold body, pedido, payload, rt_de, po_de, qd_de, pa_de.
  set (rt := N (form_rendimento_tributavel form)).
  set (po := N (form_previdencia_oficial form)).
  set (qd := N (form_quantidade_dependentes form)).
  set (pa := pensao_do_formulario N form).
  destruct (pedido_campos rt po qd pa) as (E1 & E2 & E3 & E4).
  rewrite E1, E2, E3, E4. clear E1 E2 E3 E4.
  split.
  - intros V. rewrite !andb_true_iff in V.
    destruct V as [[[[[[[F1 N1] F2] N2] I3] N3] F4] N4].
    rewrite F1, N1, F2, N2, I3, N3, F4, N4. cbn [andb orb negb].
    pose proof (inteiro_finito qd I3) as F3.
    split; [reflexivity |].
    destruct rt as [? | ? | | ? ? ?]; try discriminate F1;
      destruct po as [? | ? | | ? ? ?]; try discriminate F2;
      destruct qd as [? | ? | | ? ? ?]; try discriminate F3;
      destruct pa as [? | ? | | ? ? ?]; try discriminate F4;
      conj_split; reflexivity.
  - intros H.
    destruct (Number.isFinite rt && (rt >=? of_Z 0)%js && Number.isFinite po
              && (po >=? of_Z 0)%js && Number.isInteger qd && (qd >=? of_Z 0)%js) eqn:E;
      cbn [andb] in H |- *; [| discriminate H].
    destruct (Number.isFinite pa) eqn:F4; cbn [negb orb andb] in H |- *.
    + left. destruct (pa >=? of_Z 0)%js; [reflexivity | discriminate H].
    + right. split; [reflexivity |].
      destruct pa as [? | ? | | ? ? ?]; try discriminate F4; reflexivity.
Qed.

Lemma cliente_valida_como_servidor_exemplo :
  let N := fun s : string => if String.eqb s "5000" then of_Z 5000 else of_Z 0 in
  let form := Formulario "5000" "0" "0" "" in
  isValid N form = true /\ status_de (V1.handler (pedido N form)) = 200.
Proof.
  intros N form.
  assert (V : isValid N form = true) by reflexivity.
  split; [exact V |].
  destruct (cliente_valida_como_servidor N form V1.handler (or_introl eq_refl))
    as [H _].
  apply (H V).
Defined.

(** ** The grid of the binary64 numbers *)

Lemma bpow_neg k : 0 <= k -> bpow (- k) = (/ IZR (2 ^ k))%R.
Proof.
  intros H. pose proof (bpow_add (- k) k) as A.
  replace (- k + k) with 0 in A by lia. rewrite bpow_0 in A.
  rewrite (bpow_IZR k H) in A.
  assert (0 < IZR (2 ^ k))%R by (apply IZR_lt, Z.pow_pos_nonneg; lia).
  apply (Rmult_eq_reg_r (IZR (2 ^ k))); [| lra].
  rewrite <- A. field. lra.
Qed.

(** Every [m * 2^e] with at most 53 bits in [m] is a binary64 number. *)
Lemma representavel_pos m e :
  0 < m <= 2 ^ 53 -> -1074 <= e <= 970 ->
  exists B, binary64 B /\ Number.isFinite B = true
            /\ valor B = (IZR m * bpow e)%R.
Proof.
  intros Hm He.
  destruct (Z.eq_dec m (2 ^ 53)) as [-> | N].
  - exists (S754_finite false 4503599627370496 (e + 1)). split; [| split].
    + unfold binary64. cbn [valid_binary]. apply bounded_spec.
      change (Zpos (digits2_pos 4503599627370496)) with 53.
      rewrite fexp_eq. lia.
    + reflexivity.
    + rewrite valor_finite. cbn [signed cond_Zopp].
      rewrite bpow_add, (bpow_IZR 1) by lia. change (2 ^ 1) with 2.
      change (2 ^ 53) with (4503599627370496 * 2). rewrite mult_IZR. ring.
  - assert (L : m < 2 ^ 53) by lia.
    pose proof (Zdigits2_bounds m ltac:(lia)) as [Lo Hi].
    pose proof (Zdigits2_pos m ltac:(lia)) as Pd.
    set (d := Zdigits2 m) in *.
    assert (Hd : d <= 53).
    { destruct (Z_le_gt_dec d 53) as [| G]; [assumption | exfalso].
      assert (2 ^ 53 <= 2 ^ (d - 1)) by (apply Z.pow_le_mono_r; lia). lia. }
    set (e' := Z.max (d + e - 53) (-1074)).
    assert (He' : e' <= e) by lia.
    assert (Pm : 0 < m * 2 ^ (e - e')).
    { apply Z.mul_pos_pos; [lia | apply Z.pow_pos_nonneg; lia]. }
    exists (S754_finite false (Z.to_pos (m * 2 ^ (e - e'))) e'). split; [| split].
    + unfold binary64. cbn [valid_binary]. apply bounded_spec.
      change (Zpos (digits2_pos (Z.to_pos (m * 2 ^ (e - e')))))
        with (Zdigits2 (Zpos (Z.to_pos (m * 2 ^ (e - e'))))).
      rewrite Z2Pos.id by exact Pm.
      rewrite Zdigits2_shift by lia. fold d. rewrite fexp_eq. lia.
    + reflexivity.
    + rewrite valor_finite. cbn [signed cond_Zopp].
      rewrite Z2Pos.id by exact Pm. apply alinhado. exact He'.
Qed.

Lemma representavel m e :
  Z.abs m <= 2 ^ 53 -> -1074 <= e <= 970 ->
  exists B, binary64 B /\ Number.isFinite B = true
            /\ valor B = (IZR m * bpow e)%R.
Proof.
  intros Hm He. destruct (Z.lt_trichotomy m 0) as [Ng | [-> | Ps]].
  - destruct (representavel_pos (- m) e ltac:(lia) He) as (B & B1 & B2 & B3).
    exists (SFopp B). split; [apply binary64_opp, B1 | split].
    + rewrite isFinite_opp. exact B2.
    + rewrite valor_opp, B3, opp_IZR. ring.
  - exists (S754_zero false). split; [reflexivity | split; [reflexivity |]].
    cbn [valor]. ring.
  - apply representavel_pos; lia.
Qed.

(** A rounding of [v] stays on the same side of every point [k * 2^e] of a
    grid that binary64 resolves around [v]. *)
Lemma entre_grade v r e :
  arredonda v r -> -1074 <= e <= 970 ->
  (- bpow (53 + e) <= v <= bpow (53 + e))%R ->
  Number.isFinite r = true
  /\ (forall k : Z, (IZR k * bpow e <= v)%R -> (IZR k * bpow e <= valor r)%R)
  /\ (forall k : Z, (v <= IZR k * bpow e)%R -> (valor r <= IZR k * bpow e)%R).
Proof.
  intros (Br & (s & Ss & _) & Up & Lo) He Hv.
  pose proof (bpow_pos e) as Pe.
  assert (E53 : bpow (53 + e) = (IZR (2 ^ 53) * bpow e)%R).
  { rewrite bpow_add, (bpow_IZR 53) by lia. reflexivity. }
  rewrite E53 in Hv. destruct Hv as [Hv1 Hv2].
  destruct (representavel (2 ^ 53) e ltac:(rewrite Z.abs_eq; lia) He)
    as (Bh & Bh1 & Bh2 & Bh3).
  destruct (representavel (- 2 ^ 53) e ltac:(rewrite Z.abs_neq; lia) He)
    as (Bl & Bl1 & Bl2 & Bl3).
  assert (Uh : (r <=? Bh)%js = true) by (apply Up; [assumption | assumption | lra]).
  assert (Ul : (Bl <=? r)%js = true).
  { apply Lo; [assumption | assumption |]. rewrite Bl3, opp_IZR. lra. }
  assert (Fr : Number.isFinite r = true).
  { destruct r as [? | [] | | ? ? ?]; try reflexivity.
    - destruct Bl; discriminate.
    - destruct Bh; discriminate.
    - discriminate Ss. }
  apply nleb_valor in Uh; [| assumption | assumption].
  apply nleb_valor in Ul; [| assumption | assumption].
  rewrite Bh3 in Uh. rewrite Bl3, opp_IZR in Ul.
  split; [exact Fr | split].
  - intros k Hk.
    destruct (Z_lt_le_dec k (- 2 ^ 53)) as [Lt | Ge].
    + apply IZR_lt in Lt. rewrite opp_IZR in Lt. nra.
    + destruct (Z_le_gt_dec k (2 ^ 53)) as [Le | Gt].
      * destruct (representavel k e ltac:(lia) He) as (B & B1 & B2 & B3).
        assert (X : (B <=? r)%js = true) by (apply Lo; [assumption | assumption | lra]).
        apply nleb_valor in X; [| assumption | assumption]. lra.
      * apply Z.gt_lt, IZR_lt in Gt. nra.
  - intros k Hk.
    destruct (Z_lt_le_dec (2 ^ 53) k) as [Lt | Ge].
    + apply IZR_lt in Lt. nra.
    + destruct (Z_le_gt_dec (- 2 ^ 53) k) as [Le | Gt].
      * destruct (representavel k e ltac:(lia) He) as (B & B1 & B2 & B3).
        assert (X : (r <=? B)%js = true) by (apply Up; [assumption | assumption | lra]).
        apply nleb_valor in X; [| assumption | assumption]. lra.
      * apply Z.gt_lt, IZR_lt in Gt. rewrite opp_IZR in Gt. nra.
Qed.

(** A rounding of [v] is within one step of the grid of [v]. *)
Lemma perto v r e :
  arredonda v r -> -1074 <= e <= 970 ->
  (- bpow (53 + e) <= v <= bpow (53 + e))%R ->
  Number.isFinite r = true /\ binary64 r
  /\ (v - bpow e <= valor r <= v + bpow e)%R.
Proof.
  intros A He Hv. pose proof (arredonda_binary64 _ _ A) as Br.
  destruct (entre_grade v r e A He Hv) as (Fr & Lo & Up).
  split; [exact Fr | split; [exact Br |]].
  pose proof (bpow_pos e) as Pe.
  destruct (archimed (v / bpow e)) as [A1 A2].
  set (u := up (v / bpow e)) in *.
  assert (T : (v / bpow e * bpow e = v)%R) by (field; lra).
  set (t := (v / bpow e)%R) in *.
  assert (X1 : ((IZR u - 1) * bpow e <= t * bpow e)%R)
    by (apply Rmult_le_compat_r; lra).
  assert (X2 : (t * bpow e <= IZR u * bpow e)%R)
    by (apply Rmult_le_compat_r; lra).
  assert (X3 : (IZR u * bpow e <= (t + 1) * bpow e)%R)
    by (apply Rmult_le_compat_r; lra).
  rewrite T in X1, X2. rewrite Rmult_plus_distr_r, T, Rmult_1_l in X3.
  pose proof (Lo (u - 1)) as L1. rewrite minus_IZR in L1. specialize (L1 X1).
  pose proof (Up u X2) as U1.
  assert (X4 : (t * bpow e < IZR u * bpow e)%R)
    by (apply Rmult_lt_compat_r; lra).
  rewrite T in X4.
  split; lra.
Qed.

(** An integer of at most 53 bits is a number. *)
Lemma of_Z_exato n :
  Z.abs n <= 2 ^ 53 ->
  Number.isFinite (of_Z n) = true /\ valor (of_Z n) = IZR n.
Proof.
  intros H. pose proof (binary_normalize_spec n 0 false) as A.
  fold (of_Z n) in A. rewrite bpow_0', Rmult_1_r in A.
  assert (Hv : (- bpow (53 + 0) <= IZR n <= bpow (53 + 0))%R).
  { rewrite (bpow_IZR (53 + 0)) by lia. rewrite <- opp_IZR.
    split; apply IZR_le; change (53 + 0) with 53; lia. }
  destruct (entre_grade _ _ 0 A ltac:(lia) Hv) as (F & Lo & Up).
  split; [exact F |].
  specialize (Lo n). specialize (Up n). rewrite bpow_0', Rmult_1_r in Lo, Up.
  lra.
Qed.

(** ** [Math.round] to the nearest integer *)

Lemma binary_normalize_nz n s :
  n <> 0 -> binary_normalize prec emax n 0 s = of_Z n.
Proof. destruct n; [contradiction | reflexivity | reflexivity]. Qed.

Lemma binary64_inteiro_neg m e :
  binary64 (S754_finite true m e) -> 0 <= e ->
  (valor (S754_finite true m e) <= - 4503599627370496)%R.
Proof.
  intros B He.
  pose proof (binary64_inteiro m e B He) as G.
  rewrite valor_finite in G |- *. cbn [signed cond_Zopp] in G |- *.
  change (Zneg m) with (- Zpos m). rewrite opp_IZR. lra.
Qed.

Lemma inteiro_unico a b : (IZR a < IZR b + 1)%R -> (IZR b < IZR a + 1)%R -> a = b.
Proof.
  intros H1 H2. rewrite <- plus_IZR in H1, H2. apply lt_IZR in H1, H2. lia.
Qed.

(** [Math.round] of a number within 1/2 of the integer [n] (1/2 below, less
    than 1/2 above) is [n]. *)
Lemma round_exato x n :
  binary64 x -> Number.isFinite x = true -> Z.abs n < 2 ^ 52 ->
  (IZR n - / 2 <= valor x < IZR n + / 2)%R ->
  exists s, Math.round x = binary_normalize prec emax n 0 s.
Proof.
  intros B F Hn Hx. destruct x as [s | s | | s m e]; try discriminate.
  - cbn [valor] in Hx. exists s.
    assert (n = 0) as -> by (apply inteiro_unico; cbn; lra). reflexivity.
  - destruct (Z_le_gt_dec 0 e) as [P | N].
    + exfalso.
      assert (X : (IZR (- 2 ^ 52 + 1) <= IZR n <= IZR (2 ^ 52 - 1))%R)
        by (split; apply IZR_le; lia).
      change (- 2 ^ 52 + 1) with (- 4503599627370495) in X.
      change (2 ^ 52 - 1) with 4503599627370495 in X.
      destruct s.
      * pose proof (binary64_inteiro_neg m e B P). lra.
      * pose proof (binary64_inteiro m e B P). lra.
    + destruct (round_finite s m e ltac:(lia)) as [E [L1 L2]].
      exists s. rewrite E. f_equal. apply inteiro_unico; lra.
Qed.

(** ** [round2] to the nearest cent *)

Lemma valor_EPSILON : valor Number.EPSILON = (/ 4503599627370496)%R.
Proof.
  pose proof (racional_cmp_ok Number.EPSILON 1 4503599627370496 ltac:(lia) eq_refl) as V.
  vm_compute racional_cmp in V. cbn [ordem] in V. rewrite V. lra.
Qed.

Lemma valor_cem : valor (of_Z 100) = 100%R.
Proof.
  pose proof (racional_cmp_ok (of_Z 100) 100 1 ltac:(lia) eq_refl) as V.
  vm_compute racional_cmp in V. cbn [ordem] in V. rewrite V. lra.
Qed.

Lemma bpow_m19 : bpow (-19) = (/ 524288)%R.
Proof. apply (bpow_neg 19). lia. Qed.

Lemma bpow_m12 : bpow (-12) = (/ 4096)%R.
Proof. apply (bpow_neg 12). lia. Qed.

Lemma bpow_34 : bpow 34 = 17179869184%R.
Proof. apply (bpow_IZR 34). lia. Qed.

Lemma bpow_41 : bpow 41 = 2199023255552%R.
Proof. apply (bpow_IZR 41). lia. Qed.

(** The argument of [Math.round] inside [round2 x], for [x] up to 10^10 in
    magnitude, is within 0.0005 of [100 x]. *)
Lemma round2_interior x :
  binary64 x -> Number.isFinite x = true ->
  (- 10000000001 <= valor x <= 10000000001)%R ->
  let z := ((x + Number.EPSILON) * of_Z 100)%js in
  binary64 z /\ Number.isFinite z = true
  /\ (100 * valor x - 5 / 10000 <= valor z <= 100 * valor x + 5 / 10000)%R.
Proof.
  intros B F Hx z.
  destruct EPSILON_positivo as [Be _].
  pose proof (positivo_finito _ EPSILON_positivo) as Fe.
  pose proof (nadd_spec x Number.EPSILON B Be F Fe) as A1.
  rewrite valor_EPSILON in A1.
  destruct (perto _ _ (-19) A1 ltac:(lia)) as (Fy & By & Hy).
  { change (53 + -19) with 34. rewrite bpow_34. lra. }
  rewrite bpow_m19 in Hy.
  destruct cem_positivo as [Bc _].
  pose proof (nmul_spec _ (of_Z 100) By Bc Fy eq_refl) as A2.
  rewrite valor_cem in A2.
  destruct (perto _ _ (-12) A2 ltac:(lia)) as (Fz & Bz & Hz).
  { change (53 + -12) with 41. rewrite bpow_41. lra. }
  rewrite bpow_m12 in Hz.
  split; [exact Bz | split; [exact Fz |]]. fold z in Hz. lra.
Qed.

(** A number within 0.4 cent of [n] cents is rounded to [n] cents. *)
Lemma round2_de_perto x n :
  binary64 x -> Number.isFinite x = true -> Z.abs n <= 10 ^ 12 ->
  (IZR n / 100 - 4 / 1000 <= valor x <= IZR n / 100 + 4 / 1000)%R ->
  exists s, round2 x = (binary_normalize prec emax n 0 s / of_Z 100)%js.
Proof.
  intros B F Hn Hx.
  assert (Rn : (- 1000000000000 <= IZR n <= 1000000000000)%R).
  { split; [change (- 1000000000000)%R with (IZR (- 10 ^ 12))
           | change 1000000000000%R with (IZR (10 ^ 12))]; apply IZR_le; lia. }
  destruct (round2_interior x B F ltac:(lra)) as (Bz & Fz & Hz).
  destruct (round_exato _ n Bz Fz) as [s Es].
  - change (2 ^ 52) with 4503599627370496. change (10 ^ 12) with 1000000000000 in Hn.
    lia.
  - lra.
  - exists s. unfold round2. rewrite Es. reflexivity.
Qed.

Lemma round2_de_perto_nz x n :
  binary64 x -> Number.isFinite x = true -> Z.abs n <= 10 ^ 12 -> n <> 0 ->
  (IZR n / 100 - 4 / 1000 <= valor x <= IZR n / 100 + 4 / 1000)%R ->
  round2 x = lit n 100.
Proof.
  intros B F Hn Nz Hx. destruct (round2_de_perto x n B F Hn Hx) as [s ->].
  rewrite binary_normalize_nz by exact Nz. reflexivity.
Qed.

Lemma round2_de_perto_zero x :
  binary64 x -> Number.isFinite x = true -> (of_Z 0 <=? x)%js = true ->
  (valor x <= 4 / 1000)%R ->
  round2 x = of_Z 0.
Proof.
  intros B F N Hx.
  assert (P : (0 <= valor x)%R).
  { apply nleb_valor in N; [| reflexivity | exact F]. exact N. }
  destruct (round2_de_perto x 0 B F ltac:(cbn; lia)) as [s E].
  { lra. }
  pose proof (round2_pos0 x B N) as [_ S]. rewrite E in S |- *.
  destruct s; [discriminate S | reflexivity].
Qed.

(** The value of an amount of [n] cents. *)
Lemma lit_cem n :
  Z.abs n <= 10 ^ 12 ->
  binary64 (lit n 100) /\ Number.isFinite (lit n 100) = true
  /\ (IZR n / 100 - / 524288 <= valor (lit n 100) <= IZR n / 100 + / 524288)%R.
Proof.
  intros Hn.
  assert (Rn : (- 1000000000000 <= IZR n <= 1000000000000)%R).
  { split; [change (- 1000000000000)%R with (IZR (- 10 ^ 12))
           | change 1000000000000%R with (IZR (10 ^ 12))]; apply IZR_le; lia. }
  destruct (of_Z_exato n) as [Fn Vn].
  { change (2 ^ 53) with 9007199254740992. change (10 ^ 12) with 1000000000000 in Hn.
    lia. }
  assert (A : arredonda (valor (of_Z n) / valor (of_Z 100)) (lit n 100)).
  { apply ndiv_spec; [exact Fn | reflexivity | rewrite valor_cem; lra]. }
  rewrite Vn, valor_cem in A.
  destruct (perto _ _ (-19) A ltac:(lia)) as (F & B & H).
  { change (53 + -19) with 34. rewrite bpow_34. lra. }
  rewrite bpow_m19 in H. auto.
Qed.

(** [round2] leaves an amount of whole cents as it is. *)
Lemma round2_lit n : Z.abs n <= 10 ^ 12 -> round2 (lit n 100) = lit n 100.
Proof.
  intros Hn. destruct (Z.eq_dec n 0) as [-> | Nz]; [vm_compute; reflexivity |].
  destruct (lit_cem n Hn) as (B & F & H).
  apply round2_de_perto_nz; try assumption.
  assert (/ 524288 <= 4 / 1000)%R by lra. lra.
Qed.

(** X8.  [round2] leaves every amount of whole cents unchanged, up to
    10^12 cents in magnitude: the roundings of the addition of
    [Number.EPSILON], of the multiplication and of the division never move
    such an amount to a neighbouring cent. *)
Theorem round2_centavos_exatos :
  forall n : Z, Z.abs n <= 10 ^ 12 -> round2 (lit n 100) = lit n 100.
Proof. exact round2_lit. Qed.

Lemma round2_centavos_exatos_exemplo :
  Z.abs 123456789 <= 10 ^ 12
  /\ round2 (lit 123456789 100) = lit 123456789 100.
Proof.
  assert (H : Z.abs 123456789 <= 10 ^ 12) by (cbn; lia).
  split; [exact H |].
  apply (round2_centavos_exatos 123456789 H).
Defined.

Lemma entre_finitos x A B :
  (A <=? x)%js = true -> (x <=? B)%js = true ->
  Number.isFinite A = true -> Number.isFinite B = true ->
  Number.isFinite x = true.
Proof.
  intros L1 L2 FA FB.
  destruct x as [? | [] | | ? ? ?]; try reflexivity.
  - destruct A; discriminate.
  - destruct B; discriminate.
  - destruct A; discriminate.
Qed.

Lemma valor_of_Z_bilhao :
  valor (of_Z 1000000000) = 1000000000%R
  /\ valor (of_Z (-1000000000)) = (- 1000000000)%R.
Proof.
  split.
  - apply (of_Z_exato 1000000000). cbn. lia.
  - apply (of_Z_exato (-1000000000)). cbn. lia.
Qed.

(** The integer [Math.round] yields inside [round2 x]. *)
Lemma round2_forma x :
  binary64 x -> Number.isFinite x = true ->
  (- 10000000000 <= valor x <= 10000000000)%R ->
  exists (n : Z) (s : bool),
    round2 x = (binary_normalize prec emax n 0 s / of_Z 100)%js
    /\ Z.abs n <= 10 ^ 12
    /\ (100 * valor x - 5005 / 10000 <= IZR n <= 100 * valor x + 5005 / 10000)%R.
Proof.
  intros B F Hx.
  destruct (round2_interior x B F ltac:(lra)) as (Bz & Fz & Hz).
  set (z := ((x + Number.EPSILON) * of_Z 100)%js) in *.
  destruct (archimed (valor z + / 2)) as [A1 A2].
  set (u := up (valor z + / 2)) in *.
  assert (Hn : (IZR (u - 1) - / 2 <= valor z < IZR (u - 1) + / 2)%R)
    by (rewrite minus_IZR; lra).
  assert (Rn : (100 * valor x - 5005 / 10000 <= IZR (u - 1)
                <= 100 * valor x + 5005 / 10000)%R) by (rewrite minus_IZR; lra).
  assert (Zn : - 1000000000000 <= u - 1 <= 1000000000000).
  { assert (IZR (- 1000000000001) < IZR (u - 1))%R as X1 by lra.
    assert (IZR (u - 1) < IZR 1000000000001)%R as X2 by lra.
    apply lt_IZR in X1, X2. lia. }
  destruct (round_exato z (u - 1) Bz Fz) as [s Es].
  - change (2 ^ 52) with 4503599627370496. lia.
  - exact Hn.
  - exists (u - 1), s. unfold round2. fold z. rewrite Es.
    split; [reflexivity | split].
    + change (10 ^ 12) with 1000000000000. lia.
    + exact Rn.
Qed.

(** X9.  For an amount of up to one billion in magnitude, [round2] returns
    a whole number of cents (the binary64 number nearest to [n / 100] for an
    integer [n], or -0) that lies within 0.5005 cent of the amount; the
    result differs from the amount by at most 0.005007. *)
Theorem round2_centavo_proximo :
  forall x : number,
    binary64 x ->
    (of_Z (-1000000000) <=? x)%js = true -> (x <=? of_Z 1000000000)%js = true ->
    exists n : Z,
      (round2 x = lit n 100 \/ (n = 0 /\ round2 x = S754_zero true))
      /\ Number.isFinite (round2 x) = true
      /\ (100 * valor x - 5005 / 10000 <= IZR n <= 100 * valor x + 5005 / 10000)%R
      /\ (valor x - 5007 / 1000000 <= valor (round2 x)
          <= valor x + 5007 / 1000000)%R.
Proof.
  intros x B L1 L2.
  pose proof (entre_finitos x _ _ L1 L2 eq_refl eq_refl) as F.
  destruct valor_of_Z_bilhao as [V1 V2].
  apply nleb_valor in L1, L2; try assumption; try reflexivity.
  rewrite V2 in L1. rewrite V1 in L2.
  destruct (round2_forma x B F ltac:(lra)) as (n & s & E & Hn & Rn).
  exists n.
  destruct (Z.eq_dec n 0) as [-> | Nz].
  - cbn [binary_normalize] in E. destruct s.
    + change (S754_zero true / of_Z 100)%js with (S754_zero true) in E.
      rewrite E. cbn [valor Number.isFinite].
      split; [right; split; reflexivity | split; [reflexivity | split; split; lra]].
    + change (S754_zero false / of_Z 100)%js with (lit 0 100) in E.
      rewrite E. change (valor (lit 0 100)) with 0%R.
      split; [left; reflexivity | split; [reflexivity | split; split; lra]].
  - rewrite binary_normalize_nz in E by exact Nz. fold (lit n 100) in E.
    destruct (lit_cem n Hn) as (Bl & Fl & Hl). rewrite E.
    assert (/ 524288 <= 2 / 1000000)%R by lra.
    split; [left; reflexivity | split; [exact Fl | split; split; lra]].
Qed.

Lemma round2_centavo_proximo_exemplo :
  binary64 (lit 1005 1000)
  /\ (of_Z (-1000000000) <=? lit 1005 1000)%js = true
  /\ (lit 1005 1000 <=? of_Z 1000000000)%js = true
  /\ exists n : Z,
       (round2 (lit 1005 1000) = lit n 100
        \/ (n = 0 /\ round2 (lit 1005 1000) = S754_zero true))
       /\ Number.isFinite (round2 (lit 1005 1000)) = true
       /\ (100 * valor (lit 1005 1000) - 5005 / 10000 <= IZR n
           <= 100 * valor (lit 1005 1000) + 5005 / 10000)%R
       /\ (valor (lit 1005 1000) - 5007 / 1000000 <= valor (round2 (lit 1005 1000))
           <= valor (lit 1005 1000) + 5007 / 1000000)%R.
Proof.
  assert (B : binary64 (lit 1005 1000)) by reflexivity.
  assert (L1 : (of_Z (-1000000000) <=? lit 1005 1000)%js = true)
    by (vm_compute; reflexivity).
  assert (L2 : (lit 1005 1000 <=? of_Z 1000000000)%js = true)
    by (vm_compute; reflexivity).
  split; [exact B |]. split; [exact L1 |]. split; [exact L2 |].
  apply (round2_centavo_proximo _ B L1 L2).
Defined.

(** ** Amounts of whole cents are ordered as their cents *)

Lemma IZR_1e12 n :
  Z.abs n <= 10 ^ 12 -> (- 1000000000000 <= IZR n <= 1000000000000)%R.
Proof.
  intros Hn.
  split; [change (- 1000000000000)%R with (IZR (- 10 ^ 12))
         | change 1000000000000%R with (IZR (10 ^ 12))]; apply IZR_le; lia.
Qed.

Lemma lit_mono_lt a b :
  Z.abs a <= 10 ^ 12 -> Z.abs b <= 10 ^ 12 -> a < b ->
  (lit a 100 <? lit b 100)%js = true.
Proof.
  intros Ha Hb L.
  destruct (lit_cem a Ha) as (_ & Fa & Va). destruct (lit_cem b Hb) as (_ & Fb & Vb).
  apply nltb_valor; [exact Fa | exact Fb |].
  assert (IZR a + 1 <= IZR b)%R by (rewrite <- plus_IZR; apply IZR_le; lia).
  assert (/ 524288 <= 2 / 1000000)%R by lra. lra.
Qed.

Lemma lit_mono a b :
  Z.abs a <= 10 ^ 12 -> Z.abs b <= 10 ^ 12 -> a <= b ->
  (lit a 100 <=? lit b 100)%js = true.
Proof.
  intros Ha Hb L.
  destruct (lit_cem a Ha) as (_ & Fa & _). destruct (lit_cem b Hb) as (_ & Fb & _).
  destruct (Z.eq_dec a b) as [-> | N].
  - apply nleb_refl. intros E. rewrite E in Fb. discriminate Fb.
  - pose proof (lit_mono_lt a b Ha Hb ltac:(lia)) as X.
    apply nltb_valor in X; [| exact Fa | exact Fb].
    apply nleb_valor; [exact Fa | exact Fb | lra].
Qed.

Lemma lit_nleb a b :
  Z.abs a <= 10 ^ 12 -> Z.abs b <= 10 ^ 12 ->
  (lit a 100 <=? lit b 100)%js = (a <=? b).
Proof.
  intros Ha Hb.
  destruct (lit_cem a Ha) as (_ & Fa & _). destruct (lit_cem b Hb) as (_ & Fb & _).
  destruct (Z.leb_spec a b) as [L | G].
  - apply lit_mono; assumption.
  - pose proof (lit_mono_lt b a Hb Ha G) as X.
    apply nltb_valor in X; [| exact Fb | exact Fa].
    destruct (lit a 100 <=? lit b 100)%js eqn:E; [| reflexivity].
    apply nleb_valor in E; [| exact Fa | exact Fb]. lra.
Qed.

Lemma lit_nltb a b :
  Z.abs a <= 10 ^ 12 -> Z.abs b <= 10 ^ 12 ->
  (lit a 100 <? lit b 100)%js = (a <? b).
Proof.
  intros Ha Hb.
  destruct (lit_cem a Ha) as (_ & Fa & _). destruct (lit_cem b Hb) as (_ & Fb & _).
  destruct (Z.ltb_spec a b) as [L | G].
  - apply lit_mono_lt; assumption.
  - pose proof (lit_mono b a Hb Ha G) as X.
    apply nleb_valor in X; [| exact Fb | exact Fa].
    destruct (lit a 100 <? lit b 100)%js eqn:E; [| reflexivity].
    apply nltb_valor in E; [| exact Fa | exact Fb]. lra.
Qed.

(** Two amounts of whole cents are the same number only for the same
    cents. *)
Lemma lit_inj a b :
  Z.abs a <= 10 ^ 12 -> Z.abs b <= 10 ^ 12 -> lit a 100 = lit b 100 -> a = b.
Proof.
  intros Ha Hb E.
  destruct (lit_cem a Ha) as (_ & Fa & _).
  assert (N : lit a 100 <> NaN) by (intros X; rewrite X in Fa; discriminate Fa).
  pose proof (nleb_refl _ N) as R.
  pose proof R as R'. rewrite E in R at 2. rewrite E in R' at 1.
  rewrite lit_nleb in R, R' by assumption.
  apply Z.leb_le in R, R'. lia.
Qed.

(** ** Bounds of [round2] at a cent *)

Lemma num_finito x : binary64 x -> Number.isFinite x = true -> num x.
Proof. intros B F. split; [exact B | intros E; rewrite E in F; discriminate F]. Qed.

Lemma round2_menos_inf : round2 (S754_infinity true) = S754_infinity true.
Proof. reflexivity. Qed.

Lemma round2_mais_inf : round2 (S754_infinity false) = S754_infinity false.
Proof. reflexivity. Qed.

(** Far below zero. *)
Lemma round2_muito_abaixo x :
  num x -> (x <=? of_Z (-10000000000))%js = true ->
  (round2 x <=? of_Z (-9999999999))%js = true.
Proof.
  intros Nx L.
  assert (V1 : valor (of_Z (-10000000000)) = (- 10000000000)%R)
    by (apply (of_Z_exato (-10000000000)); cbn; lia).
  assert (V2 : valor (of_Z (-9999999999)) = (- 9999999999)%R)
    by (apply (of_Z_exato (-9999999999)); cbn; lia).
  assert (V3 : valor (of_Z (-999999999900)) = (- 999999999900)%R)
    by (apply (of_Z_exato (-999999999900)); cbn; lia).
  apply (round2_ate x (of_Z (-10000000000)) (of_Z (-9999999999)) (-999999999900)
           (of_Z (-999999999900)) (of_Z (-9999999999)));
    try reflexivity; try assumption;
    rewrite ?V1, ?V2, ?V3, ?valor_EPSILON, ?valor_cem; try lra.
Qed.

(** A number at most 0.4 cent above [K] cents is rounded to at most [K]
    cents. *)
Lemma round2_abaixo x K :
  num x -> Z.abs K <= 10 ^ 11 ->
  x = S754_infinity true
  \/ (Number.isFinite x = true /\ (valor x <= IZR K / 100 + 4 / 1000)%R) ->
  (round2 x <=? lit K 100)%js = true.
Proof.
  intros Nx HK H.
  assert (HK' : Z.abs K <= 10 ^ 12)
    by (change (10 ^ 11) with 100000000000 in HK; change (10 ^ 12) with 1000000000000; lia).
  destruct (lit_cem K HK') as (BK & FK & VK).
  assert (RK : (- 100000000000 <= IZR K <= 100000000000)%R).
  { split; [change (- 100000000000)%R with (IZR (- 10 ^ 11))
           | change 100000000000%R with (IZR (10 ^ 11))]; apply IZR_le; lia. }
  assert (Hs : (/ 524288 <= 2 / 1000000)%R) by lra.
  destruct H as [-> | [F Hx]].
  { rewrite round2_menos_inf. apply nleb_menos_inf, FK. }
  destruct Nx as [Bx Nx].
  destruct (Rle_or_lt (- 10000000000) (valor x)) as [G | Lw].
  - destruct (round2_forma x Bx F ltac:(lra)) as (n & s & E & Hn & Rn).
    assert (LnK : n <= K).
    { assert (IZR n < IZR K + 1)%R as X by lra.
      rewrite <- plus_IZR in X. apply lt_IZR in X. lia. }
    rewrite E. destruct (Z.eq_dec n 0) as [-> | Nz].
    + cbn [binary_normalize].
      assert (Z0 : (S754_zero s / of_Z 100)%js = S754_zero s)
        by (destruct s; reflexivity).
      rewrite Z0. apply nleb_valor; [reflexivity | exact FK |].
      cbn [valor].
      destruct (Z.eq_dec K 0) as [-> | NK].
      * change (valor (lit 0 100)) with 0%R. lra.
      * assert (1 <= IZR K)%R by (apply IZR_le; lia). lra.
    + rewrite binary_normalize_nz by exact Nz. fold (lit n 100).
      apply lit_mono; assumption.
  - assert (L : (x <=? of_Z (-10000000000))%js = true).
    { apply nleb_valor; [exact F | reflexivity |].
      replace (valor (of_Z (-10000000000))) with (- 10000000000)%R
        by (symmetry; apply (of_Z_exato (-10000000000)); cbn; lia).
      lra. }
    apply (nleb_trans _ _ _ (round2_muito_abaixo x (conj Bx Nx) L)).
    apply nleb_valor; [reflexivity | exact FK |].
    replace (valor (of_Z (-9999999999))) with (- 9999999999)%R
      by (symmetry; apply (of_Z_exato (-9999999999)); cbn; lia).
    lra.
Qed.

(** Lower bounds through the operations *)

Lemma desde_nadd x y B1 B2 :
  num x -> (B1 <=? x)%js = true -> Number.isFinite B1 = true ->
  binary64 y -> Number.isFinite y = true ->
  binary64 B2 -> Number.isFinite B2 = true ->
  (valor B2 <= valor B1 + valor y)%R ->
  (B2 <=? x + y)%js = true.
Proof.
  intros Nx L F1 By Fy B2' F2 H.
  destruct (nleb_finito_inf x B1 Nx F1 L) as [-> | (Bx & Fx & Vx)].
  - destruct y; try discriminate; apply nleb_mais_inf, F2.
  - destruct (nadd_spec x y Bx By Fx Fy) as (_ & _ & _ & Lw).
    apply Lw; [exact B2' | exact F2 | lra].
Qed.

Lemma desde_nmul_r x y B1 B2 :
  num x -> (B1 <=? x)%js = true -> Number.isFinite B1 = true ->
  positivo y ->
  binary64 B2 -> Number.isFinite B2 = true ->
  (valor B2 <= valor B1 * valor y)%R ->
  (B2 <=? x * y)%js = true.
Proof.
  intros Nx L F1 Py B2' F2 H. pose proof (positivo_valor y Py) as Vy.
  pose proof Py as (By & my & ey & Ey).
  destruct (nleb_finito_inf x B1 Nx F1 L) as [-> | (Bx & Fx & Vx)].
  - rewrite Ey. apply nleb_mais_inf, F2.
  - destruct (nmul_spec x y Bx By Fx (positivo_finito y Py)) as (_ & _ & _ & Lw).
    apply Lw; [exact B2' | exact F2 | nra].
Qed.

Lemma desde_round x B1 B2 K :
  num x -> (B1 <=? x)%js = true -> Number.isFinite B1 = true ->
  binary64 B2 -> Number.isFinite B2 = true ->
  (IZR K <= valor B1)%R -> (valor B2 <= IZR K)%R ->
  (B2 <=? Math.round x)%js = true.
Proof.
  intros Nx L F1 B2' F2 H1 H2.
  destruct (nleb_finito_inf x B1 Nx F1 L) as [-> | (Bx & Fx & Vx)].
  - apply nleb_mais_inf, F2.
  - destruct x as [s | s | | s m e]; try discriminate.
    + apply nleb_valor; [exact F2 | reflexivity |]. cbn [Math.round]. lra.
    + destruct (Z_le_gt_dec 0 e) as [P | N].
      * cbn [Math.round]. destruct (Z.leb_spec 0 e); [| lia].
        apply nleb_valor; [exact F2 | reflexivity | lra].
      * destruct (round_finite s m e ltac:(lia)) as [-> [_ Ln]].
        set (n := (2 * signed s m + 2 ^ (- e)) / 2 ^ (- e + 1)) in *.
        destruct (binary_normalize_spec n 0 s) as (_ & _ & _ & Lw).
        apply Lw; [exact B2' | exact F2 |].
        rewrite bpow_0', Rmult_1_r.
        assert (IZR K < IZR (n + 1))%R as X by (rewrite plus_IZR; lra).
        apply lt_IZR in X. assert (K <= n) as X' by lia. apply IZR_le in X'. lra.
Qed.

Lemma round2_desde x B1 K BK B3 :
  num x -> (B1 <=? x)%js = true ->
  constante B1 = true -> constante BK = true -> constante B3 = true ->
  (IZR K <= valor B1 * valor (of_Z 100))%R ->
  valor BK = IZR K ->
  (valor B3 <= IZR K / valor (of_Z 100))%R ->
  (B3 <=? round2 x)%js = true.
Proof.
  intros Nx L C1 CK C3 H2 H3 H4.
  apply constante_ok in C1, CK, C3.
  destruct C1 as [b1 f1], CK as [bk fk], C3 as [b3 f3].
  destruct EPSILON_positivo as [Be _].
  pose proof (positivo_finito _ EPSILON_positivo) as Fe.
  pose proof (positivo_valor _ EPSILON_positivo) as Ve.
  assert (N1 : num (x + Number.EPSILON)%js) by (apply nadd_num; assumption).
  assert (L1 : (B1 <=? x + Number.EPSILON)%js = true)
    by (apply (desde_nadd x _ B1 B1); try assumption; lra).
  assert (N2 : num ((x + Number.EPSILON) * of_Z 100)%js)
    by (apply nmul_num; [exact N1 | exact cem_positivo]).
  assert (L2 : (BK <=? (x + Number.EPSILON) * of_Z 100)%js = true).
  { apply (desde_nmul_r _ _ B1 BK); try assumption; [exact cem_positivo | lra]. }
  assert (N3 : num (Math.round ((x + Number.EPSILON) * of_Z 100)%js))
    by (apply round_num, N2).
  assert (L3 : (BK <=? Math.round ((x + Number.EPSILON) * of_Z 100)%js)%js = true).
  { apply (desde_round _ BK BK K); try assumption; lra. }
  unfold round2. apply (desde_ndiv _ _ BK B3); try assumption;
    [exact cem_positivo | rewrite H3; exact H4].
Qed.

(** Far above zero. *)
Lemma round2_muito_acima x :
  num x -> (of_Z 10000000000 <=? x)%js = true ->
  (of_Z 9999999999 <=? round2 x)%js = true.
Proof.
  intros Nx L.
  assert (V1 : valor (of_Z 10000000000) = 10000000000%R)
    by (apply (of_Z_exato 10000000000); cbn; lia).
  assert (V2 : valor (of_Z 9999999999) = 9999999999%R)
    by (apply (of_Z_exato 9999999999); cbn; lia).
  assert (V3 : valor (of_Z 999999999900) = 999999999900%R)
    by (apply (of_Z_exato 999999999900); cbn; lia).
  apply (round2_desde x (of_Z 10000000000) 999999999900
           (of_Z 999999999900) (of_Z 9999999999));
    try reflexivity; try assumption;
    rewrite ?V1, ?V2, ?V3, ?valor_cem; try lra.
Qed.

(** A number at most 0.4 cent below [K] cents is rounded to at least [K]
    cents. *)
Lemma round2_acima x K :
  num x -> Z.abs K <= 10 ^ 11 ->
  x = S754_infinity false
  \/ (Number.isFinite x = true /\ (IZR K / 100 - 4 / 1000 <= valor x)%R) ->
  (lit K 100 <=? round2 x)%js = true.
Proof.
  intros Nx HK H.
  assert (HK' : Z.abs K <= 10 ^ 12)
    by (change (10 ^ 11) with 100000000000 in HK; change (10 ^ 12) with 1000000000000; lia).
  destruct (lit_cem K HK') as (BK & FK & VK).
  assert (RK : (- 100000000000 <= IZR K <= 100000000000)%R).
  { split; [change (- 100000000000)%R with (IZR (- 10 ^ 11))
           | change 100000000000%R with (IZR (10 ^ 11))]; apply IZR_le; lia. }
  assert (Hs : (/ 524288 <= 2 / 1000000)%R) by lra.
  destruct H as [-> | [F Hx]].
  { rewrite round2_mais_inf. apply nleb_mais_inf, FK. }
  destruct Nx as [Bx Nx].
  destruct (Rle_or_lt (valor x) 10000000000) as [G | Up].
  - destruct (round2_forma x Bx F ltac:(lra)) as (n & s & E & Hn & Rn).
    assert (LnK : K <= n).
    { assert (IZR K < IZR n + 1)%R as X by lra.
      rewrite <- plus_IZR in X. apply lt_IZR in X. lia. }
    rewrite E. destruct (Z.eq_dec n 0) as [-> | Nz].
    + cbn [binary_normalize].
      assert (Z0 : (S754_zero s / of_Z 100)%js = S754_zero s)
        by (destruct s; reflexivity).
      rewrite Z0. apply nleb_valor; [exact FK | reflexivity |].
      cbn [valor].
      destruct (Z.eq_dec K 0) as [-> | NK].
      * change (valor (lit 0 100)) with 0%R. lra.
      * assert (IZR K <= -1)%R by (apply (IZR_le K (-1)); lia). lra.
    + rewrite binary_normalize_nz by exact Nz. fold (lit n 100).
      apply lit_mono; assumption.
  - assert (L : (of_Z 10000000000 <=? x)%js = true).
    { apply nleb_valor; [reflexivity | exact F |].
      replace (valor (of_Z 10000000000)) with 10000000000%R
        by (symmetry; apply (of_Z_exato 10000000000); cbn; lia).
      lra. }
    refine (nleb_trans _ _ _ _ (round2_muito_acima x (conj Bx Nx) L)).
    apply nleb_valor; [exact FK | reflexivity |].
    replace (valor (of_Z 9999999999)) with 9999999999%R
      by (symmetry; apply (of_Z_exato 9999999999); cbn; lia).
    lra.
Qed.

(** ** The deductions are not negative *)

Lemma nneg_num x : binary64 x -> (of_Z 0 <=? x)%js = true -> num x.
Proof.
  intros B N. split; [exact B | intros ->; discriminate N].
Qed.

Lemma nmul_nneg x y :
  binary64 x -> (of_Z 0 <=? x)%js = true -> positivo y ->
  binary64 (x * y)%js /\ (of_Z 0 <=? x * y)%js = true.
Proof.
  intros B N Py. pose proof Py as (By & my & ey & Ey).
  split; [apply nmul_binary64; assumption |].
  destruct (nneg_casos x N) as [[s ->] | [-> | (m & e & ->)]].
  - rewrite Ey. destruct s; reflexivity.
  - rewrite Ey. reflexivity.
  - apply pos0_nneg. apply (nmul_pos0 _ y); [split; [exact B | reflexivity] | exact Py].
Qed.

Lemma nadd_nneg x y :
  binary64 x -> binary64 y ->
  (of_Z 0 <=? x)%js = true -> (of_Z 0 <=? y)%js = true ->
  binary64 (x + y)%js /\ (of_Z 0 <=? x + y)%js = true.
Proof.
  intros Bx By Nx Ny. split; [apply nadd_binary64; assumption |].
  destruct (nneg_casos x Nx) as [[sx ->] | [-> | (mx & ex & ->)]];
    destruct (nneg_casos y Ny) as [[sy ->] | [-> | (my & ey & ->)]];
    try (destruct sx; reflexivity); try (destruct sy; reflexivity);
    try (destruct sx, sy; reflexivity); try reflexivity.
  destruct (nadd_spec _ _ Bx By eq_refl eq_refl) as (_ & _ & _ & Lw).
  apply Lw; [reflexivity | reflexivity |].
  pose proof (valor_sinal false mx ex). pose proof (valor_sinal false my ey).
  cbn beta iota in *. change (valor (of_Z 0)) with 0%R. lra.
Qed.

Section Deducoes.

Variables rt po qd pa : number.
Hypothesis V : entradas_validas rt po qd pa = true.
Hypothesis B : entradas_binary64 rt po qd pa.

Lemma validas_partes :
  Number.isFinite rt = true /\ Number.isFinite po = true
  /\ Number.isFinite qd = true /\ Number.isFinite pa = true
  /\ (of_Z 0 <=? rt)%js = true /\ (of_Z 0 <=? po)%js = true
  /\ (of_Z 0 <=? pa)%js = true /\ (of_Z 0 <=? qd)%js = true.
Proof.
  pose proof V as H. unfold entradas_validas in H. rewrite !andb_true_iff in H.
  tauto.
Qed.

Lemma deducao_dependentes_pos0 : pos0 (deducao_dependentes qd).
Proof.
  destruct validas_partes as (_ & _ & _ & _ & _ & _ & _ & Nq).
  destruct B as (_ & _ & Bq & _).
  assert (Pc : positivo DEDUCAO_POR_DEPENDENTE)
    by (split; [reflexivity | vm_compute; eauto]).
  destruct (nmul_nneg qd _ Bq Nq Pc) as [Bm Nm].
  apply round2_pos0; assumption.
Qed.

Lemma soma_deducoes_pos0 : pos0 (soma_deducoes po qd pa).
Proof.
  destruct validas_partes as (_ & _ & _ & _ & _ & Np & Na & _).
  destruct B as (_ & Bp & _ & Ba).
  pose proof deducao_dependentes_pos0 as [Bd Sd].
  pose proof (round2_pos0 pa Ba Na) as [Br Sr].
  destruct (nadd_nneg po _ Bp Bd Np (pos0_nneg _ Sd)) as [B1 N1].
  destruct (nadd_nneg _ _ B1 Br N1 (pos0_nneg _ Sr)) as [B2 N2].
  apply round2_pos0; assumption.
Qed.

(** The deduction applied is at least 607.20. *)
Lemma deducao_total_minima :
  pos0 (deducao_total_aplicada po qd pa)
  /\ (lit 60720 100 <=? deducao_total_aplicada po qd pa)%js = true.
Proof.
  pose proof soma_deducoes_pos0 as Ps. pose proof (pos0_num _ Ps) as [Bs Ns].
  unfold deducao_total_aplicada.
  set (m := Math.max (soma_deducoes po qd pa) DESCONTO_SIMPLIFICADO_MINIMO).
  assert (Nc : DESCONTO_SIMPLIFICADO_MINIMO <> NaN) by discriminate.
  assert (Lm : (lit 60720 100 <=? m)%js = true).
  { destruct (max_casos _ _ Ns Nc) as [[E L] | [E L]]; fold m in E; rewrite E.
    - exact L.
    - reflexivity. }
  assert (Bm : binary64 m) by (apply max_binary64; [exact Bs | reflexivity]).
  assert (N0 : (of_Z 0 <=? m)%js = true)
    by (refine (nleb_trans _ _ _ _ Lm); reflexivity).
  split; [apply round2_pos0; assumption |].
  apply round2_acima; [apply nneg_num; assumption | cbn; lia |].
  destruct (nleb_finito_inf m (lit 60720 100) (nneg_num _ Bm N0) eq_refl Lm) as [-> | (_ & Fm & Vm)];
    [left; reflexivity | right].
  split; [exact Fm |].
  destruct (lit_cem 60720 ltac:(cbn; lia)) as (_ & _ & Vc).
  assert (/ 524288 <= 2 / 1000000)%R by lra. lra.
Qed.

(** The base, for an income of at most [L] cents: at most [L - 60720]
    cents. *)
Lemma base_ate (L : Z) :
  0 <= L <= 10 ^ 11 ->
  (valor rt <= IZR L / 100)%R ->
  (base_liquida_irrf rt po qd pa <=? lit (L - 60720) 100)%js = true.
Proof.
  intros HL Hr.
  destruct validas_partes as (Fr & _). destruct B as (Br & _).
  destruct deducao_total_minima as [Pd Ld]. pose proof (pos0_num _ Pd) as Nd.
  unfold base_liquida_irrf.
  set (d := deducao_total_aplicada po qd pa) in *.
  pose proof (nsub_num rt d Br Fr Nd) as Nx.
  apply round2_abaixo; [exact Nx | change (10 ^ 11) with 100000000000 in *; lia |].
  destruct (lit_cem 60720 ltac:(cbn; lia)) as (_ & _ & Vc).
  assert (Hs : (/ 524288 <= 2 / 1000000)%R) by lra.
  destruct (nleb_finito_inf d (lit 60720 100) Nd eq_refl Ld) as [-> | (Bd & Fd & Vd)].
  - left. destruct rt; try discriminate Fr; reflexivity.
  - pose proof (nsub_spec rt d Br Bd Fr Fd) as A.
    assert (RL : (0 <= IZR L <= 100000000000)%R).
    { split; [apply (IZR_le 0) | apply (IZR_le L (10 ^ 11))]; lia. }
    assert (P0 : (0 <= valor rt)%R).
    { destruct validas_partes as (_ & _ & _ & _ & Nr & _).
      apply nleb_valor in Nr; [exact Nr | reflexivity | exact Fr]. }
    assert (Pd0 : (607 <= valor d)%R) by lra.
    destruct (Rle_or_lt (valor d) 10000000000) as [Sm | Bg].
    + destruct (perto _ _ (-19) A ltac:(lia)) as (Fx & _ & Hx).
      { change (53 + -19) with 34. rewrite bpow_34. lra. }
      rewrite bpow_m19 in Hx. right. split; [exact Fx |].
      rewrite minus_IZR. lra.
    + destruct A as (Bx & _ & Up & _).
      assert (X : (rt - d <=? of_Z (-1000000000))%js = true).
      { apply Up; [reflexivity | reflexivity |].
        replace (valor (of_Z (-1000000000))) with (- 1000000000)%R
          by (symmetry; apply (of_Z_exato (-1000000000)); cbn; lia).
        lra. }
      destruct (nleb_finito_sup _ (of_Z (-1000000000)) Nx eq_refl X) as [E | (_ & Fx & Vx)].
      * left. exact E.
      * right. split; [exact Fx |].
        replace (valor (of_Z (-1000000000))) with (- 1000000000)%R in Vx
          by (symmetry; apply (of_Z_exato (-1000000000)); cbn; lia).
        rewrite minus_IZR. lra.
Qed.

End Deducoes.

(** ** Incomes that pay nothing *)

Lemma ate_nsub_l x c B1 B2 :
  num x -> (x <=? B1)%js = true -> Number.isFinite B1 = true ->
  binary64 c -> Number.isFinite c = true ->
  binary64 B2 -> Number.isFinite B2 = true ->
  (valor B1 - valor c <= valor B2)%R ->
  (x - c <=? B2)%js = true.
Proof.
  intros Nx L F1 Bc Fc B2' F2 H.
  destruct (nleb_finito_sup x B1 Nx F1 L) as [-> | (Bx & Fx & Vx)].
  - destruct c; try discriminate; apply nleb_menos_inf, F2.
  - destruct (nsub_spec x c Bx Bc Fx Fc) as (_ & _ & U & _).
    apply U; [exact B2' | exact F2 | lra].
Qed.

(** The guards of lines 86 and 87 keep an upper bound that is not
    negative. *)
Lemma guardas_ate v B :
  (of_Z 0 <=? B)%js = true -> (Number.isFinite v = true -> (v <=? B)%js = true) ->
  ((let v1 := if negb (Number.isFinite v) then of_Z 0 else v in
    if (v1 <? of_Z 0)%js then of_Z 0 else v1) <=? B)%js = true.
Proof.
  intros N0 H. cbv zeta. destruct (Number.isFinite v) eqn:F; cbn [negb].
  - destruct (v <? of_Z 0)%js; [exact N0 | exact (H eq_refl)].
  - exact N0.
Qed.

(** The table formula of a row with a positive rate, for a base of at most
    [Bb]. *)
Lemma formula_ate base q d Bb Bp Bv :
  num base -> (base <=? Bb)%js = true ->
  constante Bb = true -> positivo q -> constante d = true ->
  constante Bp = true -> constante Bv = true ->
  (valor Bb * valor q <= valor Bp)%R ->
  (valor Bp - valor d <= valor Bv)%R ->
  (base * q - d <=? Bv)%js = true.
Proof.
  intros Nb L Cb Pq Cd Cp Cv H1 H2.
  apply constante_ok in Cb, Cd, Cp, Cv.
  destruct Cb as [bb fb], Cd as [bd fd], Cp as [bp fp], Cv as [bv fv].
  apply (ate_nsub_l _ _ Bp); try assumption.
  - apply nmul_num; assumption.
  - apply (ate_nmul _ _ Bb); assumption.
Qed.

Section Isencao.

Variables rt po qd pa : number.
Hypothesis V : entradas_validas rt po qd pa = true.
Hypothesis B : entradas_binary64 rt po qd pa.

Lemma base_num : num (base_liquida_irrf rt po qd pa).
Proof.
  destruct (validas_partes rt po qd pa V) as (Fr & _). destruct B as (Br & _).
  destruct (deducao_total_minima rt po qd pa V B) as [Pd _].
  apply round2_num, nsub_num; [exact Br | exact Fr | apply pos0_num, Pd].
Qed.

(** Up to an income of 3036.00 the base stays on the first row. *)
Lemma base_ate_3036 :
  (rt <=? of_Z 3036)%js = true ->
  (base_liquida_irrf rt po qd pa <=? lit 242880 100)%js = true.
Proof.
  intros L. destruct (validas_partes rt po qd pa V) as (Fr & _).
  apply (base_ate rt po qd pa V B 303600); [cbn; lia |].
  apply nleb_valor in L; [| exact Fr | reflexivity].
  replace (valor (of_Z 3036)) with 3036%R in L
    by (symmetry; apply (of_Z_exato 3036); cbn; lia).
  lra.
Qed.

(** Up to an income of 5000.00 the tax is at most 312.89. *)
Lemma valor_irrf_ate_31289 :
  (rt <=? of_Z 5000)%js = true ->
  (valor_irrf rt po qd pa <=? lit 31289 100)%js = true.
Proof.
  intros L. destruct (validas_partes rt po qd pa V) as (Fr & _).
  assert (Lb : (base_liquida_irrf rt po qd pa <=? lit 439280 100)%js = true).
  { apply (base_ate rt po qd pa V B 500000); [cbn; lia |].
    apply nleb_valor in L; [| exact Fr | reflexivity].
    rewrite valor_5000 in L. lra. }
  pose proof base_num as Nb.
  destruct (valor_irrf_bruto_nneg rt po qd pa) as [Bv Nv].
  assert (Lv : (valor_irrf_bruto rt po qd pa <=? lit 312891 1000)%js = true).
  { unfold valor_irrf_bruto, aliquota_irrf, deducao_conforme_tabela.
    set (base := base_liquida_irrf rt po qd pa) in *.
    unfold escolherFaixa, TABELA_IRRF_052025. cbn [escolher_em limite].
    destruct (base <=? lit 242880 100)%js eqn:C1.
    { cbn [aliquota deducao]. apply guardas_ate; [reflexivity |]. intros Fv.
      change (lit 0 10 / of_Z 100)%js with (S754_zero false) in Fv |- *.
      change (lit 0 10) with (S754_zero false) in Fv |- *.
      destruct base as [[] | [] | | [] m e]; try discriminate C1;
        try discriminate Fv; reflexivity. }
    destruct (base <=? lit 282665 100)%js eqn:C2.
    { cbn [aliquota deducao]. apply guardas_ate; [reflexivity |]. intros _.
      valor_de (lit 282665 100) 2826651 1000. valor_de (lit 75 10 / of_Z 100)%js 751 10000.
      valor_de (lit 282665 100) 0 1. valor_de (lit 75 10 / of_Z 100)%js 0 1.
      valor_de (of_Z 213) 213 1. valor_de (lit 18216 100) 182 1.
      valor_de (lit 312891 1000) 31 1.
      apply (formula_ate base _ _ (lit 282665 100) (of_Z 213) (lit 312891 1000));
        try reflexivity; try assumption;
        [split; [reflexivity | vm_compute; eauto] | nra | lra]. }
    destruct (base <=? lit 375105 100)%js eqn:C3.
    { cbn [aliquota deducao]. apply guardas_ate; [reflexivity |]. intros _.
      valor_de (lit 375105 100) 3751051 1000. valor_de (lit 150 10 / of_Z 100)%js 1501 10000.
      valor_de (lit 375105 100) 0 1. valor_de (lit 150 10 / of_Z 100)%js 0 1.
      valor_de (of_Z 564) 564 1. valor_de (lit 39416 100) 394 1.
      valor_de (lit 312891 1000) 170 1.
      apply (formula_ate base _ _ (lit 375105 100) (of_Z 564) (lit 312891 1000));
        try reflexivity; try assumption;
        [split; [reflexivity | vm_compute; eauto] | nra | lra]. }
    assert (C4 : (base <=? lit 466468 100)%js = true)
      by (apply (nleb_trans _ _ _ Lb); vm_compute; reflexivity).
    rewrite C4. cbn [aliquota deducao]. apply guardas_ate; [reflexivity |]. intros _.
    valor_de (lit 439280 100) 43928000001 10000000.
    valor_de (lit 225 10 / of_Z 100)%js 2250000001 10000000000.
    valor_de (lit 439280 100) 0 1. valor_de (lit 225 10 / of_Z 100)%js 0 1.
    valor_de (lit 9883801 10000) 988380001 1000000.
    valor_de (lit 9883801 10000) 988380101 1000000.
    valor_de (lit 67549 100) 6754899 10000.
    valor_de (lit 312891 1000) 3128909 10000.
    apply (formula_ate base _ _ (lit 439280 100) (lit 9883801 10000) (lit 312891 1000));
      try reflexivity; try assumption;
      [split; [reflexivity | vm_compute; eauto] | nra | lra]. }
  unfold valor_irrf. apply round2_abaixo; [apply nneg_num; assumption | cbn; lia |].
  right.
  pose proof (entre_finitos _ _ _ Nv Lv eq_refl eq_refl) as Fv.
  split; [exact Fv |].
  apply nleb_valor in Lv; [| exact Fv | reflexivity].
  valor_de (lit 312891 1000) 3128911 10000. lra.
Qed.

End Isencao.

(** X2.  A valid request with an income of at most 3036.00 pays no tax,
    whatever its deductions: the deduction applied is at least 607.20, so the
    base is at most 2428.80, the rate is 0, and the tax, the reduction and
    the final tax of both revisions are exactly 0. *)
Theorem isento_ate_3036 :
  forall rt po qd pa : number,
    entradas_validas rt po qd pa = true -> entradas_binary64 rt po qd pa ->
    (rt <=? of_Z 3036)%js = true ->
    (lit 60720 100 <=? deducao_total_aplicada po qd pa)%js = true
    /\ (base_liquida_irrf rt po qd pa <=? lit 242880 100)%js = true
    /\ aliquota_irrf rt po qd pa = of_Z 0
    /\ valor_irrf rt po qd pa = of_Z 0
    /\ V1.valor_irrf_apos_pl_1087_25 rt po qd pa = of_Z 0
    /\ V2.valor_irrf_apos_pl_1087_25 rt po qd pa = of_Z 0.
Proof.
  intros rt po qd pa V B L.
  pose proof (base_ate_3036 rt po qd pa V B L) as Lb.
  destruct (deducao_total_minima rt po qd pa V B) as [_ Ld].
  destruct (sem_imposto_nem_reducao rt po qd pa V (proj1 B) Lb)
    as (E1 & E2 & _ & E4 & _ & E6).
  auto 10.
Qed.

Lemma isento_ate_3036_exemplo :
  let rt := of_Z 3036 in
  let po := lit 1050 100 in
  let qd := of_Z 1 in
  let pa := of_Z 0 in
  entradas_validas rt po qd pa = true /\ entradas_binary64 rt po qd pa
  /\ (rt <=? of_Z 3036)%js = true
  /\ valor_irrf rt po qd pa = of_Z 0.
Proof.
  intros rt po qd pa.
  assert (V : entradas_validas rt po qd pa = true) by (vm_compute; reflexivity).
  assert (B : entradas_binary64 rt po qd pa) by (repeat split; reflexivity).
  assert (L : (rt <=? of_Z 3036)%js = true) by (vm_compute; reflexivity).
  split; [exact V |]. split; [exact B |]. split; [exact L |].
  apply (isento_ate_3036 rt po qd pa V B L).
Defined.

(** X3.  A valid request with an income of at most 5000.00 has a tax of at
    most 312.89, so the reduction of PL 1087/25 is the whole tax and the
    final tax is exactly 0, in both revisions and whatever the deductions. *)
Theorem sem_imposto_final_ate_5000 :
  forall rt po qd pa : number,
    entradas_validas rt po qd pa = true -> entradas_binary64 rt po qd pa ->
    (rt <=? of_Z 5000)%js = true ->
    (valor_irrf rt po qd pa <=? lit 31289 100)%js = true
    /\ V1.reducao_pl_1087_25 rt po qd pa = valor_irrf rt po qd pa
    /\ V1.valor_irrf_apos_pl_1087_25 rt po qd pa = of_Z 0
    /\ V2.reducao_pl_formula rt po qd pa = valor_irrf rt po qd pa
    /\ V2.reducao_pl_aplicada rt po qd pa = valor_irrf rt po qd pa
    /\ V2.valor_irrf_apos_pl_1087_25 rt po qd pa = of_Z 0.
Proof.
  intros rt po qd pa V B L.
  pose proof (valor_irrf_ate_31289 rt po qd pa V B L) as Lv.
  destruct (valor_irrf_pos0 rt po qd pa) as [Bv Sv].
  pose proof (pos0_nneg _ Sv) as Nv.
  pose proof (entre_finitos _ _ _ Nv Lv eq_refl eq_refl) as Fv.
  destruct (reducoes_iguais rt po qd pa V (proj1 B)) as [E1 E2].
  assert (R1 : V1.reducao_pl_1087_25 rt po qd pa = valor_irrf rt po qd pa).
  { unfold V1.reducao_pl_1087_25, V1.reducao_inicial. rewrite L, round2_31289.
    apply limite_imposto; try assumption; [reflexivity | discriminate]. }
  assert (A1 : V1.valor_irrf_apos_pl_1087_25 rt po qd pa = of_Z 0).
  { unfold V1.valor_irrf_apos_pl_1087_25. rewrite R1, (nsub_mesmo _ Fv).
    exact round2_zero. }
  split; [exact Lv |]. split; [exact R1 |]. split; [exact A1 |].
  split; [rewrite E1; exact R1 |]. split; [rewrite E2; exact R1 |].
  unfold V2.valor_irrf_apos_pl_1087_25. rewrite E2, R1, (nsub_mesmo _ Fv).
  exact round2_zero.
Qed.

Lemma sem_imposto_final_ate_5000_exemplo :
  let rt := of_Z 5000 in
  let po := of_Z 0 in
  let qd := of_Z 0 in
  let pa := of_Z 0 in
  entradas_validas rt po qd pa = true /\ entradas_binary64 rt po qd pa
  /\ (rt <=? of_Z 5000)%js = true
  /\ V1.valor_irrf_apos_pl_1087_25 rt po qd pa = of_Z 0.
Proof.
  intros rt po qd pa.
  assert (V : entradas_validas rt po qd pa = true) by (vm_compute; reflexivity).
  assert (B : entradas_binary64 rt po qd pa) by (repeat split; reflexivity).
  assert (L : (rt <=? of_Z 5000)%js = true) by (vm_compute; reflexivity).
  split; [exact V |]. split; [exact B |]. split; [exact L |].
  apply (sem_imposto_final_ate_5000 rt po qd pa V B L).
Defined.

(** ** The figures are whole cents *)

(** A number that is not negative, at most ten billion, and that [round2]
    returned is an amount of whole cents. *)
Lemma round2_centavos_nneg x :
  binary64 x -> (of_Z 0 <=? x)%js = true -> (x <=? of_Z 10000000000)%js = true ->
  exists n : Z,
    0 <= n <= 10 ^ 12 /\ round2 x = lit n 100
    /\ (100 * valor x - 5005 / 10000 <= IZR n <= 100 * valor x + 5005 / 10000)%R.
Proof.
  intros B N L.
  pose proof (entre_finitos _ _ _ N L eq_refl eq_refl) as F.
  apply nleb_valor in N, L; try assumption; try reflexivity.
  change (valor (of_Z 0)) with 0%R in N.
  replace (valor (of_Z 10000000000)) with 10000000000%R in L
    by (symmetry; apply (of_Z_exato 10000000000); cbn; lia).
  destruct (round2_forma x B F ltac:(lra)) as (n & s & E & Hn & Rn).
  assert (Pn : 0 <= n).
  { assert (IZR (-1) < IZR n)%R as X by lra. apply lt_IZR in X. lia. }
  exists n. split; [rewrite Z.abs_eq in Hn by exact Pn; lia |].
  split; [| exact Rn].
  destruct (Z.eq_dec n 0) as [-> | Nz].
  - assert (N' : (of_Z 0 <=? x)%js = true)
      by (apply nleb_valor; [reflexivity | exact F | exact N]).
    pose proof (round2_pos0 x B N') as [_ S]. rewrite E in S |- *.
    destruct s; [discriminate S | reflexivity].
  - rewrite E, binary_normalize_nz by exact Nz. reflexivity.
Qed.

(** The difference of two amounts of whole cents, rounded, is the amount of
    the difference of the cents. *)
Lemma round2_diferenca a b :
  Z.abs a <= 10 ^ 12 -> Z.abs b <= 10 ^ 12 -> Z.abs (a - b) <= 10 ^ 12 ->
  round2 (lit a 100 - lit b 100)%js = lit (a - b) 100.
Proof.
  intros Ha Hb Hab.
  destruct (lit_cem a Ha) as (Ba & Fa & Va).
  destruct (lit_cem b Hb) as (Bb & Fb & Vb).
  destruct (Z.eq_dec a b) as [-> | N].
  - rewrite (nsub_mesmo _ Fb), Z.sub_diag. exact round2_zero.
  - pose proof (nsub_spec _ _ Ba Bb Fa Fb) as A.
    pose proof (IZR_1e12 (a - b) Hab) as Rab. rewrite minus_IZR in Rab.
    destruct (perto _ _ (-19) A ltac:(lia)) as (Fx & Bx & Hx).
    { change (53 + -19) with 34. rewrite bpow_34. lra. }
    rewrite bpow_m19 in Hx.
    apply round2_de_perto_nz; [exact Bx | exact Fx | exact Hab | lia |].
    rewrite minus_IZR. split; lra.
Qed.

Section Centavos.

Variables rt po qd pa : number.
Hypothesis V : entradas_validas rt po qd pa = true.
Hypothesis B : entradas_binary64 rt po qd pa.
Hypothesis L : (rt <=? of_Z 1000000000)%js = true.

Lemma bruto_ate_dez_bilhoes :
  (valor_irrf_bruto rt po qd pa <=? of_Z 10000000000)%js = true.
Proof.
  destruct (validas_partes rt po qd pa V) as (Fr & _).
  assert (Lb : (base_liquida_irrf rt po qd pa <=? lit 99999939280 100)%js = true).
  { apply (base_ate rt po qd pa V B 100000000000); [cbn; lia |].
    apply nleb_valor in L; [| exact Fr | reflexivity].
    replace (valor (of_Z 1000000000)) with 1000000000%R in L
      by (symmetry; apply (of_Z_exato 1000000000); cbn; lia).
    lra. }
  pose proof (base_num rt po qd pa V B) as Nb.
  unfold valor_irrf_bruto, aliquota_irrf, deducao_conforme_tabela.
  set (base := base_liquida_irrf rt po qd pa) in *.
  assert (R : forall q d,
             positivo q -> constante d = true ->
             (0 < valor q < 3 / 10)%R -> (0 <= valor d)%R ->
             ((let v1 := if negb (Number.isFinite (base * q - d)%js) then of_Z 0
                         else (base * q - d)%js in
               if (v1 <? of_Z 0)%js then of_Z 0 else v1)
              <=? of_Z 10000000000)%js = true).
  { intros q d Pq Cd Hq Hd. apply guardas_ate; [reflexivity |]. intros _.
    valor_de (lit 99999939280 100) 1000000000 1. valor_de (lit 99999939280 100) 0 1.
    assert (V3 : valor (of_Z 300000000) = 300000000%R)
      by (apply (of_Z_exato 300000000); cbn; lia).
    assert (V4 : valor (of_Z 10000000000) = 10000000000%R)
      by (apply (of_Z_exato 10000000000); cbn; lia).
    apply (formula_ate base q d (lit 99999939280 100) (of_Z 300000000)
             (of_Z 10000000000)); try reflexivity; try assumption.
    - rewrite V3. nra.
    - rewrite V3, V4. lra. }
  unfold escolherFaixa, TABELA_IRRF_052025. cbn [escolher_em limite].
  destruct (base <=? lit 242880 100)%js eqn:C1.
  { cbn [aliquota deducao]. apply guardas_ate; [reflexivity |]. intros Fv.
    change (lit 0 10 / of_Z 100)%js with (S754_zero false) in Fv |- *.
    change (lit 0 10) with (S754_zero false) in Fv |- *.
    destruct base as [[] | [] | | [] m e]; try discriminate C1;
      try discriminate Fv; reflexivity. }
  destruct (base <=? lit 282665 100)%js.
  { cbn [aliquota deducao].
    valor_de (lit 75 10 / of_Z 100)%js 0 1. valor_de (lit 75 10 / of_Z 100)%js 3 10.
    valor_de (lit 18216 100) 0 1.
    apply R; [split; [reflexivity | vm_compute; eauto] | reflexivity | lra | lra]. }
  destruct (base <=? lit 375105 100)%js.
  { cbn [aliquota deducao].
    valor_de (lit 150 10 / of_Z 100)%js 0 1. valor_de (lit 150 10 / of_Z 100)%js 3 10.
    valor_de (lit 39416 100) 0 1.
    apply R; [split; [reflexivity | vm_compute; eauto] | reflexivity | lra | lra]. }
  destruct (base <=? lit 466468 100)%js.
  { cbn [aliquota deducao].
    valor_de (lit 225 10 / of_Z 100)%js 0 1. valor_de (lit 225 10 / of_Z 100)%js 3 10.
    valor_de (lit 67549 100) 0 1.
    apply R; [split; [reflexivity | vm_compute; eauto] | reflexivity | lra | lra]. }
  assert (E : (if (base <=? Infinity)%js then Faixa Infinity (lit 275 10) (lit 90873 100)
               else ultima_faixa) = Faixa Infinity (lit 275 10) (lit 90873 100))
    by (destruct (base <=? Infinity)%js; reflexivity).
  rewrite E. cbn [aliquota deducao].
  valor_de (lit 275 10 / of_Z 100)%js 0 1. valor_de (lit 275 10 / of_Z 100)%js 3 10.
  valor_de (lit 90873 100) 0 1.
  apply R; [split; [reflexivity | vm_compute; eauto] | reflexivity | lra | lra].
Qed.

(** The tax before the reduction is an amount of whole cents. *)
Lemma valor_irrf_centavos :
  exists T : Z, 0 <= T <= 10 ^ 12 /\ valor_irrf rt po qd pa = lit T 100.
Proof.
  destruct (valor_irrf_bruto_nneg rt po qd pa) as [Bv Nv].
  unfold valor_irrf.
  destruct (round2_centavos_nneg _ Bv Nv bruto_ate_dez_bilhoes) as (T & HT & ET & _).
  exists T. split; assumption.
Qed.

End Centavos.

Lemma reducao_inicial_ate_31298 rt :
  binary64 rt -> Number.isFinite rt = true ->
  (round2 (V1.reducao_inicial rt) <=? lit 31298 100)%js = true.
Proof.
  intros B F. unfold V1.reducao_inicial.
  destruct (rt <=? of_Z 5000)%js; [vm_compute; reflexivity |].
  destruct (rt >? of_Z 5000)%js eqn:G; cbn [andb]; [| vm_compute; reflexivity].
  destruct (rt <=? of_Z 7350)%js; [| vm_compute; reflexivity].
  apply formula_pl_ate_31298; assumption.
Qed.

(** X11.  For a valid request with an income of at most one billion, the tax
    before the reduction, the reduction and the final tax are amounts of
    whole cents, and the final tax is exactly the tax minus the reduction,
    cent for cent, in both revisions: the binary roundings of the subtraction
    and of [round2] never shift the result to a neighbouring cent.  The
    final tax is therefore never above the tax before the reduction. *)
Theorem imposto_final_em_centavos :
  forall rt po qd pa : number,
    entradas_validas rt po qd pa = true -> entradas_binary64 rt po qd pa ->
    (rt <=? of_Z 1000000000)%js = true ->
    exists T R : Z,
      0 <= R <= T
      /\ valor_irrf rt po qd pa = lit T 100
      /\ V1.reducao_pl_1087_25 rt po qd pa = lit R 100
      /\ V1.valor_irrf_apos_pl_1087_25 rt po qd pa = lit (T - R) 100
      /\ V2.reducao_pl_formula rt po qd pa = lit R 100
      /\ V2.reducao_pl_aplicada rt po qd pa = lit R 100
      /\ V2.valor_irrf_apos_pl_1087_25 rt po qd pa = lit (T - R) 100
      /\ (V1.valor_irrf_apos_pl_1087_25 rt po qd pa <=? valor_irrf rt po qd pa)%js
         = true
      /\ (V2.valor_irrf_apos_pl_1087_25 rt po qd pa <=? valor_irrf rt po qd pa)%js
         = true.
Proof.
  intros rt po qd pa V B L.
  destruct (validas_partes rt po qd pa V) as (Fr & _).
  destruct (valor_irrf_centavos rt po qd pa V B L) as (T & HT & ET).
  destruct (valor_irrf_pos0 rt po qd pa) as [Bv Sv].
  destruct (reducoes_iguais rt po qd pa V (proj1 B)) as [E1 E2].
  set (R0 := round2 (V1.reducao_inicial rt)).
  assert (NR : R0 <> NaN) by apply (round2_num _ (reducao_inicial_num rt (proj1 B) Fr)).
  assert (Nv : valor_irrf rt po qd pa <> NaN)
    by (intros X; rewrite X in Sv; discriminate Sv).
  assert (HR : exists R, 0 <= R <= T /\ V1.reducao_pl_1087_25 rt po qd pa = lit R 100).
  { unfold V1.reducao_pl_1087_25. fold R0.
    destruct (limite_reducao R0 _ NR Sv) as (H0 & Hle & [E | [[E LR] | [E Lv]]] & _).
    - exists 0. split; [lia | exact E].
    - assert (S0 : sinal R0 = Some false).
      { rewrite <- E. apply max_zero_sinal.
        destruct (min_casos R0 _ NR Nv) as [[-> _] | [-> _]]; assumption. }
      rewrite E in H0.
      pose proof (reducao_inicial_ate_31298 rt (proj1 B) Fr) as L3. fold R0 in L3.
      assert (I : round2 R0 = R0).
      { apply round2_fixo; try assumption.
        - destruct (reducao_inicial_num rt (proj1 B) Fr) as [X _]. exact X.
        - apply (reducao_inicial_num rt (proj1 B) Fr). }
      destruct (round2_centavos_nneg R0 (round2_binary64 _) H0) as (n & Hn & En & _).
      { apply (nleb_trans _ _ _ L3). vm_compute. reflexivity. }
      rewrite I in En. exists n. rewrite E, En. split; [| reflexivity].
      rewrite En, ET, lit_nleb in LR by (rewrite Z.abs_eq; lia).
      apply Z.leb_le in LR. lia.
    - exists T. split; [lia |]. rewrite E. exact ET. }
  destruct HR as (R & HRT & ER).
  assert (A1 : V1.valor_irrf_apos_pl_1087_25 rt po qd pa = lit (T - R) 100).
  { unfold V1.valor_irrf_apos_pl_1087_25. rewrite ER, ET.
    apply round2_diferenca; lia. }
  assert (A2 : V2.valor_irrf_apos_pl_1087_25 rt po qd pa = lit (T - R) 100).
  { unfold V2.valor_irrf_apos_pl_1087_25. rewrite E2, ER, ET.
    apply round2_diferenca; lia. }
  assert (M : (lit (T - R) 100 <=? lit T 100)%js = true) by (apply lit_mono; lia).
  exists T, R. split; [exact HRT |]. split; [exact ET |]. split; [exact ER |].
  split; [exact A1 |]. split; [rewrite E1; exact ER |]. split; [rewrite E2; exact ER |].
  split; [exact A2 |]. rewrite A1, A2, ET. split; exact M.
Qed.

Lemma imposto_final_em_centavos_exemplo :
  let rt := of_Z 6000 in
  let po := of_Z 500 in
  let qd := of_Z 1 in
  let pa := of_Z 0 in
  entradas_validas rt po qd pa = true /\ entradas_binary64 rt po qd pa
  /\ (rt <=? of_Z 1000000000)%js = true
  /\ exists T R : Z,
       0 <= R <= T
       /\ valor_irrf rt po qd pa = lit T 100
       /\ V1.reducao_pl_1087_25 rt po qd pa = lit R 100
       /\ V1.valor_irrf_apos_pl_1087_25 rt po qd pa = lit (T - R) 100
       /\ V2.reducao_pl_formula rt po qd pa = lit R 100
       /\ V2.reducao_pl_aplicada rt po qd pa = lit R 100
       /\ V2.valor_irrf_apos_pl_1087_25 rt po qd pa = lit (T - R) 100
       /\ (V1.valor_irrf_apos_pl_1087_25 rt po qd pa <=? valor_irrf rt po qd pa)%js
          = true
       /\ (V2.valor_irrf_apos_pl_1087_25 rt po qd pa <=? valor_irrf rt po qd pa)%js
          = true.
Proof.
  intros rt po qd pa.
  assert (V : entradas_validas rt po qd pa = true) by (vm_compute; reflexivity).
  assert (B : entradas_binary64 rt po qd pa) by (repeat split; reflexivity).
  assert (L : (rt <=? of_Z 1000000000)%js = true) by (vm_compute; reflexivity).
  split; [exact V |]. split; [exact B |]. split; [exact L |].
  apply (imposto_final_em_centavos rt po qd pa V B L).
Defined.

(** ** Requests in whole cents *)

Lemma nadd_perto x y :
  binary64 x -> binary64 y ->
  Number.isFinite x = true -> Number.isFinite y = true ->
  (- 10000000000 <= valor x + valor y <= 10000000000)%R ->
  binary64 (x + y)%js /\ Number.isFinite (x + y)%js = true
  /\ (valor x + valor y - / 524288 <= valor (x + y)%js
      <= valor x + valor y + / 524288)%R.
Proof.
  intros Bx By Fx Fy H. pose proof (nadd_spec x y Bx By Fx Fy) as A.
  destruct (perto _ _ (-19) A ltac:(lia)) as (F & B & Hv).
  { change (53 + -19) with 34. rewrite bpow_34. lra. }
  rewrite bpow_m19 in Hv. auto.
Qed.

Lemma nmul_perto x y :
  binary64 x -> binary64 y ->
  Number.isFinite x = true -> Number.isFinite y = true ->
  (- 10000000000 <= valor x * valor y <= 10000000000)%R ->
  binary64 (x * y)%js /\ Number.isFinite (x * y)%js = true
  /\ (valor x * valor y - / 524288 <= valor (x * y)%js
      <= valor x * valor y + / 524288)%R.
Proof.
  intros Bx By Fx Fy H. pose proof (nmul_spec x y Bx By Fx Fy) as A.
  destruct (perto _ _ (-19) A ltac:(lia)) as (F & B & Hv).
  { change (53 + -19) with 34. rewrite bpow_34. lra. }
  rewrite bpow_m19 in Hv. auto.
Qed.

Lemma nsub_perto x y :
  binary64 x -> binary64 y ->
  Number.isFinite x = true -> Number.isFinite y = true ->
  (- 10000000000 <= valor x - valor y <= 10000000000)%R ->
  binary64 (x - y)%js /\ Number.isFinite (x - y)%js = true
  /\ (valor x - valor y - / 524288 <= valor (x - y)%js
      <= valor x - valor y + / 524288)%R.
Proof.
  intros Bx By Fx Fy H. pose proof (nsub_spec x y Bx By Fx Fy) as A.
  destruct (perto _ _ (-19) A ltac:(lia)) as (F & B & Hv).
  { change (53 + -19) with 34. rewrite bpow_34. lra. }
  rewrite bpow_m19 in Hv. auto.
Qed.

Lemma max_lit a b :
  Z.abs a <= 10 ^ 12 -> Z.abs b <= 10 ^ 12 ->
  Math.max (lit a 100) (lit b 100) = lit (Z.max a b) 100.
Proof.
  intros Ha Hb.
  destruct (lit_cem a Ha) as (_ & Fa & _). destruct (lit_cem b Hb) as (_ & Fb & _).
  assert (Na : lit a 100 <> NaN) by (intros E; rewrite E in Fa; discriminate Fa).
  assert (Nb : lit b 100 <> NaN) by (intros E; rewrite E in Fb; discriminate Fb).
  destruct (max_casos _ _ Na Nb) as [[-> L] | [-> L]];
    rewrite lit_nleb in L by assumption; apply Z.leb_le in L; f_equal; lia.
Qed.

(** The deduction for [k] dependents is [k] times 189.59, to the cent. *)
Lemma deducao_dependentes_exata k :
  0 <= k <= 10 ^ 6 -> deducao_dependentes (of_Z k) = lit (18959 * k) 100.
Proof.
  intros Hk. destruct (Z.eq_dec k 0) as [-> | Nz]; [vm_compute; reflexivity |].
  destruct (of_Z_exato k) as [Fk Vk].
  { change (2 ^ 53) with 9007199254740992. change (10 ^ 6) with 1000000 in Hk. lia. }
  assert (Bk : binary64 (of_Z k)) by apply of_Z_num.
  assert (Rk : (1 <= IZR k <= 1000000)%R).
  { split; [apply (IZR_le 1) | apply (IZR_le k (10 ^ 6))]; lia. }
  unfold deducao_dependentes, DEDUCAO_POR_DEPENDENTE.
  valor_de (lit 18959 100) 189590000000001 1000000000000.
  valor_de (lit 18959 100) 189589999999999 1000000000000.
  destruct (nmul_perto (of_Z k) (lit 18959 100) Bk eq_refl Fk eq_refl)
    as (Bx & Fx & Hx).
  { rewrite Vk. split; nra. }
  rewrite Vk in Hx.
  apply round2_de_perto_nz; [exact Bx | exact Fx | | lia |].
  - change (10 ^ 12) with 1000000000000. change (10 ^ 6) with 1000000 in Hk. lia.
  - rewrite mult_IZR. split; nra.
Qed.

Section RequisicaoEmCentavos.

(** The income, the contribution and the alimony in cents, the count of
    dependents. *)
Variables r a k c : Z.
Hypothesis Hr : 0 <= r <= 10 ^ 11.
Hypothesis Ha : 0 <= a <= 10 ^ 11.
Hypothesis Hk : 0 <= k <= 10 ^ 6.
Hypothesis Hc : 0 <= c <= 10 ^ 11.

Let s : Z := a + 18959 * k + c.

Lemma soma_deducoes_exata :
  soma_deducoes (lit a 100) (of_Z k) (lit c 100) = lit s 100.
Proof.
  change (10 ^ 11) with 100000000000 in *. change (10 ^ 6) with 1000000 in *.
  unfold soma_deducoes.
  rewrite (deducao_dependentes_exata k) by (change (10 ^ 6) with 1000000; lia).
  rewrite (round2_lit c) by (change (10 ^ 12) with 1000000000000; lia).
  destruct (Z.eq_dec s 0) as [Z0 | Nz].
  { assert (a = 0) as -> by (subst s; lia). assert (k = 0) as -> by (subst s; lia).
    assert (c = 0) as -> by (subst s; lia). subst s. vm_compute. reflexivity. }
  destruct (lit_cem a ltac:(change (10 ^ 12) with 1000000000000; lia))
    as (Ba & Fa & Va).
  destruct (lit_cem (18959 * k) ltac:(change (10 ^ 12) with 1000000000000; lia))
    as (Bd & Fd & Vd).
  destruct (lit_cem c ltac:(change (10 ^ 12) with 1000000000000; lia))
    as (Bc & Fc & Vc).
  assert (Ra : (0 <= IZR a <= 100000000000)%R) by (split; apply IZR_le; lia).
  assert (Rc : (0 <= IZR c <= 100000000000)%R) by (split; apply IZR_le; lia).
  assert (Rd : (0 <= IZR (18959 * k) <= 18959000000)%R)
    by (split; apply IZR_le; lia).
  destruct (nadd_perto _ _ Ba Bd Fa Fd ltac:(lra)) as (B1 & F1 & H1).
  destruct (nadd_perto _ _ B1 Bc F1 Fc ltac:(lra)) as (B2 & F2 & H2).
  apply round2_de_perto_nz; [exact B2 | exact F2 | | exact Nz |].
  - subst s. change (10 ^ 12) with 1000000000000. lia.
  - subst s. rewrite !plus_IZR. split; lra.
Qed.

Lemma deducao_total_exata :
  deducao_total_aplicada (lit a 100) (of_Z k) (lit c 100) = lit (Z.max s 60720) 100.
Proof.
  change (10 ^ 11) with 100000000000 in *. change (10 ^ 6) with 1000000 in *.
  unfold deducao_total_aplicada, DESCONTO_SIMPLIFICADO_MINIMO.
  rewrite soma_deducoes_exata.
  rewrite max_lit by (subst s; change (10 ^ 12) with 1000000000000; lia).
  apply round2_lit. subst s. change (10 ^ 12) with 1000000000000. lia.
Qed.

End RequisicaoEmCentavos.

(** X12.  For a request in whole cents (income [r], contribution [a] and
    alimony [c] cents, [k] dependents, within the bounds) the handler computes
    the deductions in exact decimal arithmetic: the dependents deduction is
    [18959 * k] cents, the sum of the deductions is [a + 18959 * k + c] cents,
    the simplified minimum is used exactly when that sum is below 60720
    cents, the deduction applied is the larger of the sum and 60720 cents,
    and the net base is the income minus the deduction applied, which may be
    negative. *)
Theorem deducoes_em_centavos :
  forall r a k c : Z,
    0 <= r <= 10 ^ 11 -> 0 <= a <= 10 ^ 11 -> 0 <= k <= 10 ^ 6 ->
    0 <= c <= 10 ^ 11 ->
    let rt := lit r 100 in
    let po := lit a 100 in
    let qd := of_Z k in
    let pa := lit c 100 in
    let s := a + 18959 * k + c in
    deducao_dependentes qd = lit (18959 * k) 100
    /\ soma_deducoes po qd pa = lit s 100
    /\ simplificado_minimo_usado po qd pa = (s <? 60720)
    /\ deducao_total_aplicada po qd pa = lit (Z.max s 60720) 100
    /\ base_liquida_irrf rt po qd pa = lit (r - Z.max s 60720) 100.
Proof.
  intros r a k c Hr Ha Hk Hc rt po qd pa s.
  pose proof (soma_deducoes_exata a k c Ha Hk Hc) as Es.
  pose proof (deducao_total_exata a k c Ha Hk Hc) as Ed.
  fold po qd pa s in Es, Ed.
  change (10 ^ 11) with 100000000000 in *. change (10 ^ 6) with 1000000 in *.
  split; [apply deducao_dependentes_exata; change (10 ^ 6) with 1000000; lia |].
  split; [exact Es |]. split.
  { unfold simplificado_minimo_usado, ngtb, DESCONTO_SIMPLIFICADO_MINIMO.
    rewrite Es. apply lit_nltb; subst s; change (10 ^ 12) with 1000000000000; lia. }
  split; [exact Ed |].
  unfold base_liquida_irrf. rewrite Ed. unfold rt.
  apply round2_diferenca; subst s; change (10 ^ 12) with 1000000000000; lia.
Qed.

Lemma deducoes_em_centavos_exemplo :
  0 <= 500000 <= 10 ^ 11 /\ 0 <= 75000 <= 10 ^ 11 /\ 0 <= 2 <= 10 ^ 6
  /\ 0 <= 0 <= 10 ^ 11
  /\ base_liquida_irrf (lit 500000 100) (lit 75000 100) (of_Z 2) (lit 0 100)
     = lit 387082 100.
Proof.
  assert (Hr : 0 <= 500000 <= 10 ^ 11) by (cbn; lia).
  assert (Ha : 0 <= 75000 <= 10 ^ 11) by (cbn; lia).
  assert (Hk : 0 <= 2 <= 10 ^ 6) by (cbn; lia).
  assert (Hc : 0 <= 0 <= 10 ^ 11) by (cbn; lia).
  split; [exact Hr |]. split; [exact Ha |]. split; [exact Hk |]. split; [exact Hc |].
  apply (deducoes_em_centavos 500000 75000 2 0 Hr Ha Hk Hc).
Defined.

(** ** The tax to the cent *)

(** The table formula of a row with a positive rate of [Rz] thousandths and
    a deduction of [Dz] cents, on a base of [b] cents, then the guards and
    [round2]: a nearest cent of the exact result, and 0 when that is
    negative. *)
Lemma imposto_da_faixa b q d Rz Dz :
  Z.abs b <= 10 ^ 11 -> positivo q -> constante d = true ->
  (IZR Rz / 1000 - / 10000000000000000 <= valor q
   <= IZR Rz / 1000 + / 10000000000000000)%R ->
  (IZR Dz / 100 - / 1000000000000 <= valor d
   <= IZR Dz / 100 + / 1000000000000)%R ->
  0 <= Rz <= 275 -> 0 <= Dz <= 100000 ->
  exists T : Z,
    round2 (let v := (lit b 100 * q - d)%js in
            let v := if negb (Number.isFinite v) then of_Z 0 else v in
            if (v <? of_Z 0)%js then of_Z 0 else v) = lit T 100
    /\ 0 <= T <= 10 ^ 12
    /\ -500 <= 1000 * T - Z.max 0 (Rz * b - 1000 * Dz) <= 500.
Proof.
  intros Hb Pq Cd Hq Hd HR HD.
  change (10 ^ 11) with 100000000000 in Hb.
  apply constante_ok in Cd. destruct Cd as [Bd Fd].
  pose proof Pq as [Bq _]. pose proof (positivo_finito _ Pq) as Fq.
  pose proof (positivo_valor _ Pq) as Vq0.
  destruct (lit_cem b ltac:(change (10 ^ 12) with 1000000000000; lia))
    as (Bb & Fb & Vb).
  assert (Rb : (- 100000000000 <= IZR b <= 100000000000)%R)
    by (split; apply IZR_le; lia).
  assert (RR : (0 <= IZR Rz <= 275)%R) by (split; apply IZR_le; lia).
  assert (RD : (0 <= IZR Dz <= 100000)%R) by (split; apply IZR_le; lia).
  set (vb := valor (lit b 100)) in *. set (vq := valor q) in *.
  set (vd := valor d) in *.
  set (Bx := (IZR b / 100)%R) in *. set (Qx := (IZR Rz / 1000)%R) in *.
  assert (HBx : (- 1000000000 <= Bx <= 1000000000)%R) by (unfold Bx; lra).
  assert (HQx : (0 <= Qx <= 275 / 1000)%R) by (unfold Qx; lra).
  assert (P1 : (- (2 / 1000000) * (276 / 1000) <= (vb - Bx) * vq
                <= 2 / 1000000 * (276 / 1000))%R).
  { assert (- (2 / 1000000) <= vb - Bx <= 2 / 1000000)%R by lra.
    assert (0 <= vq <= 276 / 1000)%R by lra. split; nra. }
  assert (P2 : (- / 10000000 <= Bx * (vq - Qx) <= / 10000000)%R).
  { assert (- / 10000000000000000 <= vq - Qx <= / 10000000000000000)%R by lra.
    split; nra. }
  assert (P : (Bx * Qx - 7 / 10000000 <= vb * vq <= Bx * Qx + 7 / 10000000)%R).
  { replace (vb * vq)%R with (Bx * Qx + (vb - Bx) * vq + Bx * (vq - Qx))%R by ring.
    lra. }
  assert (PQ : (- 275000000 <= Bx * Qx <= 275000000)%R) by (split; nra).
  destruct (nmul_perto _ _ Bb Bq Fb Fq) as (Bp & Fp & Hp).
  { fold vb vq. lra. }
  fold vb vq in Hp.
  destruct (nsub_perto _ _ Bp Bd Fp Fd) as (Bv & Fv & Hv).
  { fold vd. lra. }
  fold vd in Hv.
  set (v := (lit b 100 * q - d)%js) in *.
  set (X := Rz * b - 1000 * Dz).
  assert (EX : (IZR X = 100000 * (Bx * Qx - IZR Dz / 100))%R).
  { unfold X, Bx, Qx. rewrite minus_IZR, !mult_IZR. field. }
  assert (HvX : (IZR X / 100000 - 46 / 10000000 <= valor v
                 <= IZR X / 100000 + 46 / 10000000)%R).
  { rewrite EX. split; lra. }
  cbv zeta. rewrite Fv. cbn [negb].
  destruct (v <? of_Z 0)%js eqn:Ng.
  - apply nltb_valor in Ng; [| exact Fv | reflexivity].
    change (valor (of_Z 0)) with 0%R in Ng.
    exists 0. split; [exact round2_zero | split; [cbn; lia |]].
    assert (IZR X < IZR 1)%R as L by lra. apply lt_IZR in L.
    rewrite Z.max_l by lia. lia.
  - assert (P0 : (0 <= valor v)%R).
    { destruct (Rle_or_lt 0 (valor v)) as [|Lt]; [assumption | exfalso].
      assert ((v <? of_Z 0)%js = true) as Y
        by (apply nltb_valor; [exact Fv | reflexivity | exact Lt]).
      congruence. }
    assert (N0 : (of_Z 0 <=? v)%js = true)
      by (apply nleb_valor; [reflexivity | exact Fv | exact P0]).
    assert (Lv : (v <=? of_Z 10000000000)%js = true).
    { apply nleb_valor; [exact Fv | reflexivity |].
      replace (valor (of_Z 10000000000)) with 10000000000%R
        by (symmetry; apply (of_Z_exato 10000000000); cbn; lia).
      lra. }
    destruct (round2_centavos_nneg v Bv N0 Lv) as (n & Hn & En & Rn).
    exists n. split; [exact En | split; [exact Hn |]].
    assert (IZR (-1) < IZR X)%R as L1 by lra. apply lt_IZR in L1.
    rewrite Z.max_r by lia.
    assert (IZR (-501) < IZR (1000 * n - X) < IZR 501)%R as [L2 L3].
    { rewrite minus_IZR, mult_IZR. split; lra. }
    apply lt_IZR in L2, L3. lia.
Qed.

(** The tax before the reduction, for a request in whole cents. *)
Lemma valor_irrf_ao_centavo :
  forall r a k c : Z,
    0 <= r <= 10 ^ 11 -> 0 <= a <= 10 ^ 11 -> 0 <= k <= 10 ^ 6 ->
    0 <= c <= 10 ^ 11 ->
    let b := r - Z.max (a + 18959 * k + c) 60720 in
    exists T : Z,
      valor_irrf (lit r 100) (lit a 100) (of_Z k) (lit c 100) = lit T 100
      /\ 0 <= T <= 10 ^ 12
      /\ -500 <= 1000 * T - Z.max 0 (imposto_decimal_milesimos b) <= 500.
Proof.
  intros r a k c Hr Ha Hk Hc b.
  assert (Eb : base_liquida_irrf (lit r 100) (lit a 100) (of_Z k) (lit c 100)
               = lit b 100).
  { change (10 ^ 11) with 100000000000 in *. change (10 ^ 6) with 1000000 in *.
    unfold base_liquida_irrf.
    rewrite (deducao_total_exata a k c)
      by (try change (10 ^ 11) with 100000000000;
          try change (10 ^ 6) with 1000000; lia).
    apply round2_diferenca; change (10 ^ 12) with 1000000000000; lia. }
  change (10 ^ 11) with 100000000000 in *. change (10 ^ 6) with 1000000 in *.
  assert (Hb : Z.abs b <= 10 ^ 12) by (subst b; change (10 ^ 12) with 1000000000000; lia).
  assert (Hb' : b <= 100000000000) by (subst b; lia).
  unfold valor_irrf, valor_irrf_bruto, aliquota_irrf, deducao_conforme_tabela.
  rewrite Eb. unfold escolherFaixa, TABELA_IRRF_052025, imposto_decimal_milesimos.
  cbn [escolher_em limite].
  rewrite !lit_nleb by (try exact Hb; cbn; lia).
  destruct (b <=? 242880) eqn:C1.
  { cbn [aliquota deducao].
    change (lit 0 10 / of_Z 100)%js with (S754_zero false).
    change (lit 0 10) with (S754_zero false).
    destruct (lit_cem b Hb) as (_ & Fb & _).
    exists 0. split; [| cbn; lia].
    destruct (lit b 100) as [[] | [] | | [] m e]; try discriminate Fb;
      vm_compute; reflexivity. }
  apply Z.leb_gt in C1.
  assert (Hb11 : Z.abs b <= 10 ^ 11) by (change (10 ^ 11) with 100000000000; lia).
  destruct (b <=? 282665).
  { cbn [aliquota deducao].
    valor_de (lit 75 10 / of_Z 100)%js 750000000000001 10000000000000000.
    valor_de (lit 75 10 / of_Z 100)%js 749999999999999 10000000000000000.
    valor_de (lit 18216 100) 182160000000001 1000000000000.
    valor_de (lit 18216 100) 182159999999999 1000000000000.
    apply (imposto_da_faixa b _ _ 75 18216); try exact Hb11; try reflexivity;
      try lia; [split; [reflexivity | vm_compute; eauto] | split; lra | split; lra]. }
  destruct (b <=? 375105).
  { cbn [aliquota deducao].
    valor_de (lit 150 10 / of_Z 100)%js 1500000000000001 10000000000000000.
    valor_de (lit 150 10 / of_Z 100)%js 1499999999999999 10000000000000000.
    valor_de (lit 39416 100) 394160000000001 1000000000000.
    valor_de (lit 39416 100) 394159999999999 1000000000000.
    apply (imposto_da_faixa b _ _ 150 39416); try exact Hb11; try reflexivity;
      try lia; [split; [reflexivity | vm_compute; eauto] | split; lra | split; lra]. }
  destruct (b <=? 466468).
  { cbn [aliquota deducao].
    valor_de (lit 225 10 / of_Z 100)%js 2250000000000001 10000000000000000.
    valor_de (lit 225 10 / of_Z 100)%js 2249999999999999 10000000000000000.
    valor_de (lit 67549 100) 675490000000001 1000000000000.
    valor_de (lit 67549 100) 675489999999999 1000000000000.
    apply (imposto_da_faixa b _ _ 225 67549); try exact Hb11; try reflexivity;
      try lia; [split; [reflexivity | vm_compute; eauto] | split; lra | split; lra]. }
  assert (E : (if (lit b 100 <=? Infinity)%js
               then Faixa Infinity (lit 275 10) (lit 90873 100)
               else ultima_faixa) = Faixa Infinity (lit 275 10) (lit 90873 100))
    by (destruct (lit b 100 <=? Infinity)%js; reflexivity).
  rewrite E. cbn [aliquota deducao].
  valor_de (lit 275 10 / of_Z 100)%js 2750000000000001 10000000000000000.
  valor_de (lit 275 10 / of_Z 100)%js 2749999999999999 10000000000000000.
  valor_de (lit 90873 100) 908730000000001 1000000000000.
  valor_de (lit 90873 100) 908729999999999 1000000000000.
  apply (imposto_da_faixa b _ _ 275 90873); try exact Hb11; try reflexivity;
    try lia; [split; [reflexivity | vm_compute; eauto] | split; lra | split; lra].
Qed.

(** X13.  For a request in whole cents the tax before the reduction is a
    nearest cent of the table formula evaluated in exact decimal arithmetic
    on the exact base (either neighbour when the exact result is half a
    cent), and 0 when that result is negative: the binary roundings never
    cost a cent. *)
Theorem imposto_ao_centavo :
  forall r a k c : Z,
    0 <= r <= 10 ^ 11 -> 0 <= a <= 10 ^ 11 -> 0 <= k <= 10 ^ 6 ->
    0 <= c <= 10 ^ 11 ->
    let b := r - Z.max (a + 18959 * k + c) 60720 in
    exists T : Z,
      valor_irrf (lit r 100) (lit a 100) (of_Z k) (lit c 100) = lit T 100
      /\ 0 <= T
      /\ -500 <= 1000 * T - Z.max 0 (imposto_decimal_milesimos b) <= 500.
Proof.
  intros r a k c Hr Ha Hk Hc b.
  destruct (valor_irrf_ao_centavo r a k c Hr Ha Hk Hc) as (T & E & HT & H).
  exists T. split; [exact E | split; [lia | exact H]].
Qed.

Lemma imposto_ao_centavo_exemplo :
  0 <= 500000 <= 10 ^ 11 /\ 0 <= 75000 <= 10 ^ 11 /\ 0 <= 2 <= 10 ^ 6
  /\ 0 <= 0 <= 10 ^ 11
  /\ exists T : Z,
       valor_irrf (lit 500000 100) (lit 75000 100) (of_Z 2) (lit 0 100) = lit T 100
       /\ 0 <= T
       /\ -500 <= 1000 * T
                  - Z.max 0 (imposto_decimal_milesimos
                               (500000 - Z.max (75000 + 18959 * 2 + 0) 60720))
          <= 500.
Proof.
  assert (Hr : 0 <= 500000 <= 10 ^ 11) by (cbn; lia).
  assert (Ha : 0 <= 75000 <= 10 ^ 11) by (cbn; lia).
  assert (Hk : 0 <= 2 <= 10 ^ 6) by (cbn; lia).
  assert (Hc : 0 <= 0 <= 10 ^ 11) by (cbn; lia).
  split; [exact Hr |]. split; [exact Ha |]. split; [exact Hk |]. split; [exact Hc |].
  apply (imposto_ao_centavo 500000 75000 2 0 Hr Ha Hk Hc).
Defined.

(** ** The reduction to the cent *)

Lemma min_lit a b :
  Z.abs a <= 10 ^ 12 -> Z.abs b <= 10 ^ 12 ->
  Math.min (lit a 100) (lit b 100) = lit (Z.min a b) 100.
Proof.
  intros Ha Hb.
  destruct (lit_cem a Ha) as (_ & Fa & _). destruct (lit_cem b Hb) as (_ & Fb & _).
  assert (Na : lit a 100 <> NaN) by (intros E; rewrite E in Fa; discriminate Fa).
  assert (Nb : lit b 100 <> NaN) by (intros E; rewrite E in Fb; discriminate Fb).
  destruct (min_casos _ _ Na Nb) as [[-> L] | [-> L]];
    rewrite lit_nleb in L by assumption; apply Z.leb_le in L; f_equal; lia.
Qed.

Lemma lit_sinal m : 0 <= m <= 10 ^ 12 -> sinal (lit m 100) = Some false.
Proof.
  intros Hm. destruct (Z.eq_dec m 0) as [-> | Nz]; [reflexivity |].
  destruct (lit_cem m ltac:(lia)) as (_ & F & H).
  assert (1 <= IZR m)%R by (apply (IZR_le 1); lia).
  destruct (finito_casos _ F) as [[s E] | [(p & e & E) | (p & e & E)]];
    rewrite E in H |- *.
  - cbn [valor] in H. lra.
  - pose proof (valor_sinal true p e) as X. cbn beta iota in X. lra.
  - reflexivity.
Qed.

(** A count of dependents is an integer. *)
Lemma of_Z_inteiro k : 0 <= k <= 2 ^ 53 -> Number.isInteger (of_Z k) = true.
Proof.
  intros Hk. destruct (of_Z_exato k ltac:(lia)) as [F Vk].
  destruct (of_Z k) as [s | s | | s m e]; try discriminate F; [reflexivity |].
  cbn [Number.isInteger]. apply orb_true_iff.
  destruct (Z.leb_spec 0 e) as [P | N]; [left; reflexivity | right].
  apply Z.eqb_eq. rewrite valor_finite in Vk.
  assert (Pp : 0 < 2 ^ (- e)) by (apply Z.pow_pos_nonneg; lia).
  assert (E : signed s m = k * 2 ^ (- e)).
  { apply eq_IZR. rewrite mult_IZR, <- (bpow_IZR (- e)) by lia. rewrite <- Vk.
    rewrite Rmult_assoc, <- bpow_add. replace (e + - e) with 0 by lia.
    rewrite bpow_0. ring. }
  destruct s; cbn [signed cond_Zopp] in E.
  - exfalso. assert (0 <= k * 2 ^ (- e)) by (apply Z.mul_nonneg_nonneg; lia). lia.
  - rewrite E. apply Z.mod_mul. lia.
Qed.

Lemma requisicao_em_centavos_valida r a k c :
  0 <= r <= 10 ^ 11 -> 0 <= a <= 10 ^ 11 -> 0 <= k <= 10 ^ 6 -> 0 <= c <= 10 ^ 11 ->
  entradas_validas (lit r 100) (lit a 100) (of_Z k) (lit c 100) = true
  /\ entradas_binary64 (lit r 100) (lit a 100) (of_Z k) (lit c 100).
Proof.
  intros Hr Ha Hk Hc.
  change (10 ^ 11) with 100000000000 in *. change (10 ^ 6) with 1000000 in *.
  destruct (lit_cem r ltac:(change (10 ^ 12) with 1000000000000; lia)) as (Br & Fr & _).
  destruct (lit_cem a ltac:(change (10 ^ 12) with 1000000000000; lia)) as (Ba & Fa & _).
  destruct (lit_cem c ltac:(change (10 ^ 12) with 1000000000000; lia)) as (Bc & Fc & _).
  destruct (of_Z_exato k) as [Fk Vk].
  { change (2 ^ 53) with 9007199254740992. lia. }
  assert (N : forall n, 0 <= n <= 100000000000 -> (of_Z 0 <=? lit n 100)%js = true).
  { intros n Hn. change (of_Z 0) with (lit 0 100).
    apply lit_mono; change (10 ^ 12) with 1000000000000; lia. }
  split; [| repeat split; try assumption; apply of_Z_num].
  unfold entradas_validas. rewrite Fr, Fa, Fk, Fc, !N by lia.
  rewrite of_Z_inteiro by (change (2 ^ 53) with 9007199254740992; lia).
  cbn [andb]. apply nleb_valor; [reflexivity | exact Fk |].
  rewrite Vk. change (valor (of_Z 0)) with 0%R. apply (IZR_le 0). lia.
Qed.

(** The rule of the middle range yields a nearest cent of its exact value
    (within 0.501 cent). *)
Lemma formula_pl_ao_centavo r :
  500000 < r <= 735000 ->
  exists F : Z,
    round2 (lit 97862 100 - lit 133145 1000000 * lit r 100)%js = lit F 100
    /\ 0 <= F <= 31289
    /\ -501000 <= 1000000 * F - reducao_decimal_milionesimos r <= 501000.
Proof.
  intros Hr.
  destruct (lit_cem r ltac:(change (10 ^ 12) with 1000000000000; lia))
    as (Br & Fr & Vr).
  assert (Rr : (500001 <= IZR r <= 735000)%R) by (split; apply IZR_le; lia).
  valor_de (lit 133145 1000000) 1331450000000001 10000000000000000.
  valor_de (lit 133145 1000000) 1331449999999999 10000000000000000.
  valor_de (lit 97862 100) 978620000000001 1000000000000.
  valor_de (lit 97862 100) 978619999999999 1000000000000.
  set (vr := valor (lit r 100)) in *. set (vc := valor (lit 133145 1000000)) in *.
  set (vC := valor (lit 97862 100)) in *.
  set (Rx := (IZR r / 100)%R) in *.
  assert (P1 : (- (2 / 1000000) * (14 / 100) <= vc * (vr - Rx)
                <= 2 / 1000000 * (14 / 100))%R).
  { assert (- (2 / 1000000) <= vr - Rx <= 2 / 1000000)%R by lra.
    assert (0 <= vc <= 14 / 100)%R by lra. split; nra. }
  assert (P2 : (- / 1000000000000 <= (vc - 133145 / 1000000) * Rx
                <= / 1000000000000)%R).
  { assert (- / 10000000000000000 <= vc - 133145 / 1000000
            <= / 10000000000000000)%R by lra.
    assert (0 <= Rx <= 7350)%R by (unfold Rx; lra). split; nra. }
  assert (P : (133145 / 1000000 * Rx - 3 / 10000000 <= vc * vr
               <= 133145 / 1000000 * Rx + 3 / 10000000)%R).
  { replace (vc * vr)%R
      with (133145 / 1000000 * Rx + vc * (vr - Rx) + (vc - 133145 / 1000000) * Rx)%R
      by ring.
    lra. }
  assert (HRx : (500001 / 100 <= Rx <= 7350)%R) by (unfold Rx; lra).
  destruct (nmul_perto (lit 133145 1000000) (lit r 100) eq_refl Br eq_refl Fr)
    as (Bp & Fp & Hp).
  { fold vc vr. lra. }
  fold vc vr in Hp.
  destruct (nsub_perto (lit 97862 100) _ eq_refl Bp eq_refl Fp) as (Bv & Fv & Hv).
  { fold vC. lra. }
  fold vC in Hv.
  set (v := (lit 97862 100 - lit 133145 1000000 * lit r 100)%js) in *.
  set (Y := reducao_decimal_milionesimos r).
  assert (EY : (IZR Y = 100000000 * (97862 / 100 - 133145 / 1000000 * Rx))%R).
  { unfold Y, reducao_decimal_milionesimos, Rx.
    rewrite minus_IZR, !mult_IZR. field. }
  assert (HvY : (IZR Y / 100000000 - 45 / 10000000 <= valor v
                 <= IZR Y / 100000000 + 45 / 10000000)%R).
  { rewrite EY. split; lra. }
  assert (RY : (425000 <= IZR Y <= 31289366855)%R).
  { unfold Y, reducao_decimal_milionesimos. split; apply IZR_le; lia. }
  assert (N0 : (of_Z 0 <=? v)%js = true).
  { apply nleb_valor; [reflexivity | exact Fv |]. change (valor (of_Z 0)) with 0%R. lra. }
  assert (Lv : (v <=? of_Z 10000000000)%js = true).
  { apply nleb_valor; [exact Fv | reflexivity |].
    replace (valor (of_Z 10000000000)) with 10000000000%R
      by (symmetry; apply (of_Z_exato 10000000000); cbn; lia).
    lra. }
  destruct (round2_centavos_nneg v Bv N0 Lv) as (n & Hn & En & Rn).
  exists n. split; [exact En |].
  assert (IZR (-501000) < IZR (1000000 * n - Y) < IZR 501000)%R as [L2 L3].
  { rewrite minus_IZR, mult_IZR. split; lra. }
  apply lt_IZR in L2, L3.
  assert (IZR n < IZR 31290)%R as L4 by lra. apply lt_IZR in L4.
  fold Y. lia.
Qed.

(** The reduction of the first revision, for a request in whole cents. *)
Lemma reducao_em_centavos r a k c :
  0 <= r <= 10 ^ 11 -> 0 <= a <= 10 ^ 11 -> 0 <= k <= 10 ^ 6 -> 0 <= c <= 10 ^ 11 ->
  let rt := lit r 100 in
  let po := lit a 100 in
  let qd := of_Z k in
  let pa := lit c 100 in
  exists T F : Z,
    valor_irrf rt po qd pa = lit T 100
    /\ 0 <= T <= 10 ^ 12 /\ 0 <= F <= 31289
    /\ (r <= 500000 -> F = 31289)
    /\ (500000 < r <= 735000 ->
        -501000 <= 1000000 * F - reducao_decimal_milionesimos r <= 501000)
    /\ (735000 < r -> F = 0)
    /\ V1.reducao_pl_1087_25 rt po qd pa = lit (Z.min T F) 100.
Proof.
  intros Hr Ha Hk Hc rt po qd pa.
  destruct (valor_irrf_ao_centavo r a k c Hr Ha Hk Hc) as (T & ET & HT & _).
  fold rt po qd pa in ET.
  change (10 ^ 11) with 100000000000 in *. change (10 ^ 6) with 1000000 in *.
  change (10 ^ 12) with 1000000000000 in *.
  assert (Hr12 : Z.abs r <= 10 ^ 12) by (change (10 ^ 12) with 1000000000000; lia).
  assert (E5 : of_Z 5000 = lit 500000 100) by (vm_compute; reflexivity).
  assert (E7 : of_Z 7350 = lit 735000 100) by (vm_compute; reflexivity).
  assert (Q : forall F, 0 <= F <= 31289 ->
              Math.max (of_Z 0) (Math.min (lit F 100) (lit T 100))
              = lit (Z.min T F) 100).
  { intros F HF.
    rewrite min_lit by (change (10 ^ 12) with 1000000000000; lia).
    rewrite max_zero_pos0
      by (apply lit_sinal; change (10 ^ 12) with 1000000000000; lia).
    f_equal. lia. }
  unfold V1.reducao_pl_1087_25, V1.reducao_inicial, ngtb. rewrite ET.
  unfold rt. rewrite E5, E7.
  rewrite !lit_nleb, lit_nltb by (try exact Hr12; cbn; lia).
  destruct (Z.leb_spec r 500000) as [L5 | G5].
  - exists T, 31289. rewrite round2_31289, Q by lia.
    split; [reflexivity |]. split; [lia |]. split; [lia |].
    split; [reflexivity |]. split; [lia |]. split; [lia | reflexivity].
  - destruct (Z.ltb_spec 500000 r) as [_ | X]; [| lia]. cbn [andb].
    destruct (Z.leb_spec r 735000) as [L7 | G7].
    + destruct (formula_pl_ao_centavo r ltac:(lia)) as (F & EF & HF & HY).
      exists T, F. rewrite EF, Q by exact HF.
      split; [reflexivity |]. split; [lia |]. split; [exact HF |].
      split; [lia |]. split; [intros _; exact HY |]. split; [lia | reflexivity].
    + exists T, 0. rewrite round2_zero. change (of_Z 0) with (lit 0 100) at 2.
      rewrite Q by lia.
      split; [reflexivity |]. split; [lia |]. split; [lia |].
      split; [lia |]. split; [lia |]. split; [reflexivity | reflexivity].
Qed.

(** X14.  For a request in whole cents, with [T] the tax before the
    reduction in cents, the reduction of PL 1087/25 is min(T, F) cents,
    where F is 31289 up to an income of 5000.00, a nearest cent of
    978.62 - 0.133145 x income above 5000.00 and up to 7350.00 (within 0.501
    cent of the exact value), and 0 above 7350.00; F, and so the reduction,
    never exceeds 312.89.  The final tax is T - min(T, F) cents.  Both
    revisions compute these same amounts. *)
Theorem reducao_ao_centavo :
  forall r a k c : Z,
    0 <= r <= 10 ^ 11 -> 0 <= a <= 10 ^ 11 -> 0 <= k <= 10 ^ 6 ->
    0 <= c <= 10 ^ 11 ->
    let rt := lit r 100 in
    let po := lit a 100 in
    let qd := of_Z k in
    let pa := lit c 100 in
    exists T F : Z,
      valor_irrf rt po qd pa = lit T 100
      /\ 0 <= T /\ 0 <= F <= 31289
      /\ (r <= 500000 -> F = 31289)
      /\ (500000 < r <= 735000 ->
          -501000 <= 1000000 * F - reducao_decimal_milionesimos r <= 501000)
      /\ (735000 < r -> F = 0)
      /\ V1.reducao_pl_1087_25 rt po qd pa = lit (Z.min T F) 100
      /\ V1.valor_irrf_apos_pl_1087_25 rt po qd pa = lit (T - Z.min T F) 100
      /\ V2.reducao_pl_formula rt po qd pa = lit (Z.min T F) 100
      /\ V2.valor_irrf_apos_pl_1087_25 rt po qd pa = lit (T - Z.min T F) 100.
Proof.
  intros r a k c Hr Ha Hk Hc rt po qd pa.
  destruct (reducao_em_centavos r a k c Hr Ha Hk Hc)
    as (T & F & ET & HT & HF & H5 & H7 & H9 & ER).
  fold rt po qd pa in ET, ER.
  destruct (requisicao_em_centavos_valida r a k c Hr Ha Hk Hc) as [V B].
  fold rt po qd pa in V, B.
  destruct (reducoes_iguais rt po qd pa V (proj1 B)) as [E1 E2].
  change (10 ^ 12) with 1000000000000 in *.
  assert (A : round2 (lit T 100 - lit (Z.min T F) 100)%js = lit (T - Z.min T F) 100)
    by (apply round2_diferenca; change (10 ^ 12) with 1000000000000; lia).
  exists T, F. split; [exact ET |]. split; [lia |]. split; [lia |].
  split; [exact H5 |]. split; [exact H7 |]. split; [exact H9 |].
  split; [exact ER |]. split.
  { unfold V1.valor_irrf_apos_pl_1087_25. rewrite ER, ET. exact A. }
  split; [rewrite E1; exact ER |].
  unfold V2.valor_irrf_apos_pl_1087_25. rewrite E2, ER, ET. exact A.
Qed.

Lemma reducao_ao_centavo_exemplo :
  0 <= 600000 <= 10 ^ 11 /\ 0 <= 50000 <= 10 ^ 11 /\ 0 <= 1 <= 10 ^ 6
  /\ 0 <= 0 <= 10 ^ 11
  /\ exists T F : Z,
       valor_irrf (lit 600000 100) (lit 50000 100) (of_Z 1) (lit 0 100) = lit T 100
       /\ 0 <= T /\ 0 <= F <= 31289
       /\ (600000 <= 500000 -> F = 31289)
       /\ (500000 < 600000 <= 735000 ->
           -501000 <= 1000000 * F - reducao_decimal_milionesimos 600000 <= 501000)
       /\ (735000 < 600000 -> F = 0)
       /\ V1.reducao_pl_1087_25 (lit 600000 100) (lit 50000 100) (of_Z 1) (lit 0 100)
          = lit (Z.min T F) 100
       /\ V1.valor_irrf_apos_pl_1087_25 (lit 600000 100) (lit 50000 100) (of_Z 1)
            (lit 0 100) = lit (T - Z.min T F) 100
       /\ V2.reducao_pl_formula (lit 600000 100) (lit 50000 100) (of_Z 1) (lit 0 100)
          = lit (Z.min T F) 100
       /\ V2.valor_irrf_apos_pl_1087_25 (lit 600000 100) (lit 50000 100) (of_Z 1)
            (lit 0 100) = lit (T - Z.min T F) 100.
Proof.
  assert (Hr : 0 <= 600000 <= 10 ^ 11) by (cbn; lia).
  assert (Ha : 0 <= 50000 <= 10 ^ 11) by (cbn; lia).
  assert (Hk : 0 <= 1 <= 10 ^ 6) by (cbn; lia).
  assert (Hc : 0 <= 0 <= 10 ^ 11) by (cbn; lia).
  split; [exact Hr |]. split; [exact Ha |]. split; [exact Hk |]. split; [exact Hc |].
  apply (reducao_ao_centavo 600000 50000 1 0 Hr Ha Hk Hc).
Defined.

(** ** The deduction applied *)

Lemma soma_bruta_nneg rt po qd pa :
  entradas_validas rt po qd pa = true -> entradas_binary64 rt po qd pa ->
  let s0 := (po + deducao_dependentes qd + round2 pa)%js in
  binary64 s0 /\ (of_Z 0 <=? s0)%js = true.
Proof.
  intros V B.
  destruct (validas_partes rt po qd pa V) as (_ & _ & _ & _ & _ & Np & Na & _).
  pose proof B as (_ & Bp & _ & Ba).
  pose proof (deducao_dependentes_pos0 rt po qd pa V B) as [Bd Sd].
  pose proof (round2_pos0 pa Ba Na) as [Br Sr].
  destruct (nadd_nneg po _ Bp Bd Np (pos0_nneg _ Sd)) as [B1 N1].
  exact (nadd_nneg _ _ B1 Br N1 (pos0_nneg _ Sr)).
Qed.

(** A sum of deductions of at most one billion is an amount of whole
    cents. *)
Lemma soma_deducoes_centavos rt po qd pa :
  entradas_validas rt po qd pa = true -> entradas_binary64 rt po qd pa ->
  (soma_deducoes po qd pa <=? of_Z 1000000000)%js = true ->
  exists n : Z, 0 <= n <= 10 ^ 12 /\ soma_deducoes po qd pa = lit n 100.
Proof.
  intros V B L. destruct (soma_bruta_nneg rt po qd pa V B) as [B0 N0].
  unfold soma_deducoes in *.
  set (s0 := (po + deducao_dependentes qd + round2 pa)%js) in *.
  assert (L0 : (s0 <=? of_Z 10000000000)%js = true).
  { destruct (s0 <=? of_Z 10000000000)%js eqn:E; [reflexivity | exfalso].
    assert (G : (of_Z 10000000000 <=? s0)%js = true).
    { destruct (nneg_casos s0 N0) as [[s Es] | [Es | (m & e & Es)]];
        rewrite Es in E |- *; try reflexivity; try discriminate E.
      destruct (Rle_or_lt (valor (of_Z 10000000000)) (valor (S754_finite false m e)))
        as [X | X].
      - apply nleb_valor; [reflexivity | reflexivity | exact X].
      - assert ((S754_finite false m e <=? of_Z 10000000000)%js = true) as Y
          by (apply nleb_valor; [reflexivity | reflexivity | lra]).
        congruence. }
    pose proof (round2_muito_acima s0 (nneg_num _ B0 N0) G) as H.
    pose proof (nleb_trans _ _ _ H L) as X. vm_compute in X. discriminate X. }
  destruct (round2_centavos_nneg s0 B0 N0 L0) as (n & Hn & En & _).
  exists n. split; assumption.
Qed.

(** X10.  For every valid request the deduction applied is at least 607.20;
    when the sum of the legal deductions is at most one billion it is exactly
    the larger of that sum and 607.20, so on the itemized path it is the sum
    itself: the [round2] of line 73 changes nothing. *)
Theorem deducao_aplicada_e_a_maior :
  forall rt po qd pa : number,
    entradas_validas rt po qd pa = true -> entradas_binary64 rt po qd pa ->
    (lit 60720 100 <=? deducao_total_aplicada po qd pa)%js = true
    /\ ((soma_deducoes po qd pa <=? of_Z 1000000000)%js = true ->
        deducao_total_aplicada po qd pa
        = Math.max (soma_deducoes po qd pa) DESCONTO_SIMPLIFICADO_MINIMO
        /\ (simplificado_minimo_usado po qd pa = false ->
            deducao_total_aplicada po qd pa = soma_deducoes po qd pa)).
Proof.
  intros rt po qd pa V B.
  split; [apply (deducao_total_minima rt po qd pa V B) |].
  intros L. destruct (soma_deducoes_centavos rt po qd pa V B L) as (n & Hn & En).
  unfold deducao_total_aplicada, simplificado_minimo_usado, ngtb,
    DESCONTO_SIMPLIFICADO_MINIMO.
  rewrite En. rewrite max_lit by (cbn; lia).
  rewrite round2_lit by (change (10 ^ 12) with 1000000000000 in *; lia).
  split; [reflexivity |].
  rewrite lit_nltb by (cbn; lia). intros G. apply Z.ltb_ge in G.
  f_equal. lia.
Qed.

Lemma deducao_aplicada_e_a_maior_exemplo :
  let rt := of_Z 5000 in
  let po := of_Z 750 in
  let qd := of_Z 2 in
  let pa := of_Z 0 in
  entradas_validas rt po qd pa = true /\ entradas_binary64 rt po qd pa
  /\ (lit 60720 100 <=? deducao_total_aplicada po qd pa)%js = true.
Proof.
  intros rt po qd pa.
  assert (V : entradas_validas rt po qd pa = true) by (vm_compute; reflexivity).
  assert (B : entradas_binary64 rt po qd pa) by (repeat split; reflexivity).
  split; [exact V |]. split; [exact B |].
  apply (deducao_aplicada_e_a_maior rt po qd pa V B).
Defined.
